(** * LIO-SEGMOT back-end: a shallow embedding of [src/mapOptimization.cpp]

    The development follows the C++ translation unit: the data of
    [ObjectState] and of the [mapOptimization] node, the scan-to-map
    matcher, the key-frame decision, the factor emitters of the object
    tracker, the solver driver, the pose correction and the odometry
    publisher; then the properties of the specification that concern them.

    Conventions.
    - [double] and [float] values are IEEE binary64 numbers (Rocq's primitive
      [float]); the narrowing of a store into a C++ [float] is not modelled.
    - [int] values are in [Z]; signed overflow is undefined in C++, so no
      wrap-around is written for them.
    - [uint64_t] counters and node ids are in [Z] and wrap modulo [2^64].
    - GTSAM, PCL, OpenCV, tf and the detector are libraries outside this
      translation unit: their operations are the members of two interfaces
      ([Geometry], [Collaborators]) about which nothing is assumed.
    - An uncaught exception or an out-of-range access ends the process: the
      operations return [None] there. *)

From Stdlib Require Import ZArith List Bool Lia Floats.
From stdpp Require Import base option list sorting gmap.

Set Default Proof Using "Type".
Set Warnings "-inexact-float".
Open Scope Z_scope.

(** ** Numbers *)

Definition wrap64 (z : Z) : Z := z mod 2 ^ 64.

(** [std::numeric_limits<int>::max()] *)
Definition INT_MAX : Z := 2 ^ 31 - 1.

(** Conversion of a [uint64_t] to [int] and back, as in
    [trackingObjectIndices[j] = object.objectIndexForTracking]. *)
Definition toInt (z : Z) : Z := (z + 2 ^ 31) mod 2 ^ 32 - 2 ^ 31.
Definition toUint64 (z : Z) : Z := wrap64 z.

Definition Z2float (z : Z) : float :=
  if z <? 0 then PrimFloat.opp (PrimFloat.of_uint63 (Uint63.of_Z (- z)))
  else PrimFloat.of_uint63 (Uint63.of_Z z).

Definition fabs (x : float) : float := PrimFloat.abs x.
Definition fsqrt (x : float) : float := PrimFloat.sqrt x.
Definition fmax (x y : float) : float := if (x <? y)%float then y else x.

(** ** C++ [float]

    A [float] of the code is a binary32 number. It is kept here as the
    binary64 number of the same value, so that comparisons and conversions
    to [double] need nothing; a conversion from [double] and the
    arithmetic on [float] operands round to binary32 (to nearest, ties to
    even), as [SpecFloat] defines it for a precision of 24 bits. *)
Module Float32.

Definition prec : Z := 24.
Definition emax : Z := 128.

(** The conversion of a [double] to [float]. *)
Definition of_double (x : float) : float :=
  match Prim2SF x with
  | S754_finite s m e => SF2Prim (binary_round prec emax s m e)
  | _ => x
  end.

Definition mul (x y : float) : float :=
  SF2Prim (SFmul prec emax (Prim2SF x) (Prim2SF y)).

Definition add (x y : float) : float :=
  SF2Prim (SFadd prec emax (Prim2SF x) (Prim2SF y)).

Definition sqrt (x : float) : float :=
  SF2Prim (SFsqrt prec emax (Prim2SF x)).

End Float32.

(** [gtsam::Vector6], [float transformTobeMapped[6]] and the 6-vectors of
    variances. *)
Record Vector6 := mkVector6
  { v6_0 : float; v6_1 : float; v6_2 : float;
    v6_3 : float; v6_4 : float; v6_5 : float }.

Definition v6_zero : Vector6 := mkVector6 0 0 0 0 0 0.

Definition v6_map2 (f : float -> float -> float) (a b : Vector6) : Vector6 :=
  mkVector6 (f (v6_0 a) (v6_0 b)) (f (v6_1 a) (v6_1 b)) (f (v6_2 a) (v6_2 b))
            (f (v6_3 a) (v6_3 b)) (f (v6_4 a) (v6_4 b)) (f (v6_5 a) (v6_5 b)).

Definition v6_map (f : float -> float) (a : Vector6) : Vector6 :=
  mkVector6 (f (v6_0 a)) (f (v6_1 a)) (f (v6_2 a))
            (f (v6_3 a)) (f (v6_4 a)) (f (v6_5 a)).

Definition v6_add : Vector6 -> Vector6 -> Vector6 := v6_map2 PrimFloat.add.
Definition v6_sub : Vector6 -> Vector6 -> Vector6 := v6_map2 PrimFloat.sub.
Definition v6_scale (a : Vector6) (k : float) : Vector6 :=
  v6_map (fun x => (x * k)%float) a.
Definition v6_div (a : Vector6) (k : float) : Vector6 :=
  v6_map (fun x => (x / k)%float) a.

Definition v6_get (a : Vector6) (i : nat) : float :=
  match i with
  | 0%nat => v6_0 a | 1%nat => v6_1 a | 2%nat => v6_2 a
  | 3%nat => v6_3 a | 4%nat => v6_4 a | _ => v6_5 a
  end.

(** A 6x6 matrix ([cv::Mat matP]) as six rows. *)
Definition Matrix6 : Type := list Vector6.

Definition v6_dot (a b : Vector6) : float :=
  (v6_0 a * v6_0 b + v6_1 a * v6_1 b + v6_2 a * v6_2 b
   + v6_3 a * v6_3 b + v6_4 a * v6_4 b + v6_5 a * v6_5 b)%float.

(** [matP * matX2] for a 6x1 [matX2]. *)
Definition m6_apply (m : Matrix6) (x : Vector6) : Vector6 :=
  let row i := v6_dot (nth i m v6_zero) x in
  mkVector6 (row 0%nat) (row 1%nat) (row 2%nat) (row 3%nat) (row 4%nat) (row 5%nat).

(** ** Messages *)

(** [ros::Time], in nanoseconds, and [toSec()]. *)
Definition Time : Type := Z.
Definition toSec (t : Time) : float := (Z2float t / 1e9)%float.

(** [jsk_recognition_msgs::BoundingBox] *)
Record BoundingBox := mkBoundingBox
  { bb_x : float; bb_y : float; bb_z : float;
    bb_qw : float; bb_qx : float; bb_qy : float; bb_qz : float;
    bb_dx : float; bb_dy : float; bb_dz : float;
    bb_value : float; bb_label : Z }.

Definition BoundingBox_default : BoundingBox :=
  mkBoundingBox 0 0 0 0 0 0 0 0 0 0 0 0.

(** [Detection] of [factor.h]: a box with the variances of its noise model. *)
Record Detection := mkDetection
  { det_box : BoundingBox; det_variances : Vector6 }.

(** [PointXYZIRPYT] *)
Record PointTypePose := mkPointTypePose
  { pp_x : float; pp_y : float; pp_z : float; pp_intensity : float;
    pp_roll : float; pp_pitch : float; pp_yaw : float; pp_time : float }.

(** [PointType] (pcl::PointXYZI) *)
Record PointType := mkPointType
  { pt_x : float; pt_y : float; pt_z : float; pt_intensity : float }.

(** The fields of [nav_msgs::Odometry] that the node sets: a GPS fix read
    by [addGPSFactor], and the odometry messages it publishes. *)
Record Odometry := mkOdometry
  { od_stamp : Time;
    od_x : float; od_y : float; od_z : float;
    od_roll : float; od_pitch : float; od_yaw : float;
    od_covariance : list float }.

(** [geometry_msgs::PoseStamped] of [globalPath], with the orientation kept
    as the roll, pitch and yaw given to [tf::createQuaternionFromRPY]. *)
Record PoseStamped := mkPoseStamped
  { ps_stamp : float; ps_x : float; ps_y : float; ps_z : float;
    ps_roll : float; ps_pitch : float; ps_yaw : float }.

(** The fields of [lio_segmot::cloud_info] read by this node. *)
Record cloud_info := mkCloudInfo
  { imuAvailable : bool; odomAvailable : bool;
    imuRollInit : float; imuPitchInit : float; imuYawInit : float }.

(** ** Configuration

    [ParamServer] is declared in [utility.h]; the members read by this
    translation unit are taken as they are named there, with the values
    that they hold: a member of type [float] holds a binary32 number, a
    member of type [int] a number of 32 bits. *)

Class ParamServer := mkParamServer
  { mappingProcessInterval : float;
    edgeFeatureMinValidNum : Z;
    surfFeatureMinValidNum : Z;
    imuRPYWeight : float;
    rotation_tollerance : float;
    z_tollerance : float;
    useImuHeadingInitialization : bool;
    surroundingkeyframeAddingAngleThreshold : float;
    surroundingkeyframeAddingDistThreshold : float;
    poseCovThreshold : float;
    gpsCovThreshold : float;
    useGpsElevation : bool;
    priorOdometryDiagonalVarianceEigenVector : Vector6;
    odometryDiagonalVarianceEigenVector : Vector6;
    motionDiagonalVarianceEigenVector : Vector6;
    constantVelocityDiagonalVarianceEigenVector : Vector6;
    earlyConstantVelocityDiagonalVarianceEigenVector : Vector6;
    looselyCoupledDetectionVarianceEigenVector : Vector6;
    tightlyCoupledDetectionVarianceEigenVector : Vector6;
    earlyLooselyCoupledMatchingVarianceEigenVector : Vector6;
    looselyCoupledMatchingVarianceEigenVector : Vector6;
    tightlyCoupledMatchingVarianceEigenVector : Vector6;
    dataAssociationVarianceEigenVector : Vector6;
    trackingStepsForLostObject : Z;
    numberOfPreLooseCouplingSteps : Z;
    numberOfInterLooseCouplingSteps : Z;
    numberOfEarlySteps : Z;
    numberOfVelocityConsistencySteps : Z;
    detectionMatchThreshold : float;
    tightCouplingDetectionErrorThreshold : float;
    objectAngularVelocityConsistencyVarianceThreshold : float;
    objectLinearVelocityConsistencyVarianceThreshold : float }.

(** ** The geometry libraries

    [gtsam::Pose3] with the operations the node calls, and Eigen's
    [Affine3f] with PCL's conversions. *)

Class Geometry := mkGeometry
  { Pose3 : Type;
    Pose3_identity : Pose3;
    (** [a * b] *)
    Pose3_compose : Pose3 -> Pose3 -> Pose3;
    Pose3_inverse : Pose3 -> Pose3;
    (** [gtsam::traits<Pose3>::Local(a, b)] and [Retract(a, v)] *)
    Pose3_Local : Pose3 -> Pose3 -> Vector6;
    Pose3_Retract : Pose3 -> Vector6 -> Pose3;
    (** [Pose3(Rot3::RzRyRx(roll, pitch, yaw), Point3(x, y, z))] *)
    Pose3_RzRyRx : float -> float -> float -> float -> float -> float -> Pose3;
    (** [Pose3(Rot3::Quaternion(w, x, y, z), Point3(px, py, pz))] *)
    Pose3_Quaternion :
      float -> float -> float -> float -> float -> float -> float -> Pose3;
    (** [rotation().roll()], ..., [translation().z()], in the order of
        [transformTobeMapped]: roll, pitch, yaw, x, y, z *)
    Pose3_rpyxyz : Pose3 -> Vector6;
    (** [rotation().toQuaternion()]: w, x, y, z *)
    Pose3_toQuaternion : Pose3 -> float * float * float * float;
    Affine3f : Type;
    (** [pcl::getTransformation(x, y, z, roll, pitch, yaw)] *)
    getTransformation :
      float -> float -> float -> float -> float -> float -> Affine3f;
    Affine3f_inverse : Affine3f -> Affine3f;
    Affine3f_compose : Affine3f -> Affine3f -> Affine3f;
    (** [pcl::getTranslationAndEulerAngles]: x, y, z, roll, pitch, yaw *)
    getTranslationAndEulerAngles :
      Affine3f -> float * float * float * float * float * float;
    (** [tf::Matrix3x3(a.slerp(b, w)).getRPY] for two quaternions built by
        [setRPY]: the arguments are the two triples of angles and the
        weight, the result is (rollMid, pitchMid, yawMid). *)
    slerpRPY :
      float * float * float -> float * float * float -> float ->
      float * float * float;
    (** [pointDistance] of [utility.h] *)
    pointDistance : PointType -> PointType -> float }.

(** [gtsam::LieGroup::between]: [a.between(b)] is [a.inverse() * b]. *)
Definition Pose3_between `{Geometry} (a b : Pose3) : Pose3 :=
  Pose3_compose (Pose3_inverse a) b.

Section Model.
Context `{cfg : ParamServer} `{geo : Geometry}.

(** *** [gtsam::Values]

    [insert] throws on a key that is present, [at] and [erase] on a key
    that is absent. *)

Abbreviation Values := (gmap Z Pose3).

Definition Values_insert (k : Z) (p : Pose3) (v : Values) : option Values :=
  match v !! k with
  | None => Some (<[k := p]> v)
  | Some _ => None
  end.

Definition Values_at (k : Z) (v : Values) : option Pose3 := v !! k.

Definition Values_erase (k : Z) (v : Values) : option Values :=
  match v !! k with
  | Some _ => Some (delete k v)
  | None => None
  end.

(** *** Factors *)

(** A diagonal noise model, by its variances. *)
Definition Noise : Type := list float.

Definition Variances (v : Vector6) : Noise :=
  [v6_0 v; v6_1 v; v6_2 v; v6_3 v; v6_4 v; v6_5 v].

Inductive Factor :=
| PriorFactor (key : Z) (prior : Pose3) (noise : Noise)
| BetweenFactor (key1 key2 : Z) (measured : Pose3) (noise : Noise)
| GPSFactor (key : Z) (x y z : float) (noise : Noise)
| TightlyCoupledDetectionFactor
    (egoKey objectKey : Z) (detections : list Detection) (j : nat)
| LooselyCoupledDetectionFactor
    (egoKey objectKey : Z) (detections : list Detection) (j : nat)
| ConstantVelocityFactor (key1 key2 : Z) (noise : Noise)
| StablePoseFactor
    (previousPoseKey velocityKey nextPoseKey : Z) (deltaTime : float)
    (noise : Noise).

Definition NonlinearFactorGraph : Type := list Factor.

(** The calls received by the solver ([MaxMixtureISAM2* isam]), oldest
    first. *)
Inductive SolverCall :=
| UpdateWith (graph : NonlinearFactorGraph) (initial : Values)
| Update.

(** ** [class ObjectState]

    The members that are back references to emitted factors
    ([tightlyCoupledDetectionFactorPtr], [looselyCoupledDetectionFactorPtr],
    [motionFactorPtr]) and the two diagnostic errors computed from them are
    written and published only; they are left out. *)

Record ObjectState := mkObjectState
  { pose : Pose3;
    velocity : Pose3;
    poseNodeIndex : Z;
    velocityNodeIndex : Z;
    objectIndex : Z;
    objectIndexForTracking : Z;
    lostCount : Z;
    trackScore : Z;
    timestamp : Time;
    box : BoundingBox;
    detection : BoundingBox;
    confidence : float;
    isTightlyCoupled : bool;
    isFirst : bool;
    previousVelocityNodeIndices : list Z }.

(** The default member initialisers. *)
Definition ObjectState_default : ObjectState :=
  mkObjectState Pose3_identity Pose3_identity 0 0 0 0 0 0 0
                BoundingBox_default BoundingBox_default 0 false false [].

Definition set_pose (v : Pose3) (o : ObjectState) : ObjectState :=
  mkObjectState
    v (velocity o) (poseNodeIndex o) (velocityNodeIndex o) (objectIndex o)
    (objectIndexForTracking o) (lostCount o) (trackScore o) (timestamp o)
    (box o) (detection o) (confidence o) (isTightlyCoupled o) (isFirst o)
    (previousVelocityNodeIndices o).

Definition set_velocity (v : Pose3) (o : ObjectState) : ObjectState :=
  mkObjectState
    (pose o) v (poseNodeIndex o) (velocityNodeIndex o) (objectIndex o)
    (objectIndexForTracking o) (lostCount o) (trackScore o) (timestamp o)
    (box o) (detection o) (confidence o) (isTightlyCoupled o) (isFirst o)
    (previousVelocityNodeIndices o).

Definition set_poseNodeIndex (v : Z) (o : ObjectState) : ObjectState :=
  mkObjectState
    (pose o) (velocity o) v (velocityNodeIndex o) (objectIndex o)
    (objectIndexForTracking o) (lostCount o) (trackScore o) (timestamp o)
    (box o) (detection o) (confidence o) (isTightlyCoupled o) (isFirst o)
    (previousVelocityNodeIndices o).

Definition set_velocityNodeIndex (v : Z) (o : ObjectState) : ObjectState :=
  mkObjectState
    (pose o) (velocity o) (poseNodeIndex o) v (objectIndex o)
    (objectIndexForTracking o) (lostCount o) (trackScore o) (timestamp o)
    (box o) (detection o) (confidence o) (isTightlyCoupled o) (isFirst o)
    (previousVelocityNodeIndices o).

Definition set_lostCount (v : Z) (o : ObjectState) : ObjectState :=
  mkObjectState
    (pose o) (velocity o) (poseNodeIndex o) (velocityNodeIndex o)
    (objectIndex o) (objectIndexForTracking o) v (trackScore o) (timestamp
    o) (box o) (detection o) (confidence o) (isTightlyCoupled o) (isFirst o)
    (previousVelocityNodeIndices o).

Definition set_trackScore (v : Z) (o : ObjectState) : ObjectState :=
  mkObjectState
    (pose o) (velocity o) (poseNodeIndex o) (velocityNodeIndex o)
    (objectIndex o) (objectIndexForTracking o) (lostCount o) v (timestamp o)
    (box o) (detection o) (confidence o) (isTightlyCoupled o) (isFirst o)
    (previousVelocityNodeIndices o).

Definition set_timestamp (v : Time) (o : ObjectState) : ObjectState :=
  mkObjectState
    (pose o) (velocity o) (poseNodeIndex o) (velocityNodeIndex o)
    (objectIndex o) (objectIndexForTracking o) (lostCount o) (trackScore o)
    v (box o) (detection o) (confidence o) (isTightlyCoupled o) (isFirst o)
    (previousVelocityNodeIndices o).

Definition set_box (v : BoundingBox) (o : ObjectState) : ObjectState :=
  mkObjectState
    (pose o) (velocity o) (poseNodeIndex o) (velocityNodeIndex o)
    (objectIndex o) (objectIndexForTracking o) (lostCount o) (trackScore o)
    (timestamp o) v (detection o) (confidence o) (isTightlyCoupled o)
    (isFirst o) (previousVelocityNodeIndices o).

Definition set_detection (v : BoundingBox) (o : ObjectState) : ObjectState :=
  mkObjectState
    (pose o) (velocity o) (poseNodeIndex o) (velocityNodeIndex o)
    (objectIndex o) (objectIndexForTracking o) (lostCount o) (trackScore o)
    (timestamp o) (box o) v (confidence o) (isTightlyCoupled o) (isFirst o)
    (previousVelocityNodeIndices o).

Definition set_confidence (v : float) (o : ObjectState) : ObjectState :=
  mkObjectState
    (pose o) (velocity o) (poseNodeIndex o) (velocityNodeIndex o)
    (objectIndex o) (objectIndexForTracking o) (lostCount o) (trackScore o)
    (timestamp o) (box o) (detection o) v (isTightlyCoupled o) (isFirst o)
    (previousVelocityNodeIndices o).

Definition set_isTightlyCoupled (v : bool) (o : ObjectState) : ObjectState :=
  mkObjectState
    (pose o) (velocity o) (poseNodeIndex o) (velocityNodeIndex o)
    (objectIndex o) (objectIndexForTracking o) (lostCount o) (trackScore o)
    (timestamp o) (box o) (detection o) (confidence o) v (isFirst o)
    (previousVelocityNodeIndices o).

Definition set_isFirst (v : bool) (o : ObjectState) : ObjectState :=
  mkObjectState
    (pose o) (velocity o) (poseNodeIndex o) (velocityNodeIndex o)
    (objectIndex o) (objectIndexForTracking o) (lostCount o) (trackScore o)
    (timestamp o) (box o) (detection o) (confidence o) (isTightlyCoupled o)
    v (previousVelocityNodeIndices o).

Definition set_previousVelocityNodeIndices (v : list Z) (o : ObjectState) : ObjectState :=
  mkObjectState
    (pose o) (velocity o) (poseNodeIndex o) (velocityNodeIndex o)
    (objectIndex o) (objectIndexForTracking o) (lostCount o) (trackScore o)
    (timestamp o) (box o) (detection o) (confidence o) (isTightlyCoupled o)
    (isFirst o) v.

(** [clone()] copies the fifteen members above. *)
Definition clone (o : ObjectState) : ObjectState :=
  mkObjectState (pose o) (velocity o) (poseNodeIndex o) (velocityNodeIndex o)
    (objectIndex o) (objectIndexForTracking o) (lostCount o) (trackScore o)
    (timestamp o) (box o) (detection o) (confidence o) (isTightlyCoupled o)
    (isFirst o) (previousVelocityNodeIndices o).

(** The mean, over the samples, of [v^T * covarianceInverse * v] for the
    diagonal [covariance] of [velocityIsConsistent]; the order in which
    Eigen rounds inside the product is not modelled. *)
Definition mahalanobis (angleThreshold velocityThreshold : float) (v : Vector6)
  : float :=
  let ia := (1 / angleThreshold)%float in
  let iv := (1 / velocityThreshold)%float in
  v6_dot v (mkVector6 (ia * v6_0 v) (ia * v6_1 v) (ia * v6_2 v)
                      (iv * v6_3 v) (iv * v6_4 v) (iv * v6_5 v))%float.

(** The samples [vs] of [velocityIsConsistent]: for [i] from [0] to
    [samplingSize - 1], the tangent vector of the estimate of node
    [previousVelocityNodeIndices[size - i - 1]]. *)
Definition velocitySamples (prev : list Z) (samplingSize : nat)
    (currentEstimates : Values) : option (list Vector6) :=
  mapM (fun i : nat =>
          k ← prev !! (length prev - i - 1)%nat;
          vi ← Values_at k currentEstimates;
          Some (Pose3_Local Pose3_identity vi))
       (seq 0 samplingSize).

Definition meanVelocity (vs : list Vector6) (samplingSize : Z) : Vector6 :=
  v6_div (fold_left v6_add vs v6_zero) (Z2float samplingSize).

Definition meanMahalanobis (angleThreshold velocityThreshold : float)
    (vs : list Vector6) (samplingSize : Z) : float :=
  let vMean := meanVelocity vs samplingSize in
  (fold_left
     (fun error v =>
        error + mahalanobis angleThreshold velocityThreshold (v6_sub v vMean))
     vs 0 / Z2float samplingSize)%float.

(** [ObjectState::velocityIsConsistent]. The two vectors [angles] and
    [velocities] only feed [angleVar] and [velocityVar], which are not
    used; a negative size given to [Eigen::VectorXd::Zero] aborts. *)
Definition velocityIsConsistent (o : ObjectState) (samplingSize : Z)
    (currentEstimates : Values) (angleThreshold velocityThreshold : float)
  : option bool :=
  let size := Z.of_nat (length (previousVelocityNodeIndices o)) in
  if size <? samplingSize then Some false
  else if samplingSize <? 0 then None
  else
    vs ← velocitySamples (previousVelocityNodeIndices o)
                         (Z.to_nat samplingSize) currentEstimates;
    let error :=
      meanMahalanobis angleThreshold velocityThreshold vs samplingSize in
    Some (error <? 1.0 * 1.0)%float.

(** ** The other collaborators

    [factor.h], [solver.h] and the numerical kernels of the scan matcher.
    The solver is a function of the calls it has received. The three
    functions [cornerOptimization], [surfOptimization] and
    [combineOptimizationCoeffs] search the kd-trees of the local map: they
    are one member, from the scan and the current transform to the selected
    points and their coefficients. *)

Class Collaborators := mkCollaborators
  { (** [getDetectionIndexAndError(pose, detections)] *)
    getDetectionIndexAndError : Pose3 -> list Detection -> nat * float;
    (** [Detection::getPose()] *)
    Detection_getPose : Detection -> Pose3;
    (** [isam->calculateEstimate()] and [isam->marginalCovariance(key)] *)
    calculateEstimate : list SolverCall -> Values;
    marginalCovariance : list SolverCall -> Z -> Matrix6;
    (** the clouds of the current sweep with the kd-trees of the local map,
        and their state after [allocateMemory] *)
    Scan : Type;
    emptyScan : Scan;
    optimizationCoeffs : Scan -> Vector6 -> list PointType * list PointType;
    (** the loop of [LMOptimization] that fills [matA] and [matB], with
        [matAtA = matAt * matA] and [matAtB = matAt * matB] *)
    normalEquations :
      Vector6 -> list PointType -> list PointType -> Matrix6 * Vector6;
    (** [cv::solve(matAtA, matAtB, matX, cv::DECOMP_QR)] *)
    cv_solve : Matrix6 -> Vector6 -> Vector6;
    (** [cv::eigen(matAtA, matE, matV)] *)
    cv_eigen : Matrix6 -> Vector6 * Matrix6;
    (** [matV.inv()] *)
    cv_inv : Matrix6 -> Matrix6 }.

Context `{col : Collaborators}.

(** ** The node *)

(** The members of a [visualization_msgs::Marker] of [objectPaths] and
    [trackingObjectPaths] that are read back: the points and the scale. *)
Record Marker := mkMarker
  { mk_points : list (float * float * float);
    mk_scale : float }.

(** [std::map<uint64_t, ObjectState>]: the entries in increasing order of
    key. *)
Definition Epoch : Type := list (Z * ObjectState).

(** The factor graphs, the buffers of initial values and the solver. *)
Record Estimator := mkEstimator
  { gtSAMgraph : NonlinearFactorGraph;
    gtSAMgraphForLooselyCoupledObjects : NonlinearFactorGraph;
    initialEstimate : Values;
    initialEstimateForLooselyCoupledObjects : Values;
    initialEstimateForAnalysis : Values;
    isam : list SolverCall;
    isamCurrentEstimate : Values;
    poseCovariance : Matrix6;
    numberOfNodes : Z }.

(** The key-frame store, the path and the cache of transformed sub-maps. *)
Record KeyFrames := mkKeyFrames
  { cloudKeyPoses3D : list PointType;
    cloudKeyPoses6D : list PointTypePose;
    keyPoseIndices : list Z;
    globalPath : list PoseStamped;
    laserCloudMapContainer : gmap Z (list PointType * list PointType) }.

(** The state of the scan-to-map matcher. *)
Record Matcher := mkMatcher
  { transformTobeMapped : Vector6;
    isDegenerate : bool;
    matP : Matrix6;
    laserCloudOri : list PointType;
    coeffSel : list PointType;
    laserCloudCornerLastDSNum : Z;
    laserCloudSurfLastDSNum : Z;
    incrementalOdometryAffineFront : Affine3f;
    incrementalOdometryAffineBack : Affine3f;
    scan : Scan }.

(** The message being processed and the times derived from it. *)
Record Clock := mkClock
  { cloudInfo : cloud_info;
    timeLaserInfoStamp : Time;
    timeLaserInfoCur : float;
    deltaTime : float;
    timeLastProcessing : float }.

(** The loop and GPS queues. *)
Record Closures := mkClosures
  { aLoopIsClosed : bool;
    loopIndexQueue : list (Z * Z);
    loopPoseQueue : list Pose3;
    loopNoiseQueue : list Noise;
    gpsQueue : list Odometry;
    lastGPSPoint : PointType }.

(** The detections and the object tracks. *)
Record Tracker := mkTracker
  { detections : list BoundingBox;
    detectionIsActive : bool;
    detectionVector : list Detection;
    tightlyCoupledDetectionVector : list Detection;
    earlyLooselyCoupledMatchingVector : list Detection;
    looselyCoupledMatchingVector : list Detection;
    tightlyCoupledMatchingVector : list Detection;
    dataAssociationVector : list Detection;
    objects : list Epoch;
    objectPaths : list Marker;
    trackingObjectPaths : list Marker;
    numberOfRegisteredObjects : Z;
    numberOfTrackingObjects : Z;
    anyObjectIsTightlyCoupled : bool;
    numberOfTightlyCoupledObjectsAtThisMoment : Z }.

(** The statics of [publishOdometry], and what the node has sent: the
    incremental odometry messages, the warnings, and for every factor added
    for an object the [objectIndex] of that object. *)
Record Outputs := mkOutputs
  { lastIncreOdomPubFlag : bool;
    laserOdomIncremental : Odometry;
    increOdomAffine : Affine3f;
    pubLaserOdometryIncremental : list Odometry;
    rosWarnings : list (Z * Z);
    factorTrace : list (Z * Factor) }.

(** The members of [class mapOptimization], by component; a member is
    read through the coercions: [objects s], [gtSAMgraph s]. *)
Record mapOptimization := mkMapOptimization
  { estimator :> Estimator;
    keyFrames :> KeyFrames;
    matcher :> Matcher;
    clock :> Clock;
    closures :> Closures;
    tracker :> Tracker;
    outputs :> Outputs }.

Definition with_estimator (v : Estimator) (s : mapOptimization)
  : mapOptimization :=
  mkMapOptimization
    v (keyFrames s) (matcher s) (clock s) (closures s) (tracker s)
    (outputs s).

Definition with_keyFrames (v : KeyFrames) (s : mapOptimization)
  : mapOptimization :=
  mkMapOptimization
    (estimator s) v (matcher s) (clock s) (closures s) (tracker s)
    (outputs s).

Definition with_matcher (v : Matcher) (s : mapOptimization)
  : mapOptimization :=
  mkMapOptimization
    (estimator s) (keyFrames s) v (clock s) (closures s) (tracker s)
    (outputs s).

Definition with_clock (v : Clock) (s : mapOptimization)
  : mapOptimization :=
  mkMapOptimization
    (estimator s) (keyFrames s) (matcher s) v (closures s) (tracker s)
    (outputs s).

Definition with_closures (v : Closures) (s : mapOptimization)
  : mapOptimization :=
  mkMapOptimization
    (estimator s) (keyFrames s) (matcher s) (clock s) v (tracker s)
    (outputs s).

Definition with_tracker (v : Tracker) (s : mapOptimization)
  : mapOptimization :=
  mkMapOptimization
    (estimator s) (keyFrames s) (matcher s) (clock s) (closures s) v
    (outputs s).

Definition with_outputs (v : Outputs) (s : mapOptimization)
  : mapOptimization :=
  mkMapOptimization
    (estimator s) (keyFrames s) (matcher s) (clock s) (closures s)
    (tracker s) v.

(** Assignment to a member. *)
Definition set_gtSAMgraph (v : NonlinearFactorGraph)
    (s : mapOptimization) : mapOptimization :=
  with_estimator
    (mkEstimator
       v (gtSAMgraphForLooselyCoupledObjects s) (initialEstimate s)
       (initialEstimateForLooselyCoupledObjects s)
       (initialEstimateForAnalysis s) (isam s) (isamCurrentEstimate s)
       (poseCovariance s) (numberOfNodes s)) s.
Definition set_gtSAMgraphForLooselyCoupledObjects (v : NonlinearFactorGraph)
    (s : mapOptimization) : mapOptimization :=
  with_estimator
    (mkEstimator
       (gtSAMgraph s) v (initialEstimate s)
       (initialEstimateForLooselyCoupledObjects s)
       (initialEstimateForAnalysis s) (isam s) (isamCurrentEstimate s)
       (poseCovariance s) (numberOfNodes s)) s.
Definition set_initialEstimate (v : Values)
    (s : mapOptimization) : mapOptimization :=
  with_estimator
    (mkEstimator
       (gtSAMgraph s) (gtSAMgraphForLooselyCoupledObjects s) v
       (initialEstimateForLooselyCoupledObjects s)
       (initialEstimateForAnalysis s) (isam s) (isamCurrentEstimate s)
       (poseCovariance s) (numberOfNodes s)) s.
Definition set_initialEstimateForLooselyCoupledObjects (v : Values)
    (s : mapOptimization) : mapOptimization :=
  with_estimator
    (mkEstimator
       (gtSAMgraph s) (gtSAMgraphForLooselyCoupledObjects s)
       (initialEstimate s) v (initialEstimateForAnalysis s) (isam s)
       (isamCurrentEstimate s) (poseCovariance s) (numberOfNodes s)) s.
Definition set_initialEstimateForAnalysis (v : Values)
    (s : mapOptimization) : mapOptimization :=
  with_estimator
    (mkEstimator
       (gtSAMgraph s) (gtSAMgraphForLooselyCoupledObjects s)
       (initialEstimate s) (initialEstimateForLooselyCoupledObjects s) v
       (isam s) (isamCurrentEstimate s) (poseCovariance s) (numberOfNodes
       s)) s.
Definition set_isam (v : list SolverCall)
    (s : mapOptimization) : mapOptimization :=
  with_estimator
    (mkEstimator
       (gtSAMgraph s) (gtSAMgraphForLooselyCoupledObjects s)
       (initialEstimate s) (initialEstimateForLooselyCoupledObjects s)
       (initialEstimateForAnalysis s) v (isamCurrentEstimate s)
       (poseCovariance s) (numberOfNodes s)) s.
Definition set_isamCurrentEstimate (v : Values)
    (s : mapOptimization) : mapOptimization :=
  with_estimator
    (mkEstimator
       (gtSAMgraph s) (gtSAMgraphForLooselyCoupledObjects s)
       (initialEstimate s) (initialEstimateForLooselyCoupledObjects s)
       (initialEstimateForAnalysis s) (isam s) v (poseCovariance s)
       (numberOfNodes s)) s.
Definition set_poseCovariance (v : Matrix6)
    (s : mapOptimization) : mapOptimization :=
  with_estimator
    (mkEstimator
       (gtSAMgraph s) (gtSAMgraphForLooselyCoupledObjects s)
       (initialEstimate s) (initialEstimateForLooselyCoupledObjects s)
       (initialEstimateForAnalysis s) (isam s) (isamCurrentEstimate s) v
       (numberOfNodes s)) s.
Definition set_numberOfNodes (v : Z)
    (s : mapOptimization) : mapOptimization :=
  with_estimator
    (mkEstimator
       (gtSAMgraph s) (gtSAMgraphForLooselyCoupledObjects s)
       (initialEstimate s) (initialEstimateForLooselyCoupledObjects s)
       (initialEstimateForAnalysis s) (isam s) (isamCurrentEstimate s)
       (poseCovariance s) v) s.

Definition set_cloudKeyPoses3D (v : list PointType)
    (s : mapOptimization) : mapOptimization :=
  with_keyFrames
    (mkKeyFrames
       v (cloudKeyPoses6D s) (keyPoseIndices s) (globalPath s)
       (laserCloudMapContainer s)) s.
Definition set_cloudKeyPoses6D (v : list PointTypePose)
    (s : mapOptimization) : mapOptimization :=
  with_keyFrames
    (mkKeyFrames
       (cloudKeyPoses3D s) v (keyPoseIndices s) (globalPath s)
       (laserCloudMapContainer s)) s.
Definition set_keyPoseIndices (v : list Z)
    (s : mapOptimization) : mapOptimization :=
  with_keyFrames
    (mkKeyFrames
       (cloudKeyPoses3D s) (cloudKeyPoses6D s) v (globalPath s)
       (laserCloudMapContainer s)) s.
Definition set_globalPath (v : list PoseStamped)
    (s : mapOptimization) : mapOptimization :=
  with_keyFrames
    (mkKeyFrames
       (cloudKeyPoses3D s) (cloudKeyPoses6D s) (keyPoseIndices s) v
       (laserCloudMapContainer s)) s.
Definition set_laserCloudMapContainer (v : gmap Z (list PointType * list PointType))
    (s : mapOptimization) : mapOptimization :=
  with_keyFrames
    (mkKeyFrames
       (cloudKeyPoses3D s) (cloudKeyPoses6D s) (keyPoseIndices s)
       (globalPath s) v) s.

Definition set_transformTobeMapped (v : Vector6)
    (s : mapOptimization) : mapOptimization :=
  with_matcher
    (mkMatcher
       v (isDegenerate s) (matP s) (laserCloudOri s) (coeffSel s)
       (laserCloudCornerLastDSNum s) (laserCloudSurfLastDSNum s)
       (incrementalOdometryAffineFront s) (incrementalOdometryAffineBack s)
       (scan s)) s.
Definition set_isDegenerate (v : bool)
    (s : mapOptimization) : mapOptimization :=
  with_matcher
    (mkMatcher
       (transformTobeMapped s) v (matP s) (laserCloudOri s) (coeffSel s)
       (laserCloudCornerLastDSNum s) (laserCloudSurfLastDSNum s)
       (incrementalOdometryAffineFront s) (incrementalOdometryAffineBack s)
       (scan s)) s.
Definition set_matP (v : Matrix6)
    (s : mapOptimization) : mapOptimization :=
  with_matcher
    (mkMatcher
       (transformTobeMapped s) (isDegenerate s) v (laserCloudOri s)
       (coeffSel s) (laserCloudCornerLastDSNum s) (laserCloudSurfLastDSNum
       s) (incrementalOdometryAffineFront s) (incrementalOdometryAffineBack
       s) (scan s)) s.
Definition set_laserCloudOri (v : list PointType)
    (s : mapOptimization) : mapOptimization :=
  with_matcher
    (mkMatcher
       (transformTobeMapped s) (isDegenerate s) (matP s) v (coeffSel s)
       (laserCloudCornerLastDSNum s) (laserCloudSurfLastDSNum s)
       (incrementalOdometryAffineFront s) (incrementalOdometryAffineBack s)
       (scan s)) s.
Definition set_coeffSel (v : list PointType)
    (s : mapOptimization) : mapOptimization :=
  with_matcher
    (mkMatcher
       (transformTobeMapped s) (isDegenerate s) (matP s) (laserCloudOri s)
       v (laserCloudCornerLastDSNum s) (laserCloudSurfLastDSNum s)
       (incrementalOdometryAffineFront s) (incrementalOdometryAffineBack s)
       (scan s)) s.
Definition set_laserCloudCornerLastDSNum (v : Z)
    (s : mapOptimization) : mapOptimization :=
  with_matcher
    (mkMatcher
       (transformTobeMapped s) (isDegenerate s) (matP s) (laserCloudOri s)
       (coeffSel s) v (laserCloudSurfLastDSNum s)
       (incrementalOdometryAffineFront s) (incrementalOdometryAffineBack s)
       (scan s)) s.
Definition set_laserCloudSurfLastDSNum (v : Z)
    (s : mapOptimization) : mapOptimization :=
  with_matcher
    (mkMatcher
       (transformTobeMapped s) (isDegenerate s) (matP s) (laserCloudOri s)
       (coeffSel s) (laserCloudCornerLastDSNum s) v
       (incrementalOdometryAffineFront s) (incrementalOdometryAffineBack s)
       (scan s)) s.
Definition set_incrementalOdometryAffineFront (v : Affine3f)
    (s : mapOptimization) : mapOptimization :=
  with_matcher
    (mkMatcher
       (transformTobeMapped s) (isDegenerate s) (matP s) (laserCloudOri s)
       (coeffSel s) (laserCloudCornerLastDSNum s) (laserCloudSurfLastDSNum
       s) v (incrementalOdometryAffineBack s) (scan s)) s.
Definition set_incrementalOdometryAffineBack (v : Affine3f)
    (s : mapOptimization) : mapOptimization :=
  with_matcher
    (mkMatcher
       (transformTobeMapped s) (isDegenerate s) (matP s) (laserCloudOri s)
       (coeffSel s) (laserCloudCornerLastDSNum s) (laserCloudSurfLastDSNum
       s) (incrementalOdometryAffineFront s) v (scan s)) s.
Definition set_scan (v : Scan)
    (s : mapOptimization) : mapOptimization :=
  with_matcher
    (mkMatcher
       (transformTobeMapped s) (isDegenerate s) (matP s) (laserCloudOri s)
       (coeffSel s) (laserCloudCornerLastDSNum s) (laserCloudSurfLastDSNum
       s) (incrementalOdometryAffineFront s) (incrementalOdometryAffineBack
       s) v) s.

Definition set_cloudInfo (v : cloud_info)
    (s : mapOptimization) : mapOptimization :=
  with_clock
    (mkClock
       v (timeLaserInfoStamp s) (timeLaserInfoCur s) (deltaTime s)
       (timeLastProcessing s)) s.
Definition set_timeLaserInfoStamp (v : Time)
    (s : mapOptimization) : mapOptimization :=
  with_clock
    (mkClock
       (cloudInfo s) v (timeLaserInfoCur s) (deltaTime s)
       (timeLastProcessing s)) s.
Definition set_timeLaserInfoCur (v : float)
    (s : mapOptimization) : mapOptimization :=
  with_clock
    (mkClock
       (cloudInfo s) (timeLaserInfoStamp s) v (deltaTime s)
       (timeLastProcessing s)) s.
Definition set_deltaTime (v : float)
    (s : mapOptimization) : mapOptimization :=
  with_clock
    (mkClock
       (cloudInfo s) (timeLaserInfoStamp s) (timeLaserInfoCur s) v
       (timeLastProcessing s)) s.
Definition set_timeLastProcessing (v : float)
    (s : mapOptimization) : mapOptimization :=
  with_clock
    (mkClock
       (cloudInfo s) (timeLaserInfoStamp s) (timeLaserInfoCur s) (deltaTime
       s) v) s.

Definition set_aLoopIsClosed (v : bool)
    (s : mapOptimization) : mapOptimization :=
  with_closures
    (mkClosures
       v (loopIndexQueue s) (loopPoseQueue s) (loopNoiseQueue s) (gpsQueue
       s) (lastGPSPoint s)) s.
Definition set_loopIndexQueue (v : list (Z * Z))
    (s : mapOptimization) : mapOptimization :=
  with_closures
    (mkClosures
       (aLoopIsClosed s) v (loopPoseQueue s) (loopNoiseQueue s) (gpsQueue
       s) (lastGPSPoint s)) s.
Definition set_loopPoseQueue (v : list Pose3)
    (s : mapOptimization) : mapOptimization :=
  with_closures
    (mkClosures
       (aLoopIsClosed s) (loopIndexQueue s) v (loopNoiseQueue s) (gpsQueue
       s) (lastGPSPoint s)) s.
Definition set_loopNoiseQueue (v : list Noise)
    (s : mapOptimization) : mapOptimization :=
  with_closures
    (mkClosures
       (aLoopIsClosed s) (loopIndexQueue s) (loopPoseQueue s) v (gpsQueue
       s) (lastGPSPoint s)) s.
Definition set_gpsQueue (v : list Odometry)
    (s : mapOptimization) : mapOptimization :=
  with_closures
    (mkClosures
       (aLoopIsClosed s) (loopIndexQueue s) (loopPoseQueue s)
       (loopNoiseQueue s) v (lastGPSPoint s)) s.
Definition set_lastGPSPoint (v : PointType)
    (s : mapOptimization) : mapOptimization :=
  with_closures
    (mkClosures
       (aLoopIsClosed s) (loopIndexQueue s) (loopPoseQueue s)
       (loopNoiseQueue s) (gpsQueue s) v) s.

Definition set_detections (v : list BoundingBox)
    (s : mapOptimization) : mapOptimization :=
  with_tracker
    (mkTracker
       v (detectionIsActive s) (detectionVector s)
       (tightlyCoupledDetectionVector s) (earlyLooselyCoupledMatchingVector
       s) (looselyCoupledMatchingVector s) (tightlyCoupledMatchingVector s)
       (dataAssociationVector s) (objects s) (objectPaths s)
       (trackingObjectPaths s) (numberOfRegisteredObjects s)
       (numberOfTrackingObjects s) (anyObjectIsTightlyCoupled s)
       (numberOfTightlyCoupledObjectsAtThisMoment s)) s.
Definition set_detectionIsActive (v : bool)
    (s : mapOptimization) : mapOptimization :=
  with_tracker
    (mkTracker
       (detections s) v (detectionVector s) (tightlyCoupledDetectionVector
       s) (earlyLooselyCoupledMatchingVector s)
       (looselyCoupledMatchingVector s) (tightlyCoupledMatchingVector s)
       (dataAssociationVector s) (objects s) (objectPaths s)
       (trackingObjectPaths s) (numberOfRegisteredObjects s)
       (numberOfTrackingObjects s) (anyObjectIsTightlyCoupled s)
       (numberOfTightlyCoupledObjectsAtThisMoment s)) s.
Definition set_detectionVector (v : list Detection)
    (s : mapOptimization) : mapOptimization :=
  with_tracker
    (mkTracker
       (detections s) (detectionIsActive s) v
       (tightlyCoupledDetectionVector s) (earlyLooselyCoupledMatchingVector
       s) (looselyCoupledMatchingVector s) (tightlyCoupledMatchingVector s)
       (dataAssociationVector s) (objects s) (objectPaths s)
       (trackingObjectPaths s) (numberOfRegisteredObjects s)
       (numberOfTrackingObjects s) (anyObjectIsTightlyCoupled s)
       (numberOfTightlyCoupledObjectsAtThisMoment s)) s.
Definition set_tightlyCoupledDetectionVector (v : list Detection)
    (s : mapOptimization) : mapOptimization :=
  with_tracker
    (mkTracker
       (detections s) (detectionIsActive s) (detectionVector s) v
       (earlyLooselyCoupledMatchingVector s) (looselyCoupledMatchingVector
       s) (tightlyCoupledMatchingVector s) (dataAssociationVector s)
       (objects s) (objectPaths s) (trackingObjectPaths s)
       (numberOfRegisteredObjects s) (numberOfTrackingObjects s)
       (anyObjectIsTightlyCoupled s)
       (numberOfTightlyCoupledObjectsAtThisMoment s)) s.
Definition set_earlyLooselyCoupledMatchingVector (v : list Detection)
    (s : mapOptimization) : mapOptimization :=
  with_tracker
    (mkTracker
       (detections s) (detectionIsActive s) (detectionVector s)
       (tightlyCoupledDetectionVector s) v (looselyCoupledMatchingVector s)
       (tightlyCoupledMatchingVector s) (dataAssociationVector s) (objects
       s) (objectPaths s) (trackingObjectPaths s)
       (numberOfRegisteredObjects s) (numberOfTrackingObjects s)
       (anyObjectIsTightlyCoupled s)
       (numberOfTightlyCoupledObjectsAtThisMoment s)) s.
Definition set_looselyCoupledMatchingVector (v : list Detection)
    (s : mapOptimization) : mapOptimization :=
  with_tracker
    (mkTracker
       (detections s) (detectionIsActive s) (detectionVector s)
       (tightlyCoupledDetectionVector s) (earlyLooselyCoupledMatchingVector
       s) v (tightlyCoupledMatchingVector s) (dataAssociationVector s)
       (objects s) (objectPaths s) (trackingObjectPaths s)
       (numberOfRegisteredObjects s) (numberOfTrackingObjects s)
       (anyObjectIsTightlyCoupled s)
       (numberOfTightlyCoupledObjectsAtThisMoment s)) s.
Definition set_tightlyCoupledMatchingVector (v : list Detection)
    (s : mapOptimization) : mapOptimization :=
  with_tracker
    (mkTracker
       (detections s) (detectionIsActive s) (detectionVector s)
       (tightlyCoupledDetectionVector s) (earlyLooselyCoupledMatchingVector
       s) (looselyCoupledMatchingVector s) v (dataAssociationVector s)
       (objects s) (objectPaths s) (trackingObjectPaths s)
       (numberOfRegisteredObjects s) (numberOfTrackingObjects s)
       (anyObjectIsTightlyCoupled s)
       (numberOfTightlyCoupledObjectsAtThisMoment s)) s.
Definition set_dataAssociationVector (v : list Detection)
    (s : mapOptimization) : mapOptimization :=
  with_tracker
    (mkTracker
       (detections s) (detectionIsActive s) (detectionVector s)
       (tightlyCoupledDetectionVector s) (earlyLooselyCoupledMatchingVector
       s) (looselyCoupledMatchingVector s) (tightlyCoupledMatchingVector s)
       v (objects s) (objectPaths s) (trackingObjectPaths s)
       (numberOfRegisteredObjects s) (numberOfTrackingObjects s)
       (anyObjectIsTightlyCoupled s)
       (numberOfTightlyCoupledObjectsAtThisMoment s)) s.
Definition set_objects (v : list Epoch)
    (s : mapOptimization) : mapOptimization :=
  with_tracker
    (mkTracker
       (detections s) (detectionIsActive s) (detectionVector s)
       (tightlyCoupledDetectionVector s) (earlyLooselyCoupledMatchingVector
       s) (looselyCoupledMatchingVector s) (tightlyCoupledMatchingVector s)
       (dataAssociationVector s) v (objectPaths s) (trackingObjectPaths s)
       (numberOfRegisteredObjects s) (numberOfTrackingObjects s)
       (anyObjectIsTightlyCoupled s)
       (numberOfTightlyCoupledObjectsAtThisMoment s)) s.
Definition set_objectPaths (v : list Marker)
    (s : mapOptimization) : mapOptimization :=
  with_tracker
    (mkTracker
       (detections s) (detectionIsActive s) (detectionVector s)
       (tightlyCoupledDetectionVector s) (earlyLooselyCoupledMatchingVector
       s) (looselyCoupledMatchingVector s) (tightlyCoupledMatchingVector s)
       (dataAssociationVector s) (objects s) v (trackingObjectPaths s)
       (numberOfRegisteredObjects s) (numberOfTrackingObjects s)
       (anyObjectIsTightlyCoupled s)
       (numberOfTightlyCoupledObjectsAtThisMoment s)) s.
Definition set_trackingObjectPaths (v : list Marker)
    (s : mapOptimization) : mapOptimization :=
  with_tracker
    (mkTracker
       (detections s) (detectionIsActive s) (detectionVector s)
       (tightlyCoupledDetectionVector s) (earlyLooselyCoupledMatchingVector
       s) (looselyCoupledMatchingVector s) (tightlyCoupledMatchingVector s)
       (dataAssociationVector s) (objects s) (objectPaths s) v
       (numberOfRegisteredObjects s) (numberOfTrackingObjects s)
       (anyObjectIsTightlyCoupled s)
       (numberOfTightlyCoupledObjectsAtThisMoment s)) s.
Definition set_numberOfRegisteredObjects (v : Z)
    (s : mapOptimization) : mapOptimization :=
  with_tracker
    (mkTracker
       (detections s) (detectionIsActive s) (detectionVector s)
       (tightlyCoupledDetectionVector s) (earlyLooselyCoupledMatchingVector
       s) (looselyCoupledMatchingVector s) (tightlyCoupledMatchingVector s)
       (dataAssociationVector s) (objects s) (objectPaths s)
       (trackingObjectPaths s) v (numberOfTrackingObjects s)
       (anyObjectIsTightlyCoupled s)
       (numberOfTightlyCoupledObjectsAtThisMoment s)) s.
Definition set_numberOfTrackingObjects (v : Z)
    (s : mapOptimization) : mapOptimization :=
  with_tracker
    (mkTracker
       (detections s) (detectionIsActive s) (detectionVector s)
       (tightlyCoupledDetectionVector s) (earlyLooselyCoupledMatchingVector
       s) (looselyCoupledMatchingVector s) (tightlyCoupledMatchingVector s)
       (dataAssociationVector s) (objects s) (objectPaths s)
       (trackingObjectPaths s) (numberOfRegisteredObjects s) v
       (anyObjectIsTightlyCoupled s)
       (numberOfTightlyCoupledObjectsAtThisMoment s)) s.
Definition set_anyObjectIsTightlyCoupled (v : bool)
    (s : mapOptimization) : mapOptimization :=
  with_tracker
    (mkTracker
       (detections s) (detectionIsActive s) (detectionVector s)
       (tightlyCoupledDetectionVector s) (earlyLooselyCoupledMatchingVector
       s) (looselyCoupledMatchingVector s) (tightlyCoupledMatchingVector s)
       (dataAssociationVector s) (objects s) (objectPaths s)
       (trackingObjectPaths s) (numberOfRegisteredObjects s)
       (numberOfTrackingObjects s) v
       (numberOfTightlyCoupledObjectsAtThisMoment s)) s.
Definition set_numberOfTightlyCoupledObjectsAtThisMoment (v : Z)
    (s : mapOptimization) : mapOptimization :=
  with_tracker
    (mkTracker
       (detections s) (detectionIsActive s) (detectionVector s)
       (tightlyCoupledDetectionVector s) (earlyLooselyCoupledMatchingVector
       s) (looselyCoupledMatchingVector s) (tightlyCoupledMatchingVector s)
       (dataAssociationVector s) (objects s) (objectPaths s)
       (trackingObjectPaths s) (numberOfRegisteredObjects s)
       (numberOfTrackingObjects s) (anyObjectIsTightlyCoupled s) v) s.

Definition set_lastIncreOdomPubFlag (v : bool)
    (s : mapOptimization) : mapOptimization :=
  with_outputs
    (mkOutputs
       v (laserOdomIncremental s) (increOdomAffine s)
       (pubLaserOdometryIncremental s) (rosWarnings s) (factorTrace s)) s.
Definition set_laserOdomIncremental (v : Odometry)
    (s : mapOptimization) : mapOptimization :=
  with_outputs
    (mkOutputs
       (lastIncreOdomPubFlag s) v (increOdomAffine s)
       (pubLaserOdometryIncremental s) (rosWarnings s) (factorTrace s)) s.
Definition set_increOdomAffine (v : Affine3f)
    (s : mapOptimization) : mapOptimization :=
  with_outputs
    (mkOutputs
       (lastIncreOdomPubFlag s) (laserOdomIncremental s) v
       (pubLaserOdometryIncremental s) (rosWarnings s) (factorTrace s)) s.
Definition set_pubLaserOdometryIncremental (v : list Odometry)
    (s : mapOptimization) : mapOptimization :=
  with_outputs
    (mkOutputs
       (lastIncreOdomPubFlag s) (laserOdomIncremental s) (increOdomAffine
       s) v (rosWarnings s) (factorTrace s)) s.
Definition set_rosWarnings (v : list (Z * Z))
    (s : mapOptimization) : mapOptimization :=
  with_outputs
    (mkOutputs
       (lastIncreOdomPubFlag s) (laserOdomIncremental s) (increOdomAffine
       s) (pubLaserOdometryIncremental s) v (factorTrace s)) s.
Definition set_factorTrace (v : list (Z * Factor))
    (s : mapOptimization) : mapOptimization :=
  with_outputs
    (mkOutputs
       (lastIncreOdomPubFlag s) (laserOdomIncremental s) (increOdomAffine
       s) (pubLaserOdometryIncremental s) (rosWarnings s) v) s.

(** ** Containers *)

(** [v.back()] of a [std::vector]; undefined on an empty vector. *)
Definition back {A} (l : list A) : option A := last l.

(** [m.find(k)] of an epoch. *)
Fixpoint Epoch_find (k : Z) (e : Epoch) : option ObjectState :=
  match e with
  | [] => None
  | (k', o) :: r => if k =? k' then Some o else Epoch_find k r
  end.

(** [m[k] = o] *)
Fixpoint Epoch_assign (k : Z) (o : ObjectState) (e : Epoch) : Epoch :=
  match e with
  | [] => [(k, o)]
  | (k', o') :: r =>
      if k <? k' then (k, o) :: e
      else if k =? k' then (k, o) :: r
      else (k', o') :: Epoch_assign k o r
  end.

(** [m[k]] read: [operator[]] inserts a default-constructed object when the
    key is absent. *)
Definition Epoch_index (k : Z) (e : Epoch) : ObjectState * Epoch :=
  match Epoch_find k e with
  | Some o => (o, e)
  | None => (ObjectState_default, Epoch_assign k ObjectState_default e)
  end.

Definition keys (e : Epoch) : list Z := map fst e.

(** ** Scan-to-map matching *)

Definition v6_set (i : nat) (x : float) (a : Vector6) : Vector6 :=
  mkVector6 (if (i =? 0)%nat then x else v6_0 a)
            (if (i =? 1)%nat then x else v6_1 a)
            (if (i =? 2)%nat then x else v6_2 a)
            (if (i =? 3)%nat then x else v6_3 a)
            (if (i =? 4)%nat then x else v6_4 a)
            (if (i =? 5)%nat then x else v6_5 a).

(** [matV.inv() * matV2] *)
Definition m6_mul (a b : Matrix6) : Matrix6 :=
  map (fun row =>
         fold_left
           (fun acc k => v6_add acc (v6_scale (nth k b v6_zero) (v6_get row k)))
           (seq 0 6) v6_zero)
      a.

(** [pcl::rad2deg] on a [float] *)
Definition rad2deg (alpha : float) : float := (alpha * 57.29578)%float.

Definition trans2Affine3f (t : Vector6) : Affine3f :=
  getTransformation (v6_3 t) (v6_4 t) (v6_5 t) (v6_0 t) (v6_1 t) (v6_2 t).

Definition trans2gtsamPose (t : Vector6) : Pose3 :=
  Pose3_RzRyRx (v6_0 t) (v6_1 t) (v6_2 t) (v6_3 t) (v6_4 t) (v6_5 t).

Definition pclPointTogtsamPose3 (p : PointTypePose) : Pose3 :=
  Pose3_RzRyRx (pp_roll p) (pp_pitch p) (pp_yaw p) (pp_x p) (pp_y p) (pp_z p).

Definition pclPointToAffine3f (p : PointTypePose) : Affine3f :=
  getTransformation (pp_x p) (pp_y p) (pp_z p)
                    (pp_roll p) (pp_pitch p) (pp_yaw p).

(** The loop [for (int i = 5; i >= 0; i--)] of [LMOptimization] over the
    eigenvalues, entered with [n = 6]: row [i] of [matV2] is zeroed while
    [matE(0, i) < eignThre[i]], where every threshold is 100. *)
Fixpoint degenerateRows (n : nat) (matE : Vector6) (matV2 : Matrix6)
    (degenerate : bool) : Matrix6 * bool :=
  match n with
  | O => (matV2, degenerate)
  | S i =>
      if (v6_get matE i <? 100)%float
      then degenerateRows i matE (<[i := v6_zero]> matV2) true
      else (matV2, degenerate)
  end.

Definition LMOptimization (iterCount : Z) (s : mapOptimization)
  : bool * mapOptimization :=
  let laserCloudSelNum := Z.of_nat (length (laserCloudOri s)) in
  if laserCloudSelNum <? 50 then (false, s)
  else
    let '(matAtA, matAtB) :=
      normalEquations (transformTobeMapped s) (laserCloudOri s) (coeffSel s) in
    let matX := cv_solve matAtA matAtB in
    let s :=
      if iterCount =? 0 then
        let '(matE, matV) := cv_eigen matAtA in
        let '(matV2, degenerate) := degenerateRows 6 matE matV false in
        set_matP (m6_mul (cv_inv matV) matV2) (set_isDegenerate degenerate s)
      else s in
    let matX := if isDegenerate s then m6_apply (matP s) matX else matX in
    let s := set_transformTobeMapped (v6_add (transformTobeMapped s) matX) s in
    let sq x := (x * x)%float in
    let deltaR :=
      fsqrt (sq (rad2deg (v6_0 matX)) + sq (rad2deg (v6_1 matX))
             + sq (rad2deg (v6_2 matX)))%float in
    let deltaT :=
      fsqrt (sq (v6_3 matX * 100) + sq (v6_4 matX * 100)
             + sq (v6_5 matX * 100))%float in
    ((deltaR <? 0.05)%float && (deltaT <? 0.05)%float, s).

Definition constraintTransformation (value limit : float) : float :=
  let value := if (value <? - limit)%float then (- limit)%float else value in
  if (limit <? value)%float then limit else value.

(** [rollMid] and [pitchMid] are [double] and [transformTobeMapped] holds
    [float]. *)
Definition transformUpdate (s : mapOptimization) : mapOptimization :=
  let t := transformTobeMapped s in
  let t :=
    if imuAvailable (cloudInfo s)
       && (fabs (imuPitchInit (cloudInfo s)) <? 1.4)%float
    then
      let '(rollMid, _, _) :=
        slerpRPY (v6_0 t, 0, 0)%float (imuRollInit (cloudInfo s), 0, 0)%float
                 imuRPYWeight in
      let t := v6_set 0 (Float32.of_double rollMid) t in
      let '(_, pitchMid, _) :=
        slerpRPY (0, v6_1 t, 0)%float (0, imuPitchInit (cloudInfo s), 0)%float
                 imuRPYWeight in
      v6_set 1 (Float32.of_double pitchMid) t
    else t in
  let t := v6_set 0 (constraintTransformation (v6_0 t) rotation_tollerance) t in
  let t := v6_set 1 (constraintTransformation (v6_1 t) rotation_tollerance) t in
  let t := v6_set 5 (constraintTransformation (v6_5 t) z_tollerance) t in
  let s := set_transformTobeMapped t s in
  set_incrementalOdometryAffineBack (trans2Affine3f t) s.

(** The body of [for (int iterCount = 0; iterCount < 30; iterCount++)] in
    [scan2MapOptimization], for the [n] iterations that remain. *)
Fixpoint scan2MapIterations (n : nat) (iterCount : Z) (s : mapOptimization)
  : mapOptimization :=
  match n with
  | O => s
  | S n' =>
      let '(ori, coeff) := optimizationCoeffs (scan s) (transformTobeMapped s) in
      let s := set_coeffSel coeff (set_laserCloudOri ori s) in
      let '(converged, s) := LMOptimization iterCount s in
      if converged then s else scan2MapIterations n' (iterCount + 1) s
  end.

(** [ROS_WARN] records the two counts it prints. *)
Definition scan2MapOptimization (s : mapOptimization) : mapOptimization :=
  match cloudKeyPoses3D s with
  | [] => s
  | _ :: _ =>
      if (laserCloudCornerLastDSNum s >? edgeFeatureMinValidNum)
         && (laserCloudSurfLastDSNum s >? surfFeatureMinValidNum)
      then transformUpdate (scan2MapIterations 30 0 s)
      else
        set_rosWarnings
          (rosWarnings s
           ++ [(laserCloudCornerLastDSNum s, laserCloudSurfLastDSNum s)]) s
  end.

(** ** Key-frame decision and odometry factors *)

(** The motion since the last key frame: [transStart.inverse() * transFinal]
    through [pcl::getTranslationAndEulerAngles], as [saveFrame] and
    [addDetectionFactor] compute it. *)
Definition transBetween (s : mapOptimization)
  : option (float * float * float * float * float * float) :=
  lastPose ← back (cloudKeyPoses6D s);
  let t := transformTobeMapped s in
  let transStart := pclPointToAffine3f lastPose in
  let transFinal :=
    getTransformation (v6_3 t) (v6_4 t) (v6_5 t) (v6_0 t) (v6_1 t) (v6_2 t) in
  Some (getTranslationAndEulerAngles
          (Affine3f_compose (Affine3f_inverse transStart) transFinal)).

(** [sqrt(x * x + y * y + z * z)] on three [float]: the products, the sums
    and the square root ([std::sqrt(float)]) are those of [float]. *)
Definition translationNorm (x y z : float) : float :=
  Float32.sqrt
    (Float32.add (Float32.add (Float32.mul x x) (Float32.mul y y))
                 (Float32.mul z z)).

(** The test of [saveFrame] that keeps a sweep from becoming a key frame;
    [x], [y], [z], [roll], [pitch] and [yaw] are [float]. *)
Definition belowThresholds
    (m : float * float * float * float * float * float) : bool :=
  let '(x, y, z, roll, pitch, yaw) := m in
  (fabs roll <? surroundingkeyframeAddingAngleThreshold)%float
  && (fabs pitch <? surroundingkeyframeAddingAngleThreshold)%float
  && (fabs yaw <? surroundingkeyframeAddingAngleThreshold)%float
  && (translationNorm x y z
      <? surroundingkeyframeAddingDistThreshold)%float.

Definition saveFrame (s : mapOptimization) : option bool :=
  match cloudKeyPoses3D s with
  | [] => Some true
  | _ :: _ =>
      m ← transBetween s;
      if belowThresholds m then Some false else Some true
  end.

Definition addOdomFactor (s : mapOptimization) : option mapOptimization :=
  match cloudKeyPoses3D s with
  | [] =>
      let currentKeyIndex := numberOfNodes s in
      let s := set_numberOfNodes (wrap64 (numberOfNodes s + 1)) s in
      let s := set_keyPoseIndices (keyPoseIndices s ++ [currentKeyIndex]) s in
      let priorNoise := Variances priorOdometryDiagonalVarianceEigenVector in
      let poseTo := trans2gtsamPose (transformTobeMapped s) in
      let s := set_gtSAMgraph
                 (gtSAMgraph s ++ [PriorFactor 0 poseTo priorNoise]) s in
      ie ← Values_insert currentKeyIndex poseTo (initialEstimate s);
      let s := set_initialEstimate ie s in
      ia ← Values_insert currentKeyIndex poseTo (initialEstimateForAnalysis s);
      Some (set_initialEstimateForAnalysis ia s)
  | _ :: _ =>
      previousKeyIndex ← back (keyPoseIndices s);
      let currentKeyIndex := numberOfNodes s in
      let s := set_numberOfNodes (wrap64 (numberOfNodes s + 1)) s in
      let s := set_keyPoseIndices (keyPoseIndices s ++ [currentKeyIndex]) s in
      let odometryNoise := Variances odometryDiagonalVarianceEigenVector in
      lastPose ← back (cloudKeyPoses6D s);
      let poseFrom := pclPointTogtsamPose3 lastPose in
      let poseTo := trans2gtsamPose (transformTobeMapped s) in
      let s := set_gtSAMgraph
                 (gtSAMgraph s
                  ++ [BetweenFactor previousKeyIndex currentKeyIndex
                        (Pose3_between poseFrom poseTo) odometryNoise]) s in
      ie ← Values_insert currentKeyIndex poseTo (initialEstimate s);
      let s := set_initialEstimate ie s in
      ia ← Values_insert currentKeyIndex poseTo (initialEstimateForAnalysis s);
      Some (set_initialEstimateForAnalysis ia s)
  end.

(** ** GPS and loop factors *)

(** [poseCovariance(i, i)] *)
Definition diagonalEntry (m : Matrix6) (i : nat) : option float :=
  row ← m !! i; Some (v6_get row i).

(** The [while (!gpsQueue.empty())] loop of [addGPSFactor], on the queue
    [q] that is left. The covariances and the position of the message are
    [double] and the variables that take them ([noise_x], [gps_x], ...) are
    [float]. *)
Fixpoint addGPSFactor_loop (q : list Odometry) (s : mapOptimization)
  : mapOptimization :=
  match q with
  | [] => set_gpsQueue [] s
  | thisGPS :: q' =>
      if (toSec (od_stamp thisGPS) <? timeLaserInfoCur s - 0.2)%float
      then addGPSFactor_loop q' s
      else if (timeLaserInfoCur s + 0.2 <? toSec (od_stamp thisGPS))%float
      then set_gpsQueue q s
      else
        let noise_x :=
          Float32.of_double (nth 0 (od_covariance thisGPS) 0%float) in
        let noise_y :=
          Float32.of_double (nth 7 (od_covariance thisGPS) 0%float) in
        let noise_z :=
          Float32.of_double (nth 14 (od_covariance thisGPS) 0%float) in
        if (gpsCovThreshold <? noise_x)%float
           || (gpsCovThreshold <? noise_y)%float
        then addGPSFactor_loop q' s
        else
          let gps_x := Float32.of_double (od_x thisGPS) in
          let gps_y := Float32.of_double (od_y thisGPS) in
          let gps_z :=
            if useGpsElevation then Float32.of_double (od_z thisGPS)
            else v6_5 (transformTobeMapped s) in
          let noise_z :=
            if useGpsElevation then noise_z
            else Float32.of_double 0.01%float in
          if (fabs gps_x <? 1e-6)%float && (fabs gps_y <? 1e-6)%float
          then addGPSFactor_loop q' s
          else
            let curGPSPoint := mkPointType gps_x gps_y gps_z 0 in
            if (pointDistance curGPSPoint (lastGPSPoint s) <? 5.0)%float
            then addGPSFactor_loop q' s
            else
              let s := set_lastGPSPoint curGPSPoint s in
              let gps_noise :=
                [fmax noise_x 1; fmax noise_y 1; fmax noise_z 1] in
              let gps_factor :=
                GPSFactor (Z.of_nat (length (cloudKeyPoses3D s)))
                          gps_x gps_y gps_z gps_noise in
              let s := set_gtSAMgraph (gtSAMgraph s ++ [gps_factor]) s in
              let s := set_aLoopIsClosed true s in
              set_gpsQueue q' s
  end.

Definition addGPSFactor (s : mapOptimization) : option mapOptimization :=
  match gpsQueue s with
  | [] => Some s
  | _ :: _ =>
      match cloudKeyPoses3D s with
      | [] => Some s
      | front :: _ =>
          last3D ← back (cloudKeyPoses3D s);
          if (pointDistance front last3D <? 5.0)%float then Some s
          else
            cxx ← diagonalEntry (poseCovariance s) 3;
            cyy ← diagonalEntry (poseCovariance s) 4;
            if (cxx <? poseCovThreshold)%float && (cyy <? poseCovThreshold)%float
            then Some s
            else Some (addGPSFactor_loop (gpsQueue s) s)
      end
  end.

(** The [for] loop of [addLoopFactor] from index [i]. *)
Fixpoint addLoopFactor_loop (qs : list (Z * Z)) (ps : list Pose3)
    (ns : list Noise) (g : NonlinearFactorGraph) : option NonlinearFactorGraph :=
  match qs, ps, ns with
  | [], _, _ => Some g
  | (indexFrom, indexTo) :: qs', poseBetween :: ps', noiseBetween :: ns' =>
      addLoopFactor_loop qs' ps' ns'
        (g ++ [BetweenFactor indexFrom indexTo poseBetween noiseBetween])
  | _, _, _ => None
  end.

Definition addLoopFactor (s : mapOptimization) : option mapOptimization :=
  match loopIndexQueue s with
  | [] => Some s
  | _ :: _ =>
      g ← addLoopFactor_loop (loopIndexQueue s) (loopPoseQueue s)
                             (loopNoiseQueue s) (gtSAMgraph s);
      let s := set_gtSAMgraph g s in
      let s := set_loopIndexQueue [] s in
      let s := set_loopPoseQueue [] s in
      let s := set_loopNoiseQueue [] s in
      Some (set_aLoopIsClosed true s)
  end.

(** ** The object tracker *)

(** A loop whose body may end the process. *)
Fixpoint forEach {A S : Type} (body : A -> S -> option S) (l : list A) (s : S)
  : option S :=
  match l with
  | [] => Some s
  | x :: r => s' ← body x s; forEach body r s'
  end.

(** [gtSAMgraph.add(f)] and [gtSAMgraphForLooselyCoupledObjects.add(f)] for
    a factor built for the object [owner]. *)
Definition gtSAMgraph_add (owner : Z) (f : Factor) (s : mapOptimization)
  : mapOptimization :=
  set_factorTrace (factorTrace s ++ [(owner, f)])
    (set_gtSAMgraph (gtSAMgraph s ++ [f]) s).

Definition gtSAMgraphForLooselyCoupledObjects_add (owner : Z) (f : Factor)
    (s : mapOptimization) : mapOptimization :=
  set_factorTrace (factorTrace s ++ [(owner, f)])
    (set_gtSAMgraphForLooselyCoupledObjects
       (gtSAMgraphForLooselyCoupledObjects s ++ [f]) s).

(** [markers[index].scale.x = markers[index].scale.y = ... = x] *)
Definition Marker_setScale (index : Z) (x : float) (markers : list Marker)
  : option (list Marker) :=
  if index <? 0 then None
  else
    m ← markers !! Z.to_nat index;
    Some (<[Z.to_nat index := mkMarker (mk_points m) x]> markers).

(** [markers[index].points.size()] *)
Definition Marker_pointsSize (index : Z) (markers : list Marker) : option Z :=
  if index <? 0 then None
  else m ← markers !! Z.to_nat index; Some (Z.of_nat (length (mk_points m))).

(** One turn of the loop of [propagateObjectPoses] over [objects.back()]. *)
Definition propagateObject (pairedObject : Z * ObjectState)
    (acc : mapOptimization * Epoch) : option (mapOptimization * Epoch) :=
  let '(s, nextObjects) := acc in
  let '(first, second) := pairedObject in
  if lostCount second >? trackingStepsForLostObject then Some (s, nextObjects)
  else
    let identity := Pose3_identity in
    let nextObject := clone second in
    let deltaPoseVec :=
      v6_scale (Pose3_Local identity (velocity nextObject)) (deltaTime s) in
    let deltaPose := Pose3_Retract identity deltaPoseVec in
    let nextObject :=
      set_pose (Pose3_compose (pose nextObject) deltaPose) nextObject in
    let nextObject := set_isFirst false nextObject in
    let nextObject := set_timestamp (timeLaserInfoStamp s) nextObject in
    if lostCount second =? 0 then
      let nextObject := set_poseNodeIndex (numberOfNodes s) nextObject in
      let s := set_numberOfNodes (wrap64 (numberOfNodes s + 1)) s in
      let nextObject := set_velocityNodeIndex (numberOfNodes s) nextObject in
      let s := set_numberOfNodes (wrap64 (numberOfNodes s + 1)) s in
      ie ← Values_insert (poseNodeIndex nextObject) (pose nextObject)
                         (initialEstimate s);
      ie ← Values_insert (velocityNodeIndex nextObject) (velocity nextObject) ie;
      let s := set_initialEstimate ie s in
      ia ← Values_insert (poseNodeIndex nextObject) (pose nextObject)
                         (initialEstimateForAnalysis s);
      ia ← Values_insert (velocityNodeIndex nextObject) (velocity nextObject) ia;
      let s := set_initialEstimateForAnalysis ia s in
      let nextObject :=
        set_previousVelocityNodeIndices
          (previousVelocityNodeIndices nextObject ++ [velocityNodeIndex second])
          nextObject in
      Some (s, Epoch_assign first nextObject nextObjects)
    else
      let nextObject := set_poseNodeIndex (wrap64 (-1)) nextObject in
      let nextObject := set_velocityNodeIndex (wrap64 (-1)) nextObject in
      Some (s, Epoch_assign first nextObject nextObjects).

(** [ENABLE_MINIMAL_MEMORY_USAGE] is not defined: no epoch is erased. *)
Definition propagateObjectPoses (s : mapOptimization) : option mapOptimization :=
  match back (objects s) with
  | None => Some (set_objects (objects s ++ [[]]) s)
  | Some lastObjects =>
      r ← forEach propagateObject lastObjects (s, []);
      let '(s, nextObjects) := (r : mapOptimization * Epoch) in
      Some (set_objects (objects s ++ [nextObjects]) s)
  end.

(** [objects.back() = e] *)
Definition set_back_objects (e : Epoch) (s : mapOptimization) : mapOptimization :=
  set_objects (removelast (objects s) ++ [e]) s.

(** [objects[objects.size() - 2][objectIndex]], with the insertion that
    [operator[]] makes in that epoch. *)
Definition previousObjectOf (objectIndex : Z) (s : mapOptimization)
  : option (ObjectState * mapOptimization) :=
  let n := length (objects s) in
  e ← objects s !! (n - 2)%nat;
  let '(previousObject, e') := Epoch_index objectIndex e in
  Some (previousObject, set_objects (<[(n - 2)%nat := e']> (objects s)) s).

Definition addConstantVelocityFactor_object (pairedObject : Z * ObjectState)
    (s : mapOptimization) : option mapOptimization :=
  let currentObject := snd pairedObject in
  if isFirst currentObject then Some s
  else if lostCount currentObject >? 0 then Some s
  else
    let noiseModel := Variances constantVelocityDiagonalVarianceEigenVector in
    let earlyNoiseModel :=
      Variances earlyConstantVelocityDiagonalVarianceEigenVector in
    let objectIndex := objectIndex currentObject in
    r ← previousObjectOf objectIndex s;
    let '(previousObject, s) := (r : ObjectState * mapOptimization) in
    let factor noise :=
      ConstantVelocityFactor (velocityNodeIndex previousObject)
                             (velocityNodeIndex currentObject) noise in
    if isTightlyCoupled currentObject then
      Some (gtSAMgraph_add objectIndex (factor noiseModel) s)
    else
      size ← Marker_pointsSize objectIndex (objectPaths s);
      if size <=? toUint64 numberOfEarlySteps then
        Some (gtSAMgraphForLooselyCoupledObjects_add objectIndex
                (factor earlyNoiseModel) s)
      else
        Some (gtSAMgraphForLooselyCoupledObjects_add objectIndex
                (factor noiseModel) s).

Definition addConstantVelocityFactor (s : mapOptimization)
  : option mapOptimization :=
  if (length (objects s) <? 2)%nat then Some s
  else
    current ← back (objects s);
    forEach addConstantVelocityFactor_object current s.

(** [ENABLE_COMPACT_VERSION_OF_FACTOR_GRAPH] is not defined: the factor
    takes the velocity node of the previous object. *)
Definition addStablePoseFactor_object (pairedObject : Z * ObjectState)
    (s : mapOptimization) : option mapOptimization :=
  let currentObject := snd pairedObject in
  if isFirst currentObject then Some s
  else if lostCount currentObject >? 0 then Some s
  else
    let noise := Variances motionDiagonalVarianceEigenVector in
    let objectIndex := objectIndex currentObject in
    r ← previousObjectOf objectIndex s;
    let '(previousObject, s) := (r : ObjectState * mapOptimization) in
    let factor :=
      StablePoseFactor (poseNodeIndex previousObject)
                       (velocityNodeIndex previousObject)
                       (poseNodeIndex currentObject) (deltaTime s) noise in
    let s :=
      if isTightlyCoupled currentObject
      then gtSAMgraph_add objectIndex factor s
      else gtSAMgraphForLooselyCoupledObjects_add objectIndex factor s in
    ia ← Values_insert (poseNodeIndex previousObject) (pose previousObject)
                       (initialEstimateForAnalysis s);
    ia ← Values_insert (velocityNodeIndex previousObject)
                       (velocity previousObject) ia;
    Some (set_initialEstimateForAnalysis ia s).

Definition addStablePoseFactor (s : mapOptimization) : option mapOptimization :=
  if (length (objects s) <? 2)%nat then Some s
  else
    current ← back (objects s);
    forEach addStablePoseFactor_object current s.

(** *** Data association *)

(** The locals of [addDetectionFactor]: the indicator matrix, by rows, and
    [trackingObjectIndices]. *)
Record Association := mkAssociation
  { indicator : list (list Z);
    trackingObjectIndices : list Z }.

(** [indicator(i, j) = 1] *)
Definition indicator_set (i j : nat) (m : list (list Z))
  : option (list (list Z)) :=
  row ← m !! i;
  if (j <? length row)%nat then Some (<[i := <[j := 1]> row]> m) else None.

(** [indicator.col(j).sum()] *)
Definition indicator_colSum (j : nat) (m : list (list Z)) : Z :=
  fold_left (fun acc row => acc + nth j row 0) m 0.

(** [v[j] = x] *)
Definition vector_set {A} (j : nat) (x : A) (l : list A) : option (list A) :=
  if (j <? length l)%nat then Some (<[j := x]> l) else None.

(** The vector of detections given to the first
    [getDetectionIndexAndError] of an object. *)
Inductive MatchingProfile :=
| EarlyLooselyCoupledMatching
| LooselyCoupledMatching.

Definition matchingVector (p : MatchingProfile) (s : mapOptimization)
  : list Detection :=
  match p with
  | EarlyLooselyCoupledMatching => earlyLooselyCoupledMatchingVector s
  | LooselyCoupledMatching => looselyCoupledMatchingVector s
  end.

(** The choice of the vector: [points.size()] is unsigned, so that the
    [int] [numberOfEarlySteps] is converted to [size_t] for the
    comparison. *)
Definition matchingProfile (object : ObjectState) (s : mapOptimization)
  : option MatchingProfile :=
  if trackScore object >=? numberOfPreLooseCouplingSteps
  then Some LooselyCoupledMatching
  else
    size ← Marker_pointsSize (objectIndex object) (objectPaths s);
    if size <=? toUint64 numberOfEarlySteps
    then Some EarlyLooselyCoupledMatching
    else Some LooselyCoupledMatching.

(** The four statements that move the initial values of an object from
    [initialEstimate] to [initialEstimateForLooselyCoupledObjects]. *)
Definition moveToLooselyCoupled (object : ObjectState) (s : mapOptimization)
  : option mapOptimization :=
  p ← Values_at (poseNodeIndex object) (initialEstimate s);
  il ← Values_insert (poseNodeIndex object) p
                     (initialEstimateForLooselyCoupledObjects s);
  v ← Values_at (velocityNodeIndex object) (initialEstimate s);
  il ← Values_insert (velocityNodeIndex object) v il;
  ie ← Values_erase (poseNodeIndex object) (initialEstimate s);
  ie ← Values_erase (velocityNodeIndex object) ie;
  Some (set_initialEstimate ie
          (set_initialEstimateForLooselyCoupledObjects il s)).

(** The branch taken when [trackScore] has reached
    [numberOfPreLooseCouplingSteps + 1] after a match. *)
Definition coupleObject (egoPoseKey : Z) (predictedPose : Pose3)
    (object : ObjectState) (s : mapOptimization)
  : option (ObjectState * mapOptimization) :=
  let '(j, detectionError) :=
    getDetectionIndexAndError predictedPose (tightlyCoupledMatchingVector s) in
  let spatialConsistencyTest :=
    (detectionError <=? tightCouplingDetectionErrorThreshold)%float in
  temporalConsistencyTest ←
    velocityIsConsistent object numberOfVelocityConsistencySteps
      (isamCurrentEstimate s)
      objectAngularVelocityConsistencyVarianceThreshold
      objectLinearVelocityConsistencyVarianceThreshold;
  if spatialConsistencyTest && temporalConsistencyTest then
    let s := set_numberOfTightlyCoupledObjectsAtThisMoment
               (numberOfTightlyCoupledObjectsAtThisMoment s + 1) s in
    let s := set_anyObjectIsTightlyCoupled true s in
    let object := set_isTightlyCoupled true object in
    let s := gtSAMgraph_add (objectIndex object)
               (TightlyCoupledDetectionFactor egoPoseKey (poseNodeIndex object)
                  (tightlyCoupledDetectionVector s) j) s in
    Some (object, s)
  else
    let object :=
      set_trackScore (trackScore object - numberOfInterLooseCouplingSteps)
                     object in
    let object := set_isTightlyCoupled false object in
    s' ← moveToLooselyCoupled object s;
    let s := (s' : mapOptimization) in
    let s := gtSAMgraphForLooselyCoupledObjects_add (objectIndex object)
               (LooselyCoupledDetectionFactor egoPoseKey (poseNodeIndex object)
                  (detectionVector s) j) s in
    Some (object, s).

(** One turn of the loop of [addDetectionFactor] over [objects.back()], for
    the object of row [i]. *)
Definition associateObject (egoPoseKey : Z) (invEgoPose : Pose3) (i : nat)
    (object : ObjectState) (s : mapOptimization) (a : Association)
  : option (ObjectState * mapOptimization * Association) :=
  let predictedPose := Pose3_compose invEgoPose (pose object) in
  profile ← matchingProfile object s;
  let '(j, error) :=
    getDetectionIndexAndError predictedPose (matchingVector profile s) in
  let '(dataAssociationJ, dataAssociationError) :=
    getDetectionIndexAndError predictedPose (dataAssociationVector s) in
  if (error <? detectionMatchThreshold)%float then
    if lostCount object >? 0 then
      t ← vector_set j (toInt (objectIndexForTracking object))
                     (trackingObjectIndices a);
      Some (set_lostCount INT_MAX object, s, mkAssociation (indicator a) t)
    else
      ind ← indicator_set i j (indicator a);
      let a := mkAssociation ind (trackingObjectIndices a) in
      let object := set_lostCount 0 object in
      let object :=
        if trackScore object <=? numberOfPreLooseCouplingSteps
        then set_trackScore (trackScore object + 1) object
        else object in
      d ← detections s !! j;
      let object := set_detection d object in
      if trackScore object >=? numberOfPreLooseCouplingSteps + 1 then
        r ← coupleObject egoPoseKey predictedPose object s;
        Some (r, a)
      else
        let object := set_isTightlyCoupled false object in
        s' ← moveToLooselyCoupled object s;
        let s := (s' : mapOptimization) in
        let s := gtSAMgraphForLooselyCoupledObjects_add (objectIndex object)
                   (LooselyCoupledDetectionFactor egoPoseKey
                      (poseNodeIndex object) (detectionVector s) j) s in
        Some (object, s, a)
  else
    let object := set_lostCount (lostCount object + 1) object in
    let object := set_confidence 0 object in
    let object := set_trackScore 0 object in
    markers ← Marker_setScale (objectIndex object) 0.3 (objectPaths s);
    let s := set_objectPaths markers s in
    if (dataAssociationError <? detectionMatchThreshold)%float then
      t ← vector_set dataAssociationJ (toInt (objectIndexForTracking object))
                     (trackingObjectIndices a);
      Some (set_lostCount INT_MAX object, s, mkAssociation (indicator a) t)
    else
      markers ← Marker_setScale (objectIndexForTracking object) 0.3
                                (trackingObjectPaths s);
      Some (object, set_trackingObjectPaths markers s, a).

Fixpoint associateObjects (egoPoseKey : Z) (invEgoPose : Pose3) (i : nat)
    (l : Epoch) (s : mapOptimization) (a : Association)
  : option (Epoch * mapOptimization * Association) :=
  match l with
  | [] => Some ([], s, a)
  | (k, object) :: r =>
      x ← associateObject egoPoseKey invEgoPose i object s a;
      let '(object, s, a) := (x : ObjectState * mapOptimization * Association) in
      y ← associateObjects egoPoseKey invEgoPose (S i) r s a;
      let '(r, s, a) := (y : Epoch * mapOptimization * Association) in
      Some ((k, object) :: r, s, a)
  end.

(** *** Birth *)

(** [numberOfNodes++] *)
Definition newNode (s : mapOptimization) : Z * mapOptimization :=
  (numberOfNodes s, set_numberOfNodes (wrap64 (numberOfNodes s + 1)) s).

(** The variances of the prior factor on the first velocity of an object. *)
Definition initialVelocityNoise : Noise :=
  [1e-2; 1e-2; 1e0; 1e8; 1e2; 1e2]%float.

(** One turn of the loop of [addDetectionFactor] over the detections, for
    the detection of column [idx]. *)
Definition registerObject (egoPoseKey : Z) (egoPose : Pose3) (a : Association)
    (idx : nat) (s : mapOptimization) : option mapOptimization :=
  if negb (indicator_colSum idx (indicator a) =? 0) then Some s
  else
    d ← detections s !! idx;
    dv ← detectionVector s !! idx;
    let '(poseNode, s) := newNode s in
    let '(velocityNode, s) := newNode s in
    let index := numberOfRegisteredObjects s in
    let s := set_numberOfRegisteredObjects (wrap64 (index + 1)) s in
    t ← trackingObjectIndices a !! idx;
    r ← (if t <? 0 then
           let trackingIndex := numberOfTrackingObjects s in
           let s := set_numberOfTrackingObjects (wrap64 (trackingIndex + 1)) s in
           Some (trackingIndex,
                 set_trackingObjectPaths
                   (trackingObjectPaths s ++ [mkMarker [] 0.6]) s)
         else
           markers ← Marker_setScale (toUint64 t) 0.6 (trackingObjectPaths s);
           Some (toUint64 t, set_trackingObjectPaths markers s));
    let '(trackingIndex, s) := (r : Z * mapOptimization) in
    let object :=
      mkObjectState (Pose3_compose egoPose (Detection_getPose dv))
        Pose3_identity poseNode velocityNode index trackingIndex 0 0
        (timeLaserInfoStamp s) (det_box dv) d 0 false true [] in
    current ← back (objects s);
    let s := set_back_objects (Epoch_assign index object current) s in
    let s := set_objectPaths (objectPaths s ++ [mkMarker [] 0.6]) s in
    il ← Values_insert poseNode (pose object)
                       (initialEstimateForLooselyCoupledObjects s);
    il ← Values_insert velocityNode (velocity object) il;
    let s := set_initialEstimateForLooselyCoupledObjects il s in
    ia ← Values_insert poseNode (pose object) (initialEstimateForAnalysis s);
    ia ← Values_insert velocityNode (velocity object) ia;
    let s := set_initialEstimateForAnalysis ia s in
    let s := gtSAMgraphForLooselyCoupledObjects_add index
               (LooselyCoupledDetectionFactor egoPoseKey poseNode
                  (detectionVector s) idx) s in
    Some (gtSAMgraphForLooselyCoupledObjects_add index
            (PriorFactor velocityNode (velocity object) initialVelocityNoise) s).

(** *** [addDetectionFactor] *)

(** The branch without detections: every object of the epoch is lost. *)
Fixpoint loseObjects (l : Epoch) (s : mapOptimization)
  : option (Epoch * mapOptimization) :=
  match l with
  | [] => Some ([], s)
  | (k, object) :: r =>
      let object := set_lostCount (lostCount object + 1) object in
      let object := set_confidence 0 object in
      markers ← Marker_setScale (objectIndex object) 0.3 (objectPaths s);
      y ← loseObjects r (set_objectPaths markers s);
      let '(r, s) := (y : Epoch * mapOptimization) in
      Some ((k, object) :: r, s)
  end.

(** The box of a detection moved by [smallEgoMotion]. *)
Definition mockDetection (smallEgoMotion : Pose3) (b : BoundingBox)
  : BoundingBox :=
  let pose :=
    Pose3_Quaternion (bb_qw b) (bb_qx b) (bb_qy b) (bb_qz b)
                     (bb_x b) (bb_y b) (bb_z b) in
  let pose := Pose3_compose smallEgoMotion pose in
  let '(w, x, y, z) := Pose3_toQuaternion pose in
  let pos := Pose3_rpyxyz pose in
  mkBoundingBox (v6_3 pos) (v6_4 pos) (v6_5 pos) w x y z
                (bb_dx b) (bb_dy b) (bb_dz b) (bb_value b) (bb_label b).

Definition smallEgoMotionOf (requiredMockDetection : bool)
    (s : mapOptimization) : option Pose3 :=
  if requiredMockDetection then
    m ← transBetween s;
    let '(x, y, z, roll, pitch, yaw) :=
      (m : float * float * float * float * float * float) in
    Some (Pose3_RzRyRx roll pitch yaw x y z)
  else Some (Pose3_RzRyRx 0 0 0 0 0 0).

(** The six vectors of [Detection] built from [detections->boxes]. *)
Definition buildDetectionVectors (boxes : list BoundingBox)
    (s : mapOptimization) : mapOptimization :=
  let mk variances := map (fun b => mkDetection b variances) boxes in
  let s := set_detectionVector
             (mk looselyCoupledDetectionVarianceEigenVector) s in
  let s := set_tightlyCoupledDetectionVector
             (mk tightlyCoupledDetectionVarianceEigenVector) s in
  let s := set_earlyLooselyCoupledMatchingVector
             (mk earlyLooselyCoupledMatchingVarianceEigenVector) s in
  let s := set_looselyCoupledMatchingVector
             (mk looselyCoupledMatchingVarianceEigenVector) s in
  let s := set_tightlyCoupledMatchingVector
             (mk tightlyCoupledMatchingVarianceEigenVector) s in
  set_dataAssociationVector (mk dataAssociationVarianceEigenVector) s.

Definition addDetectionFactor (requiredMockDetection : bool)
    (s : mapOptimization) : option mapOptimization :=
  let s := set_anyObjectIsTightlyCoupled false s in
  match detections s, objects s with
  | [], [] => Some s
  | [], _ :: _ =>
      current ← back (objects s);
      y ← loseObjects current s;
      let '(current, s) := (y : Epoch * mapOptimization) in
      Some (set_back_objects current s)
  | _ :: _, _ =>
      current ← back (objects s);
      let columns := length (detections s) in
      let a :=
        mkAssociation (repeat (repeat 0 columns) (length current + 1))
                      (repeat (-1) columns) in
      smallEgoMotion ← smallEgoMotionOf requiredMockDetection s;
      let boxes :=
        if requiredMockDetection
        then map (mockDetection smallEgoMotion) (detections s)
        else detections s in
      let s := buildDetectionVectors boxes s in
      egoPoseKey ← back (keyPoseIndices s);
      egoPose ← Values_at egoPoseKey (initialEstimate s);
      let invEgoPose := Pose3_inverse egoPose in
      y ← associateObjects egoPoseKey invEgoPose 0 current s a;
      let '(current, s, a) :=
        (y : Epoch * mapOptimization * Association) in
      let s := set_back_objects current s in
      forEach (registerObject egoPoseKey egoPose a)
              (seq 0 (length (detectionVector s))) s
  end.

(** ** The solver driver *)

(** The element that [updatePath] appends to [globalPath]. *)
Definition poseStampedOf (pose_in : PointTypePose) : PoseStamped :=
  mkPoseStamped (pp_time pose_in) (pp_x pose_in) (pp_y pose_in) (pp_z pose_in)
                (pp_roll pose_in) (pp_pitch pose_in) (pp_yaw pose_in).

Definition updatePath (pose_in : PointTypePose) (s : mapOptimization)
  : mapOptimization :=
  set_globalPath (globalPath s ++ [poseStampedOf pose_in]) s.

(** The branch of [saveKeyFramesAndFactor] for a sweep that is not a key
    frame ([ENABLE_ASYNCHRONOUS_STATE_ESTIMATE_FOR_SLOT] is defined). *)
Definition insertLatestEgoPose (s : mapOptimization) : option mapOptimization :=
  egoPose6D ← back (cloudKeyPoses6D s);
  let latestEgoPose := pclPointTogtsamPose3 egoPose6D in
  k ← back (keyPoseIndices s);
  ie ← Values_insert k latestEgoPose (initialEstimate s);
  ia ← Values_insert k latestEgoPose (initialEstimateForAnalysis s);
  Some (set_initialEstimateForAnalysis ia (set_initialEstimate ie s)).

Definition eraseLatestEgoPose (s : mapOptimization) : option mapOptimization :=
  k ← back (keyPoseIndices s);
  ie ← Values_erase k (initialEstimate s);
  ia ← Values_erase k (initialEstimateForAnalysis s);
  Some (set_initialEstimateForAnalysis ia (set_initialEstimate ie s)).

(** "update iSAM": the calls made to the solver and the buffers cleared. *)
Definition updateISAM (s : mapOptimization) : mapOptimization :=
  let s := set_isam
             (isam s ++ [UpdateWith (gtSAMgraph s) (initialEstimate s); Update])
             s in
  let s :=
    if aLoopIsClosed s
    then set_isam (isam s ++ [Update; Update; Update; Update; Update]) s
    else s in
  let s := set_gtSAMgraph [] s in
  let s := set_initialEstimate ∅ s in
  let s := set_initialEstimateForAnalysis ∅ s in
  let s :=
    match gtSAMgraphForLooselyCoupledObjects s with
    | [] => s
    | _ :: _ =>
        set_isam
          (isam s
           ++ [UpdateWith (gtSAMgraphForLooselyCoupledObjects s)
                          (initialEstimateForLooselyCoupledObjects s);
               Update]) s
    end in
  let s := set_gtSAMgraphForLooselyCoupledObjects [] s in
  let s := set_initialEstimateForLooselyCoupledObjects ∅ s in
  set_isamCurrentEstimate (calculateEstimate (isam s)) s.

(** "save key poses": the fields of [PointType] and [PointTypePose] other
    than [time], and [transformTobeMapped], are [float], so that the
    coordinates of the estimate and the size of the store are converted. *)
Definition saveKeyPose (s : mapOptimization) : option mapOptimization :=
  k ← back (keyPoseIndices s);
  latestEstimate ← Values_at k (isamCurrentEstimate s);
  let e := v6_map Float32.of_double (Pose3_rpyxyz latestEstimate) in
  let intensity :=
    Float32.of_double (Z2float (Z.of_nat (length (cloudKeyPoses3D s)))) in
  let thisPose3D := mkPointType (v6_3 e) (v6_4 e) (v6_5 e) intensity in
  let s := set_cloudKeyPoses3D (cloudKeyPoses3D s ++ [thisPose3D]) s in
  let thisPose6D :=
    mkPointTypePose (v6_3 e) (v6_4 e) (v6_5 e) intensity
                    (v6_0 e) (v6_1 e) (v6_2 e) (timeLaserInfoCur s) in
  let s := set_cloudKeyPoses6D (cloudKeyPoses6D s ++ [thisPose6D]) s in
  let s := set_poseCovariance (marginalCovariance (isam s) k) s in
  let s := set_transformTobeMapped e s in
  Some (updatePath thisPose6D s).

(** "save dynamic objects": the estimates read back into the objects that
    are not lost. *)
Definition readBackObject (estimate : Values) (pairedObject : Z * ObjectState)
  : option (Z * ObjectState) :=
  let '(k, object) := pairedObject in
  if lostCount object >? 0 then Some (k, object)
  else
    p ← Values_at (poseNodeIndex object) estimate;
    let object := set_pose p object in
    v ← Values_at (velocityNodeIndex object) estimate;
    let object := set_velocity v object in
    let e := Pose3_rpyxyz p in
    let '(w, x, y, z) := Pose3_toQuaternion p in
    let b := box object in
    let b :=
      mkBoundingBox (v6_3 e) (v6_4 e) (v6_5 e) w x y z
                    (bb_dx b) (bb_dy b) (bb_dz b) (bb_value b)
                    (objectIndex object) in
    Some (k, set_box b object).

Definition saveObjects (s : mapOptimization) : option mapOptimization :=
  match back (objects s) with
  | None => Some s
  | Some current =>
      current ← mapM (readBackObject (isamCurrentEstimate s)) current;
      Some (set_back_objects current s)
  end.

(** The three calls of [saveKeyFramesAndFactor] for a key frame. *)
Definition addKeyFrameFactors (s : mapOptimization) : option mapOptimization :=
  s1 ← addOdomFactor s;
  s2 ← addGPSFactor s1;
  addLoopFactor s2.

(** [saveKeyFramesAndFactor] after [bool requiredSaveFrame = saveFrame()]. *)
Definition saveKeyFramesAndFactor_from (requiredSaveFrame : bool)
    (s : mapOptimization) : option mapOptimization :=
  s1 ← (if requiredSaveFrame then addKeyFrameFactors s
        else insertLatestEgoPose s);
  s2 ← propagateObjectPoses s1;
  s3 ← addDetectionFactor (negb requiredSaveFrame) s2;
  s4 ← addConstantVelocityFactor s3;
  s5 ← addStablePoseFactor s4;
  s6 ← (if requiredSaveFrame then Some s5 else eraseLatestEgoPose s5);
  let s7 := updateISAM s6 in
  s8 ← (if requiredSaveFrame then saveKeyPose s7 else Some s7);
  saveObjects s8.

Definition saveKeyFramesAndFactor (s : mapOptimization)
  : option mapOptimization :=
  requiredSaveFrame ← saveFrame s;
  saveKeyFramesAndFactor_from requiredSaveFrame s.

(** ** Pose correction *)

(** The stored pose of a key frame after its rewriting from the estimate
    [e] of its node (roll, pitch, yaw, x, y, z): the coordinates are those
    of the estimate converted to [float], the type of the fields; the
    intensity and the time are kept. *)
Definition correctedPose3D (e : Vector6) (p3 : PointType) : PointType :=
  mkPointType (Float32.of_double (v6_3 e)) (Float32.of_double (v6_4 e))
              (Float32.of_double (v6_5 e)) (pt_intensity p3).

Definition correctedPose6D (e : Vector6) (p6 : PointTypePose) : PointTypePose :=
  mkPointTypePose (Float32.of_double (v6_3 e)) (Float32.of_double (v6_4 e))
                  (Float32.of_double (v6_5 e)) (pp_intensity p6)
                  (Float32.of_double (v6_0 e)) (Float32.of_double (v6_1 e))
                  (Float32.of_double (v6_2 e)) (pp_time p6).

(** The loop of [correctPoses] over [keyPoseIndices] from position [i]. *)
Fixpoint correctPoses_loop (indices : list Z) (i : nat) (s : mapOptimization)
  : option mapOptimization :=
  match indices with
  | [] => Some s
  | poseIndex :: rest =>
      estimate ← Values_at poseIndex (isamCurrentEstimate s);
      let e := Pose3_rpyxyz estimate in
      p3 ← cloudKeyPoses3D s !! i;
      let s := set_cloudKeyPoses3D
                 (<[i := correctedPose3D e p3]> (cloudKeyPoses3D s)) s in
      p6 ← cloudKeyPoses6D s !! i;
      let p6 := correctedPose6D e p6 in
      let s := set_cloudKeyPoses6D (<[i := p6]> (cloudKeyPoses6D s)) s in
      correctPoses_loop rest (S i) (updatePath p6 s)
  end.

Definition correctPoses (s : mapOptimization) : option mapOptimization :=
  match cloudKeyPoses3D s with
  | [] => Some s
  | _ :: _ =>
      if aLoopIsClosed s || anyObjectIsTightlyCoupled s then
        let s := set_laserCloudMapContainer ∅ s in
        let s := set_globalPath [] s in
        s' ← correctPoses_loop (keyPoseIndices s) 0 s;
        Some (set_aLoopIsClosed false s')
      else Some s
  end.

(** ** Publication *)

Definition zeroCovariance : list float := repeat 0%float 36.

(** [publishOdometry]: the global odometry message and the transform it
    broadcasts are built from [transformTobeMapped] and sent; the message
    kept and sent on the incremental topic is [laserOdomIncremental]. *)
Definition publishOdometry (s : mapOptimization) : mapOptimization :=
  let t := transformTobeMapped s in
  let laserOdometryROS :=
    mkOdometry (timeLaserInfoStamp s) (v6_3 t) (v6_4 t) (v6_5 t)
               (v6_0 t) (v6_1 t) (v6_2 t) zeroCovariance in
  let s :=
    if negb (lastIncreOdomPubFlag s) then
      let s := set_lastIncreOdomPubFlag true s in
      let s := set_laserOdomIncremental laserOdometryROS s in
      set_increOdomAffine (trans2Affine3f t) s
    else
      let affineIncre :=
        Affine3f_compose
          (Affine3f_inverse (incrementalOdometryAffineFront s))
          (incrementalOdometryAffineBack s) in
      let s := set_increOdomAffine
                 (Affine3f_compose (increOdomAffine s) affineIncre) s in
      let '(x, y, z, roll, pitch, yaw) :=
        getTranslationAndEulerAngles (increOdomAffine s) in
      let '(roll, pitch) :=
        if imuAvailable (cloudInfo s)
           && (fabs (imuPitchInit (cloudInfo s)) <? 1.4)%float
        then
          let '(rollMid, _, _) :=
            slerpRPY (roll, 0, 0)%float (imuRollInit (cloudInfo s), 0, 0)%float
                     0.1%float in
          let '(_, pitchMid, _) :=
            slerpRPY (0, pitch, 0)%float
                     (0, imuPitchInit (cloudInfo s), 0)%float 0.1%float in
          (Float32.of_double rollMid, Float32.of_double pitchMid)
        else (roll, pitch) in
      let covariance := od_covariance (laserOdomIncremental s) in
      let covariance :=
        if isDegenerate s then <[0%nat := 1%float]> covariance
        else <[0%nat := 0%float]> covariance in
      set_laserOdomIncremental
        (mkOdometry (timeLaserInfoStamp s) x y z roll pitch yaw covariance) s in
  set_pubLaserOdometryIncremental
    (pubLaserOdometryIncremental s ++ [laserOdomIncremental s]) s.

(** [markers[index].points.push_back(point)] *)
Definition Marker_pushPoint (index : Z) (point : float * float * float)
    (markers : list Marker) : option (list Marker) :=
  if index <? 0 then None
  else
    m ← markers !! Z.to_nat index;
    Some (<[Z.to_nat index := mkMarker (mk_points m ++ [point]) (mk_scale m)]>
            markers).

(** The part of [publishFrames] that writes to the members kept here: the
    paths of the objects that are not lost, and the paths hidden. *)
Definition publishObject (pairedObject : Z * ObjectState)
    (s : mapOptimization) : option mapOptimization :=
  let object := snd pairedObject in
  if lostCount object =? 0 then
    let point := (bb_x (box object), bb_y (box object), bb_z (box object)) in
    if numberOfTrackingObjects s <=? objectIndexForTracking object then None
    else
      m ← Marker_pushPoint (objectIndex object) point (objectPaths s);
      let s := set_objectPaths m s in
      m ← Marker_pushPoint (objectIndexForTracking object) point
                           (trackingObjectPaths s);
      Some (set_trackingObjectPaths m s)
  else Some s.

Definition trackingObjectIsActive (current : Epoch) (index : Z) : bool :=
  existsb (fun p => (lostCount (snd p) =? 0)
                    && (objectIndexForTracking (snd p) =? index)) current.

Definition hideObject (current : Epoch) (pairedObject : Z * ObjectState)
    (s : mapOptimization) : option mapOptimization :=
  let object := snd pairedObject in
  let index := objectIndexForTracking object in
  if numberOfTrackingObjects s <=? index then None
  else if negb (trackingObjectIsActive current index)
          && negb (lostCount object =? 0) then
    size ← Marker_pointsSize index (trackingObjectPaths s);
    if size <=? 1 then
      m ← trackingObjectPaths s !! Z.to_nat index;
      Some (set_trackingObjectPaths
              (<[Z.to_nat index := mkMarker [] (mk_scale m)]>
                 (trackingObjectPaths s)) s)
    else Some s
  else Some s.

Definition publishFrames (s : mapOptimization) : option mapOptimization :=
  match cloudKeyPoses3D s with
  | [] => Some s
  | _ :: _ =>
      if detectionIsActive s then
        current ← back (objects s);
        s' ← forEach publishObject current s;
        forEach (hideObject current) current s'
      else Some s
  end.

(** ** The callbacks *)

(** [getDetections]: [reply] is the response of the detection service, or
    [None] when [detectionClient.call] fails. *)
Definition getDetections (reply : option (list BoundingBox))
    (s : mapOptimization) : mapOptimization :=
  let s := set_detectionIsActive false s in
  match reply with
  | Some boxes => set_detectionIsActive true (set_detections boxes s)
  | None => s
  end.

Definition gpsHandler (gpsMsg : Odometry) (s : mapOptimization)
  : mapOptimization :=
  set_gpsQueue (gpsQueue s ++ [gpsMsg]) s.

(** A sweep: the message, the reply of the detector, and the results of
    the three steps that come before scan matching and are not modelled
    ([updateInitialGuess], [extractSurroundingKeyFrames],
    [downsampleCurrentScan]). *)
Record Sweep := mkSweep
  { sw_stamp : Time;
    sw_cloudInfo : cloud_info;
    sw_reply : option (list BoundingBox);
    sw_initialGuess : Vector6;
    sw_mapContainer : gmap Z (list PointType * list PointType);
    sw_cornerLastDSNum : Z;
    sw_surfLastDSNum : Z;
    sw_scan : Scan }.

(** The assignments of [laserCloudInfoHandler] before the test of
    [mappingProcessInterval]. *)
Definition receiveSweep (msgIn : Sweep) (s : mapOptimization)
  : mapOptimization :=
  let s := set_timeLaserInfoStamp (sw_stamp msgIn) s in
  let s := set_timeLaserInfoCur (toSec (sw_stamp msgIn)) s in
  let s := set_cloudInfo (sw_cloudInfo msgIn) s in
  set_numberOfTightlyCoupledObjectsAtThisMoment 0 s.

(** The statements of [laserCloudInfoHandler] from the start of the thread
    of [getDetections] to [scan2MapOptimization]. That thread writes members
    that scan matching does not touch and is joined before
    [saveKeyFramesAndFactor]: it is run first. *)
Definition prepareSweep (msgIn : Sweep) (s : mapOptimization)
  : mapOptimization :=
  let s := getDetections (sw_reply msgIn) s in
  let s := set_deltaTime (timeLaserInfoCur s - timeLastProcessing s)%float s in
  let s := set_timeLastProcessing (timeLaserInfoCur s) s in
  let s := set_incrementalOdometryAffineFront
             (trans2Affine3f (transformTobeMapped s)) s in
  let s := set_transformTobeMapped (sw_initialGuess msgIn) s in
  let s := set_laserCloudMapContainer (sw_mapContainer msgIn) s in
  let s := set_laserCloudCornerLastDSNum (sw_cornerLastDSNum msgIn) s in
  let s := set_laserCloudSurfLastDSNum (sw_surfLastDSNum msgIn) s in
  set_scan (sw_scan msgIn) s.

(** [laserCloudInfoHandler] *)
Definition laserCloudInfoHandler (msgIn : Sweep) (s : mapOptimization)
  : option mapOptimization :=
  let s := receiveSweep msgIn s in
  if (mappingProcessInterval
      <=? timeLaserInfoCur s - timeLastProcessing s)%float
  then
    let s := prepareSweep msgIn s in
    let s := scan2MapOptimization s in
    s1 ← saveKeyFramesAndFactor s;
    s2 ← correctPoses s1;
    publishFrames (publishOdometry s2)
  else Some s.

(** The node after its constructor. The three [Eigen::Affine3f] members are
    not initialised there; they are taken at the null transform. *)
Definition initialState : mapOptimization :=
  let nullAffine := trans2Affine3f v6_zero in
  mkMapOptimization
    (mkEstimator [] [] ∅ ∅ ∅ [] ∅ [] 0)
    (mkKeyFrames [] [] [] [] ∅)
    (mkMatcher v6_zero false (repeat v6_zero 6) [] [] 0 0
               nullAffine nullAffine emptyScan)
    (mkClock (mkCloudInfo false false 0 0 0) 0 0 0 (-1))
    (mkClosures false [] [] [] [] (mkPointType 0 0 0 0))
    (mkTracker [] false [] [] [] [] [] [] [] [] [] 0 0 false 0)
    (mkOutputs false (mkOdometry 0 0 0 0 0 0 0 zeroCovariance) nullAffine
               [] [] []).

(** ** Runs of the node

    The node is driven by its callbacks, which the mutex [mtx] keeps from
    interleaving: a sweep, a GPS message, or the three [push_back] that
    [performLoopClosure] makes under the mutex. *)

Definition performLoopClosure_push (loopKeyCur loopKeyPre : Z)
    (poseBetween : Pose3) (constraintNoise : Noise) (s : mapOptimization)
  : mapOptimization :=
  let s := set_loopIndexQueue
             (loopIndexQueue s ++ [(loopKeyCur, loopKeyPre)]) s in
  let s := set_loopPoseQueue (loopPoseQueue s ++ [poseBetween]) s in
  set_loopNoiseQueue (loopNoiseQueue s ++ [constraintNoise]) s.

(** One callback; [allowed] restricts the sweeps considered. *)
Inductive step (allowed : Sweep -> mapOptimization -> Prop)
  : mapOptimization -> mapOptimization -> Prop :=
| step_sweep (msgIn : Sweep) (s s' : mapOptimization) :
    allowed msgIn s ->
    laserCloudInfoHandler msgIn s = Some s' ->
    step allowed s s'
| step_gps (gpsMsg : Odometry) (s : mapOptimization) :
    step allowed s (gpsHandler gpsMsg s)
| step_loop (loopKeyCur loopKeyPre : Z) (poseBetween : Pose3)
    (constraintNoise : Noise) (s : mapOptimization) :
    step allowed s
      (performLoopClosure_push loopKeyCur loopKeyPre poseBetween
                               constraintNoise s).

Definition anySweep (msgIn : Sweep) (s : mapOptimization) : Prop := True.

(** The sweep does not take [numberOfRegisteredObjects] past [2^64]: at
    most one object is registered for each box held after
    [getDetections]. *)
Definition withoutWrap (msgIn : Sweep) (s : mapOptimization) : Prop :=
  numberOfRegisteredObjects s
  + Z.of_nat (length (detections (getDetections (sw_reply msgIn) s)))
  < 2 ^ 64.

(** The states that the node can be in after its constructor. *)
Definition reachable (allowed : Sweep -> mapOptimization -> Prop)
    (s : mapOptimization) : Prop :=
  rtc (step allowed) initialState s.

(** ** Vocabulary of the properties *)

(** The four tracker functions write to the graphs, to the buffers of
    initial values, to the counters and to the tracks; the key frames, the
    matcher, the clock, the queues and the solver are as before. *)

Definition untouched (s s' : mapOptimization) : Prop :=
  keyFrames s' = keyFrames s /\ matcher s' = matcher s
  /\ clock s' = clock s /\ closures s' = closures s
  /\ isam s' = isam s /\ isamCurrentEstimate s' = isamCurrentEstimate s.


(** The variances with which the detections of a profile are built. *)
Definition matchingVariances (p : MatchingProfile) : Vector6 :=
  match p with
  | EarlyLooselyCoupledMatching =>
      earlyLooselyCoupledMatchingVarianceEigenVector
  | LooselyCoupledMatching => looselyCoupledMatchingVarianceEigenVector
  end.


(** A track after a propagation or a read-back: the same identity, score
    and lost count. *)
Definition sameTrack (o o' : ObjectState) : Prop :=
  objectIndex o' = objectIndex o /\ trackScore o' = trackScore o
  /\ lostCount o' = lostCount o.

(** [trackScore] after the statement that increments it on a match. *)
Definition matchedScore (o : ObjectState) : Z :=
  if trackScore o <=? numberOfPreLooseCouplingSteps then trackScore o + 1
  else trackScore o.

(** A track after its turn in data association: the identity is kept, and
    the score is kept, reset, incremented, or incremented and demoted. *)
Definition associated (o o' : ObjectState) : Prop :=
  objectIndex o' = objectIndex o
  /\ (trackScore o' = trackScore o
      \/ trackScore o' = 0
      \/ trackScore o' = matchedScore o
      \/ (numberOfPreLooseCouplingSteps + 1 <= matchedScore o
          /\ trackScore o'
            = matchedScore o - numberOfInterLooseCouplingSteps)).

(** The entries of an epoch one by one, with their keys kept. *)
Definition tracks (R : ObjectState -> ObjectState -> Prop) (e e' : Epoch)
  : Prop :=
  Forall2 (fun p p' => p'.1 = p.1 /\ R p.2 p'.2) e e'.

(** The factors added from [s] to [s'] are for objects that satisfy [L]. *)
Definition tracedFor (L : Z -> Prop) (s s' : mapOptimization) : Prop :=
  exists added : list (Z * Factor),
    factorTrace s' = factorTrace s ++ added /\ Forall (fun e => L e.1) added.

(** What data association and the emission of motion factors keep. *)
Definition sameRegistry (s s' : mapOptimization) : Prop :=
  numberOfRegisteredObjects s' = numberOfRegisteredObjects s
  /\ detections s' = detections s
  /\ detectionVector s' = detectionVector s.


(** The keys of a [std::map] are in increasing order. *)
Definition keysSorted (e : Epoch) : Prop := StronglySorted Z.lt (keys e).

(** An object as [addDetectionFactor] registers it. *)
Definition newborn (o : ObjectState) : Prop :=
  trackScore o = 0 /\ lostCount o = 0.

(** What [addConstantVelocityFactor] and [addStablePoseFactor] may do to
    the tracks: [operator[]] may insert a default object under a key of [L]
    in an epoch before the last, and the factors added are for objects of
    [L]. *)
Definition motion (L : Z -> Prop) (s s' : mapOptimization) : Prop :=
  numberOfRegisteredObjects s' = numberOfRegisteredObjects s
  /\ length (objects s') = length (objects s)
  /\ back (objects s') = back (objects s)
  /\ (forall (i : nat) (e' : Epoch),
        objects s' !! i = Some e' ->
        exists e : Epoch,
          objects s !! i = Some e
          /\ forall p' : Z * ObjectState, p' ∈ e' -> p' ∈ e \/ L p'.1)
  /\ tracedFor L s s'.

(** The owners of the factors of [addConstantVelocityFactor] and
    [addStablePoseFactor]: the objects of the last epoch that are not
    lost. *)
Definition tracked (s : mapOptimization) (z : Z) : Prop :=
  exists (current : Epoch) (p : Z * ObjectState),
    back (objects s) = Some current /\ p ∈ current
    /\ z = objectIndex p.2 /\ lostCount p.2 <= 0.


(** The epochs, the counter of the objects and the owners of the factors
    are as before. *)
Definition sameTracks (s s' : mapOptimization) : Prop :=
  objects s' = objects s
  /\ numberOfRegisteredObjects s' = numberOfRegisteredObjects s
  /\ factorTrace s' = factorTrace s.


(** The bounds of [trackScore] in the last epoch. *)
Definition scoresBounded (s : mapOptimization) : Prop :=
  forall (current : Epoch) (p : Z * ObjectState),
    back (objects s) = Some current -> p ∈ current ->
    0 <= trackScore p.2 <= numberOfPreLooseCouplingSteps + 1.

(** The objects of the last epoch are stored under their [objectIndex],
    which is below [numberOfRegisteredObjects]. *)
Definition registered (s : mapOptimization) : Prop :=
  0 <= numberOfRegisteredObjects s
  /\ forall current : Epoch,
      back (objects s) = Some current ->
      keysSorted current
      /\ forall p : Z * ObjectState,
          p ∈ current ->
          objectIndex p.2 = p.1 /\ 0 <= p.1 < numberOfRegisteredObjects s.

(** The object [k], if it is in the last epoch, has been lost for more
    than [trackingStepsForLostObject] steps. *)
Definition retired (k : Z) (s : mapOptimization) : Prop :=
  forall (current : Epoch) (p : Z * ObjectState),
    back (objects s) = Some current -> p ∈ current -> p.1 = k ->
    trackingStepsForLostObject < lostCount p.2.

(** The object [k] is not in the last epoch. *)
Definition dropped (k : Z) (s : mapOptimization) : Prop :=
  forall (current : Epoch) (p : Z * ObjectState),
    back (objects s) = Some current -> p ∈ current -> p.1 <> k.

(** The object [k] is in no epoch from the [n0]-th on, and owns no factor
    from the [m0]-th on. *)
Definition absentFrom (k : Z) (n0 m0 : nat) (s : mapOptimization) : Prop :=
  (forall (i : nat) (e : Epoch) (p : Z * ObjectState),
      (n0 <= i)%nat -> objects s !! i = Some e -> p ∈ e -> p.1 <> k)
  /\ (forall p : Z * Factor, p ∈ drop m0 (factorTrace s) -> p.1 <> k).

(** What holds of a retired object between two callbacks, and after
    [propagateObjectPoses] within a sweep. *)
Definition retiredBetween (k : Z) (n0 m0 : nat) (s : mapOptimization)
  : Prop :=
  registered s /\ k < numberOfRegisteredObjects s /\ retired k s
  /\ absentFrom k n0 m0 s.

Definition droppedWithin (k : Z) (n0 m0 : nat) (s : mapOptimization)
  : Prop :=
  registered s /\ k < numberOfRegisteredObjects s /\ dropped k s
  /\ absentFrom k n0 m0 s.


(** [withoutWrap], decided. *)
Definition withoutWrapb (msgIn : Sweep) (s : mapOptimization) : bool :=
  numberOfRegisteredObjects s
  + Z.of_nat (length (detections (getDetections (sw_reply msgIn) s)))
  <? 2 ^ 64.

(** A sweep of a run in which the counter of the objects does not wrap. *)
Definition sweepWithoutWrap (msgIn : Sweep) (s : mapOptimization)
  : option mapOptimization :=
  if withoutWrapb msgIn s then laserCloudInfoHandler msgIn s else None.


(** The three stores of the key frames have one entry per key frame. *)
Definition alignedKeyFrames (s : mapOptimization) : Prop :=
  length (keyPoseIndices s) = length (cloudKeyPoses6D s)
  /\ length (cloudKeyPoses3D s) = length (cloudKeyPoses6D s).

(** The two graphs and the three buffers of initial values hold nothing. *)
Definition buffersEmpty (s : mapOptimization) : Prop :=
  gtSAMgraph s = [] /\ gtSAMgraphForLooselyCoupledObjects s = []
  /\ initialEstimate s = ∅
  /\ initialEstimateForLooselyCoupledObjects s = ∅
  /\ initialEstimateForAnalysis s = ∅.


(** ** Loop closure detection

    The thread of [performLoopClosure] works on copies of the key-frame
    stores. [loopInfoVec] holds the [data] of the messages of the external
    detector and [loopIndexContainer] the loops found;
    [historyKeyframeSearchTimeDiff] is read from the parameter server. *)

(** [while (loopInfoVec.size() > 5) loopInfoVec.pop_front();] *)
Fixpoint popFrontOver5 (loopInfoVec : list (list float))
  : list (list float) :=
  match loopInfoVec with
  | [] => []
  | _ :: rest =>
      if (5 <? length loopInfoVec)%nat then popFrontOver5 rest
      else loopInfoVec
  end.

(** [loopInfoHandler] on the [data] of the message. *)
Definition loopInfoHandler (data : list float)
    (loopInfoVec : list (list float)) : list (list float) :=
  if negb (length data =? 2)%nat then loopInfoVec
  else popFrontOver5 (loopInfoVec ++ [data]).

(** The [for] loop of [detectLoopClosureDistance] over the indices that the
    radius search has returned: the value of [loopKeyPre] after it, and
    [None] when [points[id]] is outside the copy. *)
Fixpoint firstOldKeyFrame (historyKeyframeSearchTimeDiff : float)
    (timeLaserInfoCur : float) (copy_cloudKeyPoses6D : list PointTypePose)
    (pointSearchIndLoop : list Z) : option Z :=
  match pointSearchIndLoop with
  | [] => Some (-1)
  | id :: rest =>
      if id <? 0 then None
      else
        p ← copy_cloudKeyPoses6D !! Z.to_nat id;
        if (historyKeyframeSearchTimeDiff
            <? fabs (pp_time p - timeLaserInfoCur))%float
        then Some id
        else firstOldKeyFrame historyKeyframeSearchTimeDiff timeLaserInfoCur
                              copy_cloudKeyPoses6D rest
  end.

(** [detectLoopClosureDistance], given the indices [pointSearchIndLoop]
    that [radiusSearch] returns around the last key pose: the values given
    to [latestID] and [closestID] when it returns [true]. *)
Definition detectLoopClosureDistance (historyKeyframeSearchTimeDiff : float)
    (pointSearchIndLoop : list Z) (copy_cloudKeyPoses3D : list PointType)
    (copy_cloudKeyPoses6D : list PointTypePose)
    (loopIndexContainer : gmap Z Z) (timeLaserInfoCur : float)
  : option (option (Z * Z)) :=
  let loopKeyCur := toInt (Z.of_nat (length copy_cloudKeyPoses3D) - 1) in
  match loopIndexContainer !! loopKeyCur with
  | Some _ => Some None
  | None =>
      loopKeyPre ← firstOldKeyFrame historyKeyframeSearchTimeDiff
                     timeLaserInfoCur copy_cloudKeyPoses6D pointSearchIndLoop;
      if (loopKeyPre =? -1) || (loopKeyCur =? loopKeyPre) then Some None
      else Some (Some (loopKeyCur, loopKeyPre))
  end.

(** The two [for] loops of [detectLoopClosureExternal]: the key is
    overwritten as long as the test holds; [roundToInt] is [round]
    followed by the conversion to [int]. *)
Fixpoint lastKeyWhile (roundToInt : float -> Z)
    (test : PointTypePose -> bool) (points : list PointTypePose) (key : Z)
  : Z :=
  match points with
  | [] => key
  | p :: rest =>
      if test p then lastKeyWhile roundToInt test rest
                                  (roundToInt (pp_intensity p))
      else key
  end.

(** [detectLoopClosureExternal]: [loopInfoVec] after the call and the
    values given to [latestID] and [closestID] when it returns [true];
    [None] when
    [data[0]] or [data[1]] does not exist or the size of the copy is not
    an [int]. *)
Definition detectLoopClosureExternal (roundToInt : float -> Z)
    (historyKeyframeSearchTimeDiff : float)
    (loopInfoVec : list (list float))
    (copy_cloudKeyPoses6D : list PointTypePose)
    (loopIndexContainer : gmap Z Z)
  : option (list (list float) * option (Z * Z)) :=
  match loopInfoVec with
  | [] => Some ([], None)
  | front :: rest =>
      loopTimeCur ← front !! 0%nat;
      loopTimePre ← front !! 1%nat;
      if (fabs (loopTimeCur - loopTimePre)
          <? historyKeyframeSearchTimeDiff)%float
      then Some (rest, None)
      else
        let cloudSize := Z.of_nat (length copy_cloudKeyPoses6D) in
        if INT_MAX <? cloudSize then None
        else if cloudSize <? 2 then Some (rest, None)
        else
          let loopKeyCur :=
            lastKeyWhile roundToInt
              (fun p => (loopTimeCur <=? pp_time p)%float)
              (rev copy_cloudKeyPoses6D) (cloudSize - 1) in
          let loopKeyPre :=
            lastKeyWhile roundToInt
              (fun p => (pp_time p <=? loopTimePre)%float)
              copy_cloudKeyPoses6D 0 in
          if loopKeyCur =? loopKeyPre then Some (rest, None)
          else
            match loopIndexContainer !! loopKeyCur with
            | Some _ => Some (rest, None)
            | None => Some (rest, Some (loopKeyCur, loopKeyPre))
            end
  end.


(** There is one path marker for every object registered. *)
Definition pathsCounted (s : mapOptimization) : Prop :=
  Z.of_nat (length (objectPaths s)) = numberOfRegisteredObjects s.

(** The number of path markers and the counter of the objects are as
    before. *)
Definition pathsKept (s s' : mapOptimization) : Prop :=
  length (objectPaths s') = length (objectPaths s)
  /\ numberOfRegisteredObjects s' = numberOfRegisteredObjects s.

(** The message [thisGPS] passes the tests of [addGPSFactor] on its stamp
    and on its covariance. *)
Definition acceptedGPS (thisGPS : Odometry) (s : mapOptimization) : Prop :=
  (toSec (od_stamp thisGPS) <? timeLaserInfoCur s - 0.2)%float = false
  /\ (timeLaserInfoCur s + 0.2 <? toSec (od_stamp thisGPS))%float = false
  /\ (gpsCovThreshold
      <? Float32.of_double (nth 0 (od_covariance thisGPS) 0))%float = false
  /\ (gpsCovThreshold
      <? Float32.of_double (nth 7 (od_covariance thisGPS) 0))%float = false.

End Model.

(** * A flat world

    An interpretation of the two interfaces in which the model runs: a pose
    is its six coordinates and composition adds them, which is the group of
    the translations along with rotations too small to matter; the solver
    returns the initial values it was given; the detector error is the
    squared distance weighted by the variances. It serves to evaluate the
    model on concrete sweeps. *)

Module Flat.

Definition v6_opp (a : Vector6) : Vector6 := v6_map PrimFloat.opp a.

#[local] Instance geometry : Geometry :=
  {| Pose3 := Vector6;
     Pose3_identity := v6_zero;
     Pose3_compose := v6_add;
     Pose3_inverse := v6_opp;
     Pose3_Local := fun a b => v6_sub b a;
     Pose3_Retract := v6_add;
     Pose3_RzRyRx := mkVector6;
     Pose3_Quaternion := fun _ _ _ _ x y z => mkVector6 0 0 0 x y z;
     Pose3_rpyxyz := fun p => p;
     Pose3_toQuaternion := fun _ => (1, 0, 0, 0)%float;
     Affine3f := Vector6;
     getTransformation := fun x y z roll pitch yaw => mkVector6 roll pitch yaw x y z;
     Affine3f_inverse := v6_opp;
     Affine3f_compose := v6_add;
     getTranslationAndEulerAngles :=
       fun a => (v6_3 a, v6_4 a, v6_5 a, v6_0 a, v6_1 a, v6_2 a);
     slerpRPY :=
       fun a b w =>
         let '(a0, a1, a2) := a in
         let '(b0, b1, b2) := b in
         (a0 + w * (b0 - a0), a1 + w * (b1 - a1), a2 + w * (b2 - a2))%float;
     pointDistance :=
       fun p q =>
         let sq x := (x * x)%float in
         fsqrt (sq (pt_x p - pt_x q) + sq (pt_y p - pt_y q)
                + sq (pt_z p - pt_z q))%float |}.

Definition detectionPose (d : Detection) : Vector6 :=
  mkVector6 0 0 0 (bb_x (det_box d)) (bb_y (det_box d)) (bb_z (det_box d)).

Definition detectionError (p : Vector6) (d : Detection) : float :=
  let r := v6_sub (detectionPose d) p in
  v6_dot r (v6_map2 PrimFloat.div r (det_variances d)).

(** The first detection of least error, from index [i]. *)
Fixpoint bestDetection (p : Vector6) (l : list Detection) (i : nat)
    (best : nat * float) : nat * float :=
  match l with
  | [] => best
  | d :: r =>
      let e := detectionError p d in
      bestDetection p r (S i) (if (e <? snd best)%float then (i, e) else best)
  end.

Definition estimateOf (calls : list (@SolverCall geometry)) : gmap Z Vector6 :=
  fold_left
    (fun est c =>
       match c with
       | UpdateWith _ initial => initial ∪ est
       | Update => est
       end)
    calls ∅.

(** The scan of the flat world: the number of correspondences that are
    selected, the eigenvalue of each direction and the step that the
    solution of the normal equations makes along x. *)
Record FlatScan := mkFlatScan
  { fs_selected : nat; fs_eigenvalue : float; fs_step : float }.

Definition diagonal (x : float) : Matrix6 :=
  map (fun i => v6_set i x v6_zero) (seq 0 6).

#[local] Instance collaborators : Collaborators :=
  {| getDetectionIndexAndError :=
       fun p l => bestDetection p l 0 (0%nat, infinity);
     Detection_getPose := detectionPose;
     calculateEstimate := estimateOf;
     marginalCovariance := fun _ _ => diagonal 1;
     Scan := FlatScan;
     emptyScan := mkFlatScan 0 0 0;
     optimizationCoeffs :=
       fun sc _ =>
         (repeat (mkPointType 0 0 0 0) (fs_selected sc),
          repeat (mkPointType (fs_eigenvalue sc) 0 0 (fs_step sc))
                 (fs_selected sc));
     normalEquations :=
       fun _ _ coeff =>
         match coeff with
         | c :: _ => (diagonal (pt_x c), mkVector6 0 0 0 (pt_intensity c) 0 0)
         | [] => (diagonal 0, v6_zero)
         end;
     cv_solve := fun _ b => b;
     cv_eigen := fun a => (mkVector6 (v6_0 (nth 0 a v6_zero))
                                     (v6_1 (nth 1 a v6_zero))
                                     (v6_2 (nth 2 a v6_zero))
                                     (v6_3 (nth 3 a v6_zero))
                                     (v6_4 (nth 4 a v6_zero))
                                     (v6_5 (nth 5 a v6_zero)),
                           diagonal 1);
     cv_inv := fun m => m |}.

Definition variances (x : float) : Vector6 := mkVector6 x x x x x x.

(** A configuration: [P = 2], tracks dropped after two lost steps, two
    samples for the velocity test; [interSteps] is
    [numberOfInterLooseCouplingSteps] and [earlySteps] is
    [numberOfEarlySteps]. *)
Definition configWith (interSteps earlySteps : Z) : ParamServer :=
  {| mappingProcessInterval := 0.05;
     edgeFeatureMinValidNum := 10;
     surfFeatureMinValidNum := 100;
     imuRPYWeight := 0.01;
     rotation_tollerance := 1000;
     z_tollerance := 1000;
     useImuHeadingInitialization := false;
     surroundingkeyframeAddingAngleThreshold := 0.2;
     surroundingkeyframeAddingDistThreshold := 1;
     poseCovThreshold := 25;
     gpsCovThreshold := 2;
     useGpsElevation := false;
     priorOdometryDiagonalVarianceEigenVector := variances 1e-2;
     odometryDiagonalVarianceEigenVector := variances 1e-4;
     motionDiagonalVarianceEigenVector := variances 1e-2;
     constantVelocityDiagonalVarianceEigenVector := variances 1e-2;
     earlyConstantVelocityDiagonalVarianceEigenVector := variances 1;
     looselyCoupledDetectionVarianceEigenVector := variances 1;
     tightlyCoupledDetectionVarianceEigenVector := variances 1e-2;
     earlyLooselyCoupledMatchingVarianceEigenVector := variances 4;
     looselyCoupledMatchingVarianceEigenVector := variances 1;
     tightlyCoupledMatchingVarianceEigenVector := variances 1;
     dataAssociationVarianceEigenVector := variances 16;
     trackingStepsForLostObject := 2;
     numberOfPreLooseCouplingSteps := 2;
     numberOfInterLooseCouplingSteps := interSteps;
     numberOfEarlySteps := earlySteps;
     numberOfVelocityConsistencySteps := 2;
     detectionMatchThreshold := 4;
     tightCouplingDetectionErrorThreshold := 1;
     objectAngularVelocityConsistencyVarianceThreshold := 1e-2;
     objectLinearVelocityConsistencyVarianceThreshold := 1e-2 |}.

(** The configuration of the runs below: one step of demotion, one early
    step. *)
#[local] Instance config : ParamServer := configWith 1 1.

(** A detection at [x] on the axis of the sensor. *)
Definition boxAt (x : float) : BoundingBox :=
  mkBoundingBox x 0 0 1 0 0 0 4 2 2 1 0.

(** A sweep at time [t] (in tenths of a second) with the initial guess
    [guess] of the pose, the reply of the detector and a scan. *)
Definition sweepAt (t : Z) (guess : Vector6)
    (reply : option (list BoundingBox)) (corner surf : Z) (sc : FlatScan)
  : Sweep :=
  mkSweep (t * 100000000) (mkCloudInfo false false 0 0 0) reply guess ∅
          corner surf sc.

(** The same with the sensor at [x] on its axis. *)
Definition sweep (t : Z) (x : float) (reply : option (list BoundingBox))
    (corner surf : Z) (sc : FlatScan) : Sweep :=
  sweepAt t (mkVector6 0 0 0 x 0 0) reply corner surf sc.

Definition goodScan : FlatScan := mkFlatScan 60 1000 0.

(** The node after the sweeps [l], oldest first, under the configuration
    [c]. *)
Definition runWith (c : ParamServer) (l : list Sweep)
  : option mapOptimization :=
  forEach (@laserCloudInfoHandler c geometry collaborators) l initialState.

Definition run (l : list Sweep) : option mapOptimization := runWith config l.

(** The same for a run that does not stop; the initial state otherwise. *)
Definition afterWith (c : ParamServer) (l : list Sweep) : mapOptimization :=
  default initialState (runWith c l).

Definition after (l : list Sweep) : mapOptimization := afterWith config l.

(** The sensor at rest and a box seen at [x] in the sweep at time [t]. *)
Definition seen (t : Z) (x : float) : Sweep :=
  sweep t 0 (Some [boxAt x]) 100 1000 goodScan.

(** The sensor at rest and the detector replying without any box, and not
    replying. *)
Definition unseen (t : Z) : Sweep := sweep t 0 (Some []) 100 1000 goodScan.

Definition unanswered (t : Z) : Sweep := sweep t 0 None 100 1000 goodScan.

(** [n] sweeps with a box seen at 10. *)
Definition approach (n : nat) : list Sweep :=
  map (fun i => seen (Z.of_nat i + 1) 10) (seq 0 n).

(** The state in which the sweep [msgIn] calls [saveKeyFramesAndFactor]. *)
Definition scanMatched (msgIn : Sweep) (s : mapOptimization)
  : mapOptimization :=
  scan2MapOptimization (prepareSweep msgIn (receiveSweep msgIn s)).

(** The state in which the sweep [msgIn] calls [addDetectionFactor], with
    the argument of that call. *)
Definition propagated (msgIn : Sweep) (s : mapOptimization)
  : option (bool * mapOptimization) :=
  let s0 := scanMatched msgIn s in
  requiredSaveFrame ← saveFrame s0;
  s1 ← (if requiredSaveFrame then addKeyFrameFactors s0
        else insertLatestEgoPose s0);
  s2 ← propagateObjectPoses s1;
  Some (negb requiredSaveFrame, s2).


(** The first object of the last epoch. *)
Definition firstObject (s : mapOptimization) : Z * ObjectState :=
  default (0, ObjectState_default) (back (objects s) ≫= head).

(** What a run shows of its tracks: for every epoch, the key, [lostCount]
    and [trackScore] of every object. *)
Definition tracksOf (s : mapOptimization) : list (list (Z * Z * Z)) :=
  map (map (fun p : Z * ObjectState =>
              (p.1, lostCount p.2, trackScore p.2))) (objects s).

(** *** The runs on which the properties are tried *)

(** A sweep in which 10 correspondences are selected and the initial guess
    is at the height 2000, after a first key frame. *)
Definition few : Sweep :=
  sweepAt 2 (mkVector6 0 0 0 0 0 2000) (Some []) 100 1000
          (mkFlatScan 10 1000 0).

Definition beforeMatching : mapOptimization :=
  prepareSweep few (receiveSweep few (after [unseen 1])).

(** A first key frame, a sweep whose scan has an eigenvalue of 50, and a
    sweep with 5 corner features. *)
Definition corridor : list Sweep :=
  [unseen 1; sweep 2 0 (Some []) 100 1000 (mkFlatScan 60 50 0.25);
   sweep 3 0 (Some []) 5 1000 goodScan].

(** The last sweep of [corridor] when [scan2MapOptimization] is called. *)
Definition poorSweep : mapOptimization :=
  let msgIn := sweep 3 0 (Some []) 5 1000 goodScan in
  prepareSweep msgIn (receiveSweep msgIn (after (take 2 corridor))).

(** The second sweep, with the sensor at 1 from the first key frame, when
    [saveKeyFramesAndFactor] is called. *)
Definition atThreshold : mapOptimization :=
  scanMatched (sweep 2 1 (Some []) 100 1000 goodScan) (after [unseen 1]).






(** A box seen four times, then not seen three times; and two more
    sweeps. *)
Definition lostApproach : list Sweep :=
  approach 4 ++ [unseen 5; unseen 6; unseen 7].

Definition later : list Sweep := [unseen 8; seen 9 10].

(** A box seen three times at 10, then at 11.5. *)
Definition demoted : list Sweep := approach 3 ++ [seen 4 11.5].

(** A box seen twice, and its object propagated once more. *)
Definition seenTwice : mapOptimization := after (approach 2).

Definition propagatedTwice : mapOptimization * Epoch :=
  default (initialState, [])
          (propagateObject (0, (firstObject seenTwice).2) (seenTwice, [])).

(** *** The inputs on which the functions are run one by one *)

(** The state that [propagateObjectPoses] leaves of [seenTwice]. *)
Definition propagatedEpoch : mapOptimization :=
  default initialState (propagateObjectPoses seenTwice).

(** The first sweep of a box when [addDetectionFactor] is called, with the
    argument of that call, and when it returns. *)
Definition firstSight : bool * mapOptimization :=
  default (false, initialState) (propagated (seen 1 10) initialState).

Definition firstRegistered : mapOptimization :=
  default initialState (addDetectionFactor firstSight.1 firstSight.2).

(** A loop closure pushed after the first key frame, and what
    [addLoopFactor] makes of it. *)
Definition loopQueued : mapOptimization :=
  performLoopClosure_push 0 0 v6_zero (repeat 1%float 6) (after [unseen 1]).

Definition loopAdded : mapOptimization :=
  default initialState (addLoopFactor loopQueued).

(** A GPS fix at [x] at the time [t] (in tenths of a second), with the
    variances 2.00000001. *)
Definition gpsFix (t : Z) (x : float) : Odometry :=
  mkOdometry (t * 100000000) x 0 0 0 0 0 (repeat 2.00000001%float 36).

(** Two key frames 6 apart, the last one at the time 0.6, a pose covariance
    of 30, a fix of the time 0.1 and a fix of the time of the last sweep at
    x = 331234.567; and what [addGPSFactor] makes of them. *)
Definition gpsWaiting : mapOptimization :=
  set_poseCovariance (diagonal 30)
    (gpsHandler (gpsFix 6 331234.567)
       (gpsHandler (gpsFix 1 10)
          (after [unseen 5; sweep 6 6 (Some []) 100 1000 goodScan]))).

Definition gpsAdded : mapOptimization :=
  default initialState (addGPSFactor gpsWaiting).

(** The objects of [seenTwice] read back once more. *)
Definition readBack : mapOptimization :=
  default initialState (saveObjects seenTwice).

(** Three key frames, taken at the times 0, 10 and 50. *)
Definition keyFrameAt (index time : float) : PointTypePose :=
  mkPointTypePose 0 0 0 index 0 0 0 time.

Definition copy6D : list PointTypePose :=
  [keyFrameAt 0 0; keyFrameAt 1 10; keyFrameAt 2 50].

Definition copy3D : list PointType :=
  map (fun p => mkPointType (pp_x p) (pp_y p) (pp_z p) (pp_intensity p))
      copy6D.

(** [round] followed by the conversion to [int], on the floats from 0 to
    9. *)
Definition roundBelow10 (x : float) : Z :=
  Z.of_nat
    (length (List.filter (fun i : Z => (Z2float i - 0.5 <=? x)%float)
                         [1; 2; 3; 4; 5; 6; 7; 8; 9])).


(** The second sweep, with the sensor at a point whose distance to the
    first key frame is below 1 in exact arithmetic and 1 as [float]
    computes it, when [saveKeyFramesAndFactor] is called. *)
Definition nearThreshold : mapOptimization :=
  scanMatched
    (sweepAt 2 (mkVector6 0 0 0 0.8840864896774292 0.46732327342033386 0)
             (Some []) 100 1000 goodScan)
    (after [unseen 1]).

End Flat.

(** * Properties *)

Section Properties.
Context `{cfg : ParamServer} `{geo : Geometry} `{col : !Collaborators}.

(** ** Scan-to-map matching *)

Lemma LMOptimization_few (s : mapOptimization) (iterCount : Z) :
  Z.of_nat (length (laserCloudOri s)) < 50 ->
  LMOptimization iterCount s = (false, s).
Proof.
  intros H. unfold LMOptimization.
  destruct (Z.ltb_spec (Z.of_nat (length (laserCloudOri s))) 50); [done | lia].
Qed.

Lemma LMOptimization_rosWarnings (s : mapOptimization) (iterCount : Z) :
  rosWarnings (LMOptimization iterCount s).2 = rosWarnings s.
Proof.
  unfold LMOptimization.
  destruct (_ <? 50); [done |].
  destruct (normalEquations _ _ _) as [matAtA matAtB].
  destruct (iterCount =? 0); [| done].
  destruct (cv_eigen matAtA) as [matE matV].
  by destruct (degenerateRows 6 matE matV false).
Qed.

Lemma scan2MapIterations_rosWarnings (n : nat) (iterCount : Z)
    (s : mapOptimization) :
  rosWarnings (scan2MapIterations n iterCount s) = rosWarnings s.
Proof.
  revert iterCount s. induction n as [| n IH]; intros iterCount s; [done |].
  simpl. destruct (optimizationCoeffs _ _) as [ori coeff].
  pose proof (LMOptimization_rosWarnings
                (set_coeffSel coeff (set_laserCloudOri ori s)) iterCount) as H.
  destruct (LMOptimization _ _) as [converged s'].
  destruct converged; [done |]. by rewrite IH.
Qed.

Lemma transformUpdate_rosWarnings (s : mapOptimization) :
  rosWarnings (transformUpdate s) = rosWarnings s.
Proof. done. Qed.

Lemma scan2MapIterations_few (n : nat) :
  forall (iterCount : Z) (s t : mapOptimization),
    Z.of_nat (length (optimizationCoeffs (scan s) (transformTobeMapped s)).1)
    < 50 ->
    scan t = scan s -> transformTobeMapped t = transformTobeMapped s ->
    cloudInfo t = cloudInfo s -> isDegenerate t = isDegenerate s ->
    let t' := scan2MapIterations n iterCount t in
    transformTobeMapped t' = transformTobeMapped s
    /\ cloudInfo t' = cloudInfo s /\ isDegenerate t' = isDegenerate s
    /\ ((0 < n)%nat ->
        laserCloudOri t'
        = (optimizationCoeffs (scan s) (transformTobeMapped s)).1).
Proof.
  induction n as [| n IH]; intros iterCount s t Hfew Hs Ht Hc Hd; cbn zeta.
  - split; [done |]. split; [done |]. split; [done |]. lia.
  - cbn [scan2MapIterations]. rewrite Hs, Ht.
    destruct (optimizationCoeffs (scan s) (transformTobeMapped s))
      as [ori coeff] eqn:Eo.
    cbn [fst] in Hfew.
    rewrite (LMOptimization_few (set_coeffSel coeff (set_laserCloudOri ori t))
               iterCount) by exact Hfew.
    destruct (IH (iterCount + 1) s
                 (set_coeffSel coeff (set_laserCloudOri ori t)))
      as (H1 & H2 & H3 & H4); try done.
    { by rewrite Eo. }
    cbn zeta in *. split; [done |]. split; [done |]. split; [done |].
    intros _. destruct n as [| n]; [done |].
    rewrite H4 by lia. by rewrite Eo.
Qed.

Lemma transformUpdate_pose (s t : mapOptimization) :
  transformTobeMapped t = transformTobeMapped s ->
  cloudInfo t = cloudInfo s ->
  transformTobeMapped (transformUpdate t)
  = transformTobeMapped (transformUpdate s).
Proof. unfold transformUpdate. intros -> ->. done. Qed.

(** C7 (amended). When fewer than 50 correspondences are selected in an
    iteration, [LMOptimization] makes no update in that iteration: it
    returns [false] (not converged, so that the loop goes on) and leaves the
    node, hence the pose, as it was at the start of the iteration. For a
    sweep taken when key frames exist:
    - with enough corner and surface features, [scan2MapOptimization] runs
      the iterations and then [transformUpdate], and emits no warning; if
      fewer than 50 correspondences are selected at the pose of the initial
      guess, all 30 iterations leave that pose and the pose returned is the
      one that [transformUpdate] makes of it (blended with the IMU and
      clamped), which need not be the pose of the initial guess;
    - with too few corner or surface features, no iteration is run: the
      warning is emitted with the two counts and nothing else changes;
    so the warning is emitted exactly when the features are too few. *)
Theorem too_few_correspondences (s : mapOptimization) :
  cloudKeyPoses3D s <> [] ->
  (forall (t : mapOptimization) (iterCount : Z),
      Z.of_nat (length (laserCloudOri t)) < 50 ->
      LMOptimization iterCount t = (false, t))
  /\ (edgeFeatureMinValidNum < laserCloudCornerLastDSNum s ->
      surfFeatureMinValidNum < laserCloudSurfLastDSNum s ->
      scan2MapOptimization s = transformUpdate (scan2MapIterations 30 0 s)
      /\ rosWarnings (scan2MapOptimization s) = rosWarnings s
      /\ (Z.of_nat
            (length (optimizationCoeffs (scan s) (transformTobeMapped s)).1)
          < 50 ->
          transformTobeMapped (scan2MapIterations 30 0 s)
          = transformTobeMapped s
          /\ laserCloudOri (scan2MapOptimization s)
             = (optimizationCoeffs (scan s) (transformTobeMapped s)).1
          /\ transformTobeMapped (scan2MapOptimization s)
             = transformTobeMapped (transformUpdate s)))
  /\ (laserCloudCornerLastDSNum s <= edgeFeatureMinValidNum
      \/ laserCloudSurfLastDSNum s <= surfFeatureMinValidNum ->
      scan2MapOptimization s
      = set_rosWarnings
          (rosWarnings s
           ++ [(laserCloudCornerLastDSNum s, laserCloudSurfLastDSNum s)]) s)
  /\ (rosWarnings (scan2MapOptimization s) <> rosWarnings s
      <-> laserCloudCornerLastDSNum s <= edgeFeatureMinValidNum
          \/ laserCloudSurfLastDSNum s <= surfFeatureMinValidNum).
Proof.
  intros Hk.
  assert (edgeFeatureMinValidNum < laserCloudCornerLastDSNum s ->
          surfFeatureMinValidNum < laserCloudSurfLastDSNum s ->
          scan2MapOptimization s
          = transformUpdate (scan2MapIterations 30 0 s)) as Henough.
  { intros Hc Hs. unfold scan2MapOptimization.
    destruct (cloudKeyPoses3D s) as [| p l]; [done |].
    destruct (Z.gtb_spec (laserCloudCornerLastDSNum s) edgeFeatureMinValidNum);
      [| lia].
    destruct (Z.gtb_spec (laserCloudSurfLastDSNum s) surfFeatureMinValidNum);
      [done | lia]. }
  assert (laserCloudCornerLastDSNum s <= edgeFeatureMinValidNum
          \/ laserCloudSurfLastDSNum s <= surfFeatureMinValidNum ->
          scan2MapOptimization s
          = set_rosWarnings
              (rosWarnings s
               ++ [(laserCloudCornerLastDSNum s, laserCloudSurfLastDSNum s)])
              s) as Hfew.
  { intros Hf. unfold scan2MapOptimization.
    destruct (cloudKeyPoses3D s) as [| p l]; [done |].
    destruct (Z.gtb_spec (laserCloudCornerLastDSNum s) edgeFeatureMinValidNum);
      destruct (Z.gtb_spec (laserCloudSurfLastDSNum s) surfFeatureMinValidNum);
      cbn [andb]; try done; lia. }
  split; [| split; [| split]].
  - intros t iterCount. apply LMOptimization_few.
  - intros Hc Hs. rewrite (Henough Hc Hs).
    split; [done |]. split.
    { by rewrite transformUpdate_rosWarnings, scan2MapIterations_rosWarnings. }
    intros Hsel.
    destruct (scan2MapIterations_few 30 0 s s Hsel) as (Ht & Hi & _ & Ho);
      try done.
    cbn zeta in *. split; [exact Ht |]. split.
    + rewrite <- Ho by lia. done.
    + by apply transformUpdate_pose.
  - exact Hfew.
  - split.
    + intros Hw.
      destruct (Z.le_gt_cases (laserCloudCornerLastDSNum s)
                              edgeFeatureMinValidNum); [by left |].
      destruct (Z.le_gt_cases (laserCloudSurfLastDSNum s)
                              surfFeatureMinValidNum); [by right |].
      exfalso. apply Hw. rewrite Henough by lia.
      by rewrite transformUpdate_rosWarnings, scan2MapIterations_rosWarnings.
    + intros Hf. rewrite (Hfew Hf). cbn. intros E.
      apply (f_equal length) in E. rewrite length_app in E. cbn in E. lia.
Qed.

(** ** The degeneracy flag *)

Lemma degenerateRows_set (n : nat) (matE : Vector6) (m : Matrix6) :
  (degenerateRows n matE m true).2 = true.
Proof.
  revert m. induction n as [| n IH]; intros m; [done |].
  simpl. by destruct (_ <? _)%float.
Qed.

Lemma degenerateRows_last (matE : Vector6) (m : Matrix6) :
  (degenerateRows 6 matE m false).2 = (v6_5 matE <? 100)%float.
Proof.
  change (degenerateRows 6 matE m false)
    with (if (v6_5 matE <? 100)%float
          then degenerateRows 5 matE (<[5%nat := v6_zero]> m) true
          else (m, false)).
  destruct (v6_5 matE <? 100)%float; [apply degenerateRows_set | done].
Qed.

Lemma LMOptimization_isDegenerate_kept (s : mapOptimization) (iterCount : Z) :
  iterCount <> 0 \/ Z.of_nat (length (laserCloudOri s)) < 50 ->
  isDegenerate (LMOptimization iterCount s).2 = isDegenerate s.
Proof.
  intros H. unfold LMOptimization.
  destruct (Z.ltb_spec (Z.of_nat (length (laserCloudOri s))) 50); [done |].
  destruct H as [H | H]; [| lia].
  destruct (normalEquations _ _ _) as [matAtA matAtB].
  by destruct (Z.eqb_spec iterCount 0).
Qed.

Lemma LMOptimization_isDegenerate_first (s : mapOptimization) :
  50 <= Z.of_nat (length (laserCloudOri s)) ->
  isDegenerate (LMOptimization 0 s).2
  = (v6_5 (cv_eigen (normalEquations (transformTobeMapped s) (laserCloudOri s)
                                     (coeffSel s)).1).1 <? 100)%float.
Proof.
  intros H. unfold LMOptimization.
  destruct (Z.ltb_spec (Z.of_nat (length (laserCloudOri s))) 50); [lia |].
  destruct (normalEquations _ _ _) as [matAtA matAtB]. cbn [fst snd Z.eqb].
  destruct (cv_eigen matAtA) as [matE matV].
  pose proof (degenerateRows_last matE matV) as Hd.
  destruct (degenerateRows 6 matE matV false) as [matV2 d]. cbn [fst snd] in *.
  by subst d.
Qed.

(** C8 (amended). [publishOdometry] sends one incremental-odometry message.
    On the first call its covariance is all zero; on every later call its
    [covariance[0]] is 1 when the member [isDegenerate] is set and 0
    otherwise. That member is not reset at each sweep: an iteration of
    [LMOptimization] other than iteration 0, or with fewer than 50
    correspondences, keeps it, and iteration 0 with at least 50
    correspondences sets it to whether the last eigenvalue of [matAtA] is
    below 100. *)
Theorem covariance_reports_isDegenerate (s : mapOptimization) :
  length (od_covariance (laserOdomIncremental s)) = 36%nat ->
  (exists msg : Odometry,
      pubLaserOdometryIncremental (publishOdometry s)
      = pubLaserOdometryIncremental s ++ [msg]
      /\ (lastIncreOdomPubFlag s = false -> od_covariance msg = zeroCovariance)
      /\ (lastIncreOdomPubFlag s = true ->
          od_covariance msg !! 0%nat
          = Some (if isDegenerate s then 1%float else 0%float)))
  /\ (forall iterCount : Z,
        iterCount <> 0 \/ Z.of_nat (length (laserCloudOri s)) < 50 ->
        isDegenerate (LMOptimization iterCount s).2 = isDegenerate s)
  /\ (50 <= Z.of_nat (length (laserCloudOri s)) ->
      isDegenerate (LMOptimization 0 s).2
      = (v6_5 (cv_eigen (normalEquations (transformTobeMapped s)
                                         (laserCloudOri s) (coeffSel s)).1).1
         <? 100)%float).
Proof.
  intros Hlen. split; [| split].
  - unfold publishOdometry.
    destruct (lastIncreOdomPubFlag s) eqn:Hflag; simpl.
    + destruct (getTranslationAndEulerAngles _) as [[[[[x y] z] roll] pitch] yaw].
      destruct (_ && _).
      * destruct (slerpRPY _ _ _) as [[rollMid ?] ?].
        destruct (slerpRPY _ _ _) as [[? pitchMid] ?].
        eexists. split; [reflexivity |]. split; [done |]. intros _.
        cbn in *. repeat case_match; simplify_eq;
          apply list_lookup_insert_eq; lia.
      * eexists. split; [reflexivity |]. split; [done |]. intros _.
        cbn in *. repeat case_match; simplify_eq;
          apply list_lookup_insert_eq; lia.
    + eexists. split; [reflexivity |]. by split.
  - intros iterCount. apply LMOptimization_isDegenerate_kept.
  - apply LMOptimization_isDegenerate_first.
Qed.

(** ** What the tracker leaves alone *)

Lemma untouched_refl (s : mapOptimization) : untouched s s.
Proof. done. Qed.

Lemma untouched_trans (s1 s2 s3 : mapOptimization) :
  untouched s1 s2 -> untouched s2 s3 -> untouched s1 s3.
Proof.
  unfold untouched. intros (? & ? & ? & ? & ? & ?) (? & ? & ? & ? & ? & ?).
  repeat split; congruence.
Qed.

(** A relation that the body of a loop establishes holds across the loop. *)
Lemma forEach_rel {A S : Type} (R : S -> S -> Prop)
    (body : A -> S -> option S) :
  (forall s, R s s) ->
  (forall s1 s2 s3, R s1 s2 -> R s2 s3 -> R s1 s3) ->
  (forall x s s', body x s = Some s' -> R s s') ->
  forall l s s', forEach body l s = Some s' -> R s s'.
Proof.
  intros Hr Ht Hb l. induction l as [| x l IH]; intros s s' H; simpl in H.
  - by simplify_eq.
  - destruct (body x s) as [s1 |] eqn:E; simpl in H; [| done].
    eapply Ht; [by eapply Hb | by apply IH].
Qed.

(** Case analysis along a definition written in the option monad. *)
Ltac crunch :=
  unfold Values_insert, Values_at, Values_erase in *;
  repeat (first [progress simplify_option_eq | case_match]); try done.

Lemma propagateObject_untouched p s e s' e' :
  propagateObject p (s, e) = Some (s', e') -> untouched s s'.
Proof. unfold propagateObject. destruct p as [k o]. intros H. crunch. Qed.

Lemma propagateObjectPoses_untouched s s' :
  propagateObjectPoses s = Some s' -> untouched s s'.
Proof.
  unfold propagateObjectPoses. intros H.
  destruct (back (objects s)) as [lastObjects |]; [| by simplify_eq].
  destruct (forEach propagateObject lastObjects (s, [])) as [[s1 e1] |] eqn:E;
    simpl in H; [| done].
  simplify_eq.
  assert (untouched s s1) as Hu; [| apply Hu].
  change s with (s, @nil (Z * ObjectState)).1.
  change s1 with (s1, e1).1.
  revert E. generalize (s, @nil (Z * ObjectState)). generalize (s1, e1).
  intros x y E.
  eapply (forEach_rel (fun a b => untouched a.1 b.1)); [| | | exact E].
  - intros ?. apply untouched_refl.
  - intros ???. apply untouched_trans.
  - intros p [a b] [c d]. apply propagateObject_untouched.
Qed.

Lemma previousObjectOf_untouched k s o s' :
  previousObjectOf k s = Some (o, s') -> untouched s s'.
Proof.
  unfold previousObjectOf. intros H.
  destruct (objects s !! _) as [e |]; simpl in H; [| done].
  destruct (Epoch_index k e) as [po e']. by simplify_eq.
Qed.

Lemma addConstantVelocityFactor_untouched s s' :
  addConstantVelocityFactor s = Some s' -> untouched s s'.
Proof.
  unfold addConstantVelocityFactor. intros H.
  destruct (_ <? _)%nat; [by simplify_eq |].
  destruct (back (objects s)) as [current |]; simpl in H; [| done].
  eapply (forEach_rel untouched); [apply untouched_refl | apply untouched_trans
                                  | | exact H].
  clear. intros p s s' H. unfold addConstantVelocityFactor_object in H.
  destruct (isFirst _); [by simplify_eq |].
  destruct (_ >? _); [by simplify_eq |].
  destruct (previousObjectOf _ _) as [[o s1] |] eqn:E; simpl in H; [| done].
  apply previousObjectOf_untouched in E.
  eapply untouched_trans; [exact E |]. crunch.
Qed.

Lemma addStablePoseFactor_untouched s s' :
  addStablePoseFactor s = Some s' -> untouched s s'.
Proof.
  unfold addStablePoseFactor. intros H.
  destruct (_ <? _)%nat; [by simplify_eq |].
  destruct (back (objects s)) as [current |]; simpl in H; [| done].
  eapply (forEach_rel untouched); [apply untouched_refl | apply untouched_trans
                                  | | exact H].
  clear. intros p s s' H. unfold addStablePoseFactor_object in H.
  destruct (isFirst _); [by simplify_eq |].
  destruct (_ >? _); [by simplify_eq |].
  destruct (previousObjectOf _ _) as [[o s1] |] eqn:E; simpl in H; [| done].
  apply previousObjectOf_untouched in E.
  eapply untouched_trans; [exact E |]. crunch.
Qed.

Lemma associateObject_untouched k inv i o s a o' s' a' :
  associateObject k inv i o s a = Some (o', s', a') -> untouched s s'.
Proof.
  unfold associateObject, coupleObject, moveToLooselyCoupled. intros H. crunch.
Qed.

Lemma associateObjects_untouched k inv l :
  forall i s a l' s' a',
    associateObjects k inv i l s a = Some (l', s', a') -> untouched s s'.
Proof.
  induction l as [| [key o] l IH]; intros i s a l' s' a' H; simpl in H.
  - by simplify_eq.
  - destruct (associateObject _ _ _ _ _ _) as [[[o1 s1] a1] |] eqn:E1;
      simpl in H; [| done].
    destruct (associateObjects _ _ _ _ _ _) as [[[l2 s2] a2] |] eqn:E2;
      simpl in H; [| done].
    simplify_eq.
    eapply untouched_trans;
      [by eapply associateObject_untouched | by eapply IH].
Qed.

Lemma loseObjects_untouched l :
  forall s l' s', loseObjects l s = Some (l', s') -> untouched s s'.
Proof.
  induction l as [| [key o] l IH]; intros s l' s' H; simpl in H.
  - by simplify_eq.
  - destruct (Marker_setScale _ _ _) as [m |]; simpl in H; [| done].
    destruct (loseObjects l _) as [[l2 s2] |] eqn:E; simpl in H; [| done].
    simplify_eq. by apply IH in E.
Qed.

Lemma registerObject_untouched k e a idx s s' :
  registerObject k e a idx s = Some s' -> untouched s s'.
Proof. unfold registerObject, newNode. intros H. crunch. Qed.

Lemma addDetectionFactor_untouched mock s s' :
  addDetectionFactor mock s = Some s' -> untouched s s'.
Proof.
  unfold addDetectionFactor. intros H.
  set (s0 := set_anyObjectIsTightlyCoupled false s) in *.
  assert (untouched s s0) as H0 by done.
  eapply untouched_trans; [exact H0 |]. clearbody s0. clear H0.
  destruct (detections s0) as [| d ds] eqn:Ed.
  - destruct (objects s0) as [| e es] eqn:Eo; [by simplify_eq |].
    destruct (back (e :: es)) as [current |]; simpl in H; [| done].
    destruct (loseObjects current s0) as [[l1 s1] |] eqn:E; simpl in H;
      [| done].
    simplify_eq. by apply loseObjects_untouched in E.
  - destruct (back (objects s0)) as [current |]; simpl in H; [| done].
    destruct (smallEgoMotionOf mock s0) as [m |]; simpl in H; [| done].
    destruct (back (keyPoseIndices _)) as [key |]; simpl in H; [| done].
    destruct (Values_at key _) as [ego |]; simpl in H; [| done].
    destruct (associateObjects _ _ _ _ _ _) as [[[l1 s1] a1] |] eqn:E;
      simpl in H; [| done].
    apply associateObjects_untouched in E.
    eapply untouched_trans; [exact E |].
    eapply (forEach_rel untouched) in H;
      [exact H | apply untouched_refl | apply untouched_trans |].
    intros ???. apply registerObject_untouched.
Qed.

(** ** Key frames and odometry factors *)

Lemma addGPSFactor_loop_frame (q : list Odometry) (s : mapOptimization) :
  let s' := addGPSFactor_loop q s in
  keyFrames s' = keyFrames s /\ isam s' = isam s /\ tracker s' = tracker s
  /\ outputs s' = outputs s /\ matcher s' = matcher s /\ clock s' = clock s
  /\ (gtSAMgraph s' <> gtSAMgraph s -> aLoopIsClosed s' = true).
Proof.
  revert s. induction q as [| thisGPS q IH]; intros s; [done |].
  simpl. repeat case_match; try apply IH; done.
Qed.

Lemma addGPSFactor_frame (s s' : mapOptimization) :
  addGPSFactor s = Some s' ->
  keyFrames s' = keyFrames s /\ isam s' = isam s /\ tracker s' = tracker s
  /\ outputs s' = outputs s /\ matcher s' = matcher s /\ clock s' = clock s
  /\ (gtSAMgraph s' <> gtSAMgraph s -> aLoopIsClosed s' = true).
Proof.
  unfold addGPSFactor. intros H.
  destruct (gpsQueue s) as [| g q] eqn:Eq; [by simplify_eq |].
  destruct (cloudKeyPoses3D s) as [| front l]; [by simplify_eq |].
  destruct (back (front :: l)) as [last3D |]; simpl in H; [| done].
  destruct (_ <? _)%float; [by simplify_eq |].
  destruct (diagonalEntry _ 3) as [cxx |]; simpl in H; [| done].
  destruct (diagonalEntry _ 4) as [cyy |]; simpl in H; [| done].
  destruct (_ && _); [by simplify_eq |].
  simplify_eq. apply (addGPSFactor_loop_frame (g :: q) s).
Qed.

Lemma addLoopFactor_frame (s s' : mapOptimization) :
  addLoopFactor s = Some s' ->
  keyFrames s' = keyFrames s /\ isam s' = isam s /\ tracker s' = tracker s
  /\ outputs s' = outputs s /\ matcher s' = matcher s /\ clock s' = clock s
  /\ (loopIndexQueue s <> [] -> aLoopIsClosed s' = true)
  /\ (aLoopIsClosed s = true -> aLoopIsClosed s' = true).
Proof. unfold addLoopFactor. intros H. crunch. Qed.

Lemma addOdomFactor_frame (s s' : mapOptimization) :
  addOdomFactor s = Some s' ->
  cloudKeyPoses3D s' = cloudKeyPoses3D s
  /\ cloudKeyPoses6D s' = cloudKeyPoses6D s
  /\ keyPoseIndices s' = keyPoseIndices s ++ [numberOfNodes s]
  /\ isam s' = isam s /\ tracker s' = tracker s /\ outputs s' = outputs s
  /\ closures s' = closures s /\ matcher s' = matcher s /\ clock s' = clock s.
Proof. unfold addOdomFactor. intros H. crunch. Qed.

Lemma addKeyFrameFactors_frame (s s' : mapOptimization) :
  addKeyFrameFactors s = Some s' ->
  cloudKeyPoses3D s' = cloudKeyPoses3D s
  /\ cloudKeyPoses6D s' = cloudKeyPoses6D s
  /\ keyPoseIndices s' = keyPoseIndices s ++ [numberOfNodes s]
  /\ isam s' = isam s /\ tracker s' = tracker s /\ outputs s' = outputs s
  /\ matcher s' = matcher s /\ clock s' = clock s.
Proof.
  unfold addKeyFrameFactors. intros H.
  destruct (addOdomFactor s) as [s1 |] eqn:E1; simpl in H; [| done].
  destruct (addGPSFactor s1) as [s2 |] eqn:E2; simpl in H; [| done].
  apply addOdomFactor_frame in E1.
  apply addGPSFactor_frame in E2. apply addLoopFactor_frame in H.
  destruct E1 as (? & ? & ? & ? & ? & ? & ? & ? & ?).
  destruct E2 as (Hk2 & ? & ? & ? & ? & ? & ?).
  destruct H as (Hk3 & ? & ? & ? & ? & ? & ?).
  unfold cloudKeyPoses3D, cloudKeyPoses6D, keyPoseIndices in *.
  rewrite Hk3, Hk2. repeat split; congruence.
Qed.

Lemma insertLatestEgoPose_untouched (s s' : mapOptimization) :
  insertLatestEgoPose s = Some s' ->
  untouched s s' /\ tracker s' = tracker s /\ outputs s' = outputs s.
Proof. unfold insertLatestEgoPose. intros H. crunch. Qed.

Lemma eraseLatestEgoPose_untouched (s s' : mapOptimization) :
  eraseLatestEgoPose s = Some s' -> untouched s s'.
Proof. unfold eraseLatestEgoPose. intros H. crunch. Qed.

Lemma saveObjects_untouched (s s' : mapOptimization) :
  saveObjects s = Some s' ->
  untouched s s' /\ estimator s' = estimator s /\ outputs s' = outputs s.
Proof. unfold saveObjects. intros H. crunch. Qed.

Lemma saveKeyPose_frame (s s' : mapOptimization) :
  saveKeyPose s = Some s' ->
  exists (p3 : PointType) (p6 : PointTypePose),
    cloudKeyPoses3D s' = cloudKeyPoses3D s ++ [p3]
    /\ cloudKeyPoses6D s' = cloudKeyPoses6D s ++ [p6]
    /\ keyPoseIndices s' = keyPoseIndices s
    /\ isam s' = isam s /\ closures s' = closures s
    /\ tracker s' = tracker s /\ outputs s' = outputs s
    /\ isamCurrentEstimate s' = isamCurrentEstimate s.
Proof.
  unfold saveKeyPose. intros H.
  destruct (back (keyPoseIndices s)) as [k |]; simpl in H; [| done].
  destruct (Values_at k _) as [e |]; simpl in H; [| done].
  simplify_eq. by eexists _, _.
Qed.

(** The steps of [saveKeyFramesAndFactor], around the calls to the solver. *)
Lemma saveKeyFramesAndFactor_steps (s s' : mapOptimization) :
  saveKeyFramesAndFactor s = Some s' ->
  exists (requiredSaveFrame : bool) (s1 s6 s8 : mapOptimization),
    saveFrame s = Some requiredSaveFrame
    /\ (if requiredSaveFrame then addKeyFrameFactors s
        else insertLatestEgoPose s) = Some s1
    /\ untouched s1 s6
    /\ (if requiredSaveFrame then saveKeyPose (updateISAM s6)
        else Some (updateISAM s6)) = Some s8
    /\ saveObjects s8 = Some s'.
Proof.
  unfold saveKeyFramesAndFactor, saveKeyFramesAndFactor_from. intros H.
  destruct (saveFrame s) as [b |]; simpl in H; [| done].
  destruct (if b then _ else _) as [s1 |] eqn:E1; simpl in H; [| done].
  destruct (propagateObjectPoses s1) as [s2 |] eqn:E2; simpl in H; [| done].
  destruct (addDetectionFactor _ s2) as [s3 |] eqn:E3; simpl in H; [| done].
  destruct (addConstantVelocityFactor s3) as [s4 |] eqn:E4; simpl in H;
    [| done].
  destruct (addStablePoseFactor s4) as [s5 |] eqn:E5; simpl in H; [| done].
  destruct (if b then Some s5 else _) as [s6 |] eqn:E6; simpl in H; [| done].
  destruct (if b then saveKeyPose _ else _) as [s8 |] eqn:E8; simpl in H;
    [| done].
  exists b, s1, s6, s8.
  apply propagateObjectPoses_untouched in E2.
  apply addDetectionFactor_untouched in E3.
  apply addConstantVelocityFactor_untouched in E4.
  apply addStablePoseFactor_untouched in E5.
  assert (untouched s5 s6) as E6'.
  { destruct b; [by simplify_eq | by apply eraseLatestEgoPose_untouched]. }
  split; [done|]. split; [done|]. split; [|done].
  repeat (eapply untouched_trans; [eassumption |]). apply untouched_refl.
Qed.
Lemma updateISAM_frame (s : mapOptimization) :
  keyFrames (updateISAM s) = keyFrames s
  /\ closures (updateISAM s) = closures s
  /\ tracker (updateISAM s) = tracker s
  /\ outputs (updateISAM s) = outputs s
  /\ matcher (updateISAM s) = matcher s
  /\ clock (updateISAM s) = clock s.
Proof.
  unfold updateISAM.
  destruct (aLoopIsClosed s) eqn:E; cbn; rewrite ?E; cbn;
    by destruct (gtSAMgraphForLooselyCoupledObjects s).
Qed.

Lemma saveKeyFramesAndFactor_keyframes (s s' : mapOptimization) (b : bool) :
  saveFrame s = Some b ->
  saveKeyFramesAndFactor s = Some s' ->
  length (cloudKeyPoses3D s')
  = (length (cloudKeyPoses3D s) + (if b then 1 else 0))%nat
  /\ length (cloudKeyPoses6D s')
    = (length (cloudKeyPoses6D s) + (if b then 1 else 0))%nat
  /\ length (keyPoseIndices s')
    = (length (keyPoseIndices s) + (if b then 1 else 0))%nat.
Proof.
  intros Hb H. apply saveKeyFramesAndFactor_steps in H.
  destruct H as (b' & s1 & s6 & s8 & Hb' & H1 & H16 & H8 & H').
  rewrite Hb in Hb'. simplify_eq.
  apply saveObjects_untouched in H'. destruct H' as [(Hk & _) _].
  unfold cloudKeyPoses3D, cloudKeyPoses6D, keyPoseIndices in *. rewrite Hk.
  destruct H16 as (Hk6 & _).
  assert (keyFrames (updateISAM s6) = keyFrames s1) as Hk7.
  { destruct (updateISAM_frame s6) as (-> & _). done. }
  destruct b'.
  - apply addKeyFrameFactors_frame in H1.
    destruct H1 as (H3 & H6 & Hi & _).
    apply saveKeyPose_frame in H8.
    destruct H8 as (p3 & p6 & E3 & E6 & Ei & _).
    unfold cloudKeyPoses3D, cloudKeyPoses6D, keyPoseIndices in *.
    rewrite E3, E6, Ei, Hk7, H3, H6, Hi. rewrite !length_app. simpl. lia.
  - apply insertLatestEgoPose_untouched in H1.
    destruct H1 as [(Hk1 & _) _]. simplify_eq. rewrite Hk7, Hk1. lia.
Qed.

(** C9 (amended). A sweep becomes a key frame unless, relative to the last
    key frame, the three absolute Euler angles are all below
    [surroundingkeyframeAddingAngleThreshold] and the translation is below
    [surroundingkeyframeAddingDistThreshold]: an angle or a translation
    equal to its threshold adds a key frame. The translation is
    [sqrt(x * x + y * y + z * z)] as [float] computes it. The first frame is
    always a key frame and receives a prior factor at the current pose;
    every later key frame adds a [BetweenFactor] whose relative pose is
    [posePrev^-1 * poseCur] for the pose stored for the last key frame and
    the current pose. [saveKeyFramesAndFactor] stores one key frame when the
    decision is positive and none otherwise. *)
Theorem keyframe_decision (s : mapOptimization) :
  (cloudKeyPoses3D s = [] ->
   saveFrame s = Some true
   /\ forall s' : mapOptimization,
       addOdomFactor s = Some s' ->
       gtSAMgraph s'
       = gtSAMgraph s
         ++ [PriorFactor 0 (trans2gtsamPose (transformTobeMapped s))
               (Variances priorOdometryDiagonalVarianceEigenVector)])
  /\ (cloudKeyPoses3D s <> [] ->
     (forall m, transBetween s = Some m ->
                saveFrame s = Some (negb (belowThresholds m)))
     /\ (forall x y z roll pitch yaw : float,
           transBetween s = Some (x, y, z, roll, pitch, yaw) ->
           saveFrame s = Some false
           <-> (fabs roll <? surroundingkeyframeAddingAngleThreshold)%float
               = true
               /\ (fabs pitch <? surroundingkeyframeAddingAngleThreshold)%float
                  = true
               /\ (fabs yaw <? surroundingkeyframeAddingAngleThreshold)%float
                  = true
               /\ (Float32.sqrt
                     (Float32.add
                        (Float32.add (Float32.mul x x) (Float32.mul y y))
                        (Float32.mul z z))
                   <? surroundingkeyframeAddingDistThreshold)%float = true)
     /\ forall s' : mapOptimization,
         addOdomFactor s = Some s' ->
         exists (previousKeyIndex : Z) (lastPose : PointTypePose),
           back (keyPoseIndices s) = Some previousKeyIndex
           /\ back (cloudKeyPoses6D s) = Some lastPose
           /\ gtSAMgraph s'
             = gtSAMgraph s
               ++ [BetweenFactor previousKeyIndex (numberOfNodes s)
                     (Pose3_compose
                        (Pose3_inverse (pclPointTogtsamPose3 lastPose))
                        (trans2gtsamPose (transformTobeMapped s)))
                     (Variances odometryDiagonalVarianceEigenVector)])
  /\ (forall (b : bool) (s' : mapOptimization),
        saveFrame s = Some b ->
        saveKeyFramesAndFactor s = Some s' ->
        length (cloudKeyPoses3D s')
        = (length (cloudKeyPoses3D s) + (if b then 1 else 0))%nat).
Proof.
  split; [| split].
  - intros He. unfold saveFrame, addOdomFactor. rewrite He.
    split; [done |]. intros s' H. crunch.
  - intros Hne. unfold saveFrame, addOdomFactor.
    destruct (cloudKeyPoses3D s) as [| p l]; [done |]. split; [| split].
    + intros m Hm. rewrite Hm. simpl. by destruct (belowThresholds m).
    + intros x y z roll pitch yaw Hm. rewrite Hm.
      cbn [mbind option_bind]. unfold belowThresholds, translationNorm.
      destruct (fabs roll <? _)%float;
        destruct (fabs pitch <? _)%float;
        destruct (fabs yaw <? _)%float;
        destruct (Float32.sqrt _ <? _)%float; cbn;
        split; try done; intros (? & ? & ? & ?); done.
    + intros s' H.
      destruct (back (keyPoseIndices s)) as [k |]; simpl in H; [| done].
      destruct (back (cloudKeyPoses6D s)) as [lastPose |]; simpl in H;
        [| done].
      exists k, lastPose. split; [done |]. split; [done |]. crunch.
  - intros b s' Hb H.
    by destruct (saveKeyFramesAndFactor_keyframes s s' b Hb H).
Qed.

(** ** Loop closure: the extra sweeps of the solver and the correction *)

Lemma correctPoses_loop_spec (indices : list Z) :
  forall (i : nat) (s s' : mapOptimization),
    correctPoses_loop indices i s = Some s' ->
    length (cloudKeyPoses3D s') = length (cloudKeyPoses3D s)
    /\ length (cloudKeyPoses6D s') = length (cloudKeyPoses6D s)
    /\ (forall j : nat, (j < i)%nat ->
          cloudKeyPoses3D s' !! j = cloudKeyPoses3D s !! j
          /\ cloudKeyPoses6D s' !! j = cloudKeyPoses6D s !! j)
    /\ (forall (j : nat) (poseIndex : Z),
          indices !! j = Some poseIndex ->
          exists (estimate : Pose3) (p3 : PointType) (p6 : PointTypePose),
            isamCurrentEstimate s !! poseIndex = Some estimate
            /\ cloudKeyPoses3D s !! (i + j)%nat = Some p3
            /\ cloudKeyPoses6D s !! (i + j)%nat = Some p6
            /\ cloudKeyPoses3D s' !! (i + j)%nat
              = Some (correctedPose3D (Pose3_rpyxyz estimate) p3)
            /\ cloudKeyPoses6D s' !! (i + j)%nat
              = Some (correctedPose6D (Pose3_rpyxyz estimate) p6))
    /\ globalPath s'
      = globalPath s
        ++ map poseStampedOf
             (take (length indices) (drop i (cloudKeyPoses6D s')))
    /\ isamCurrentEstimate s' = isamCurrentEstimate s
    /\ keyPoseIndices s' = keyPoseIndices s
    /\ laserCloudMapContainer s' = laserCloudMapContainer s
    /\ closures s' = closures s /\ tracker s' = tracker s
    /\ isam s' = isam s /\ outputs s' = outputs s.
Proof.
  induction indices as [| poseIndex rest IH]; intros i s s' H; simpl in H.
  - simplify_eq. split_and!; try done.
    by rewrite app_nil_r.
  - unfold Values_at in H.
    destruct (isamCurrentEstimate s !! poseIndex) as [estimate |] eqn:Ee;
      simpl in H; [| done].
    destruct (cloudKeyPoses3D s !! i) as [p3 |] eqn:E3; simpl in H; [| done].
    destruct (cloudKeyPoses6D s !! i) as [p6 |] eqn:E6; simpl in H; [| done].
    apply IH in H. clear IH. simpl in H.
    destruct H as (H3 & H6 & Hlt & Hin & Hp & He & Hk & Hc & Hcl & Ht & Hi & Ho).
    rewrite length_insert in H3. rewrite length_insert in H6.
    pose proof (lookup_lt_Some _ _ _ E3) as L3.
    pose proof (lookup_lt_Some _ _ _ E6) as L6.
    destruct (Hlt i ltac:(lia)) as [Hi3 Hi6].
    rewrite list_lookup_insert_eq in Hi3 by done.
    rewrite list_lookup_insert_eq in Hi6 by done.
    split_and!; try done.
    + intros j Hj. destruct (Hlt j ltac:(lia)) as [Hj3 Hj6].
      rewrite list_lookup_insert_ne in Hj3 by lia.
      rewrite list_lookup_insert_ne in Hj6 by lia. done.
    + intros j k Hjk. destruct j as [| j]; simpl in Hjk.
      * simplify_eq. rewrite Nat.add_0_r.
        exists estimate, p3, p6. done.
      * destruct (Hin j k Hjk) as (e' & q3 & q6 & A & B & C & D & E).
        rewrite list_lookup_insert_ne in B by lia.
        rewrite list_lookup_insert_ne in C by lia.
        replace (i + S j)%nat with (S i + j)%nat by lia.
        exists e', q3, q6. simpl. done.
    + rewrite Hp. cbn. rewrite <- app_assoc. f_equal.
      rewrite (drop_S _ _ _ Hi6). done.
Qed.




(** ** The history of velocity nodes *)

Lemma Epoch_find_assign_eq (k : Z) (o : ObjectState) (e : Epoch) :
  Epoch_find k (Epoch_assign k o e) = Some o.
Proof.
  induction e as [| [k' o'] e IH]; simpl.
  - by rewrite Z.eqb_refl.
  - destruct (Z.ltb_spec k k'); simpl.
    + by rewrite Z.eqb_refl.
    + destruct (Z.eqb_spec k k'); simpl.
      * by rewrite Z.eqb_refl.
      * destruct (Z.eqb_spec k k'); [done | apply IH].
Qed.

Lemma Epoch_find_assign_ne (k k' : Z) (o : ObjectState) (e : Epoch) :
  k <> k' -> Epoch_find k' (Epoch_assign k o e) = Epoch_find k' e.
Proof.
  intros Hne. induction e as [| [k1 o1] e IH]; simpl.
  - by destruct (Z.eqb_spec k' k).
  - destruct (Z.ltb_spec k k1); simpl.
    + by destruct (Z.eqb_spec k' k).
    + destruct (Z.eqb_spec k k1); simpl.
      * subst. destruct (Z.eqb_spec k' k1); [done |]. done.
      * destruct (Z.eqb_spec k' k1); [done | apply IH].
Qed.

Lemma mapM_ext_seq {A : Type} (f g : nat -> option A) (start n : nat) :
  (forall i : nat, (start <= i < start + n)%nat -> f i = g i) ->
  mapM f (seq start n) = mapM g (seq start n).
Proof.
  revert start. induction n as [| n IH]; intros start H; [done |].
  simpl. rewrite (H start) by lia.
  rewrite (IH (S start)); [done |]. intros i Hi. apply H. lia.
Qed.

Lemma velocitySamples_last (prefix prev : list Z) (n : nat)
    (currentEstimates : gmap Z Pose3) :
  (n <= length prev)%nat ->
  velocitySamples (prefix ++ prev) n currentEstimates
  = velocitySamples prev n currentEstimates.
Proof.
  intros Hn. unfold velocitySamples. apply mapM_ext_seq. intros i Hi.
  rewrite length_app.
  replace (length prefix + length prev - i - 1)%nat
    with (length prefix + (length prev - i - 1))%nat by lia.
  by rewrite lookup_app_r, Nat.add_comm, Nat.add_sub by lia.
Qed.

Lemma velocityIsConsistent_last (o : ObjectState) (prefix : list Z)
    (samplingSize : Z) (currentEstimates : gmap Z Pose3)
    (angleThreshold velocityThreshold : float) :
  samplingSize <= Z.of_nat (length (previousVelocityNodeIndices o)) ->
  velocityIsConsistent
    (set_previousVelocityNodeIndices
       (prefix ++ previousVelocityNodeIndices o) o)
    samplingSize currentEstimates angleThreshold velocityThreshold
  = velocityIsConsistent o samplingSize currentEstimates angleThreshold
                         velocityThreshold.
Proof.
  intros Hk. unfold velocityIsConsistent. cbn. rewrite length_app.
  destruct (Z.ltb_spec (Z.of_nat (length (previousVelocityNodeIndices o)))
                       samplingSize); [lia |].
  destruct (Z.ltb_spec
              (Z.of_nat (length prefix + length (previousVelocityNodeIndices o)))
              samplingSize); [lia |].
  destruct (Z.ltb_spec samplingSize 0); [done |].
  rewrite velocitySamples_last by lia. done.
Qed.

Lemma associateObject_history k inv i o s a o' s' a' :
  associateObject k inv i o s a = Some (o', s', a') ->
  previousVelocityNodeIndices o' = previousVelocityNodeIndices o
  /\ objectIndex o' = objectIndex o
  /\ isFirst o' = isFirst o
  /\ poseNodeIndex o' = poseNodeIndex o
  /\ velocityNodeIndex o' = velocityNodeIndex o.
Proof.
  unfold associateObject, coupleObject, moveToLooselyCoupled. intros H. crunch.
Qed.

(** C10 (amended). The history of previous velocity node ids of a track
    is a vector that only grows: a propagation appends one entry, the
    velocity node of the previous epoch, when the track is not lost, and
    copies the history otherwise; data association leaves it as it is; so
    its length is not bounded by
    [K = numberOfVelocityConsistencySteps]. The velocity-consistency test
    reads the last [K] entries only: entries before them do not change its
    result. *)
Theorem velocity_history_grows (first : Z) (second : ObjectState)
    (s s' : mapOptimization) (nextObjects nextObjects' : Epoch) :
  lostCount second <= trackingStepsForLostObject ->
  propagateObject (first, second) (s, nextObjects) = Some (s', nextObjects') ->
  (exists nextObject : ObjectState,
      Epoch_find first nextObjects' = Some nextObject
      /\ previousVelocityNodeIndices nextObject
        = previousVelocityNodeIndices second
          ++ (if lostCount second =? 0 then [velocityNodeIndex second]
              else []))
  /\ (forall k inv i o s0 a o' s1 a',
        associateObject k inv i o s0 a = Some (o', s1, a') ->
        previousVelocityNodeIndices o' = previousVelocityNodeIndices o)
  /\ (forall (o : ObjectState) (older : list Z) (estimates : gmap Z Pose3)
            (angleThreshold velocityThreshold : float),
        numberOfVelocityConsistencySteps
        <= Z.of_nat (length (previousVelocityNodeIndices o)) ->
        velocityIsConsistent
          (set_previousVelocityNodeIndices
             (older ++ previousVelocityNodeIndices o) o)
          numberOfVelocityConsistencySteps estimates angleThreshold
          velocityThreshold
        = velocityIsConsistent o numberOfVelocityConsistencySteps estimates
                               angleThreshold velocityThreshold).
Proof.
  intros Hl H. split_and!.
  - unfold propagateObject in H.
    destruct (Z.gtb_spec (lostCount second) trackingStepsForLostObject);
      [lia |].
    destruct (Z.eqb_spec (lostCount second) 0).
    + unfold Values_insert in H. crunch.
      eexists. split; [apply Epoch_find_assign_eq |]. done.
    + simplify_eq. eexists. split; [apply Epoch_find_assign_eq |].
      cbn. by rewrite app_nil_r.
  - intros k inv i o s0 a o' s1 a' Ha.
    by destruct (associateObject_history _ _ _ _ _ _ _ _ _ Ha).
  - intros o older estimates angleThreshold velocityThreshold.
    apply velocityIsConsistent_last.
Qed.

(** ** Data association: the matching profile and the coupling gate *)

(** C4 (amended). In data association a track whose [trackScore] is at
    least [P = numberOfPreLooseCouplingSteps] (that is [P] or [P + 1], the
    tracks that the match can take to [P + 1]) is matched against the
    loosely-coupled-matching profile; any other track whose path has at
    most [numberOfEarlySteps] points is matched against the
    early-loosely-coupled-matching profile, and every remaining track
    against the loosely-coupled-matching profile. The length of the path
    is unsigned and [numberOfEarlySteps] is converted for the comparison:
    this changes nothing when it is not negative, and a negative
    [numberOfEarlySteps] makes every track below [P] an early one. The
    vector of a profile holds the boxes of the step with the variances of
    that profile. *)
Theorem matching_profile_selection (object : ObjectState)
    (s : mapOptimization) (size : Z) :
  Marker_pointsSize (objectIndex object) (objectPaths s) = Some size ->
  matchingProfile object s
  = Some (if numberOfPreLooseCouplingSteps <=? trackScore object
          then LooselyCoupledMatching
          else if size <=? toUint64 numberOfEarlySteps
               then EarlyLooselyCoupledMatching
               else LooselyCoupledMatching)
  /\ (0 <= numberOfEarlySteps < 2 ^ 31 ->
      matchingProfile object s
      = Some (if numberOfPreLooseCouplingSteps <=? trackScore object
              then LooselyCoupledMatching
              else if size <=? numberOfEarlySteps
                   then EarlyLooselyCoupledMatching
                   else LooselyCoupledMatching))
  /\ (- 2 ^ 31 <= numberOfEarlySteps < 0 -> size < 2 ^ 63 ->
      trackScore object < numberOfPreLooseCouplingSteps ->
      matchingProfile object s = Some EarlyLooselyCoupledMatching)
  /\ (forall (boxes : list BoundingBox) (p : MatchingProfile),
        matchingVector p (buildDetectionVectors boxes s)
        = map (fun b => mkDetection b (matchingVariances p)) boxes)
  /\ (forall k inv i a object' s' a',
        associateObject k inv i object s a = Some (object', s', a') ->
        exists (p : MatchingProfile) (j : nat) (error : float),
          matchingProfile object s = Some p
          /\ getDetectionIndexAndError (Pose3_compose inv (pose object))
                                       (matchingVector p s) = (j, error)
          /\ if (error <? detectionMatchThreshold)%float
             then if lostCount object >? 0
                  then lostCount object' = INT_MAX
                  else lostCount object' = 0
                       /\ detections s !! j = Some (detection object')
             else trackScore object' = 0
                  /\ (lostCount object' = lostCount object + 1
                      \/ lostCount object' = INT_MAX)).
Proof.
  intros Hsize.
  assert (matchingProfile object s
          = Some (if numberOfPreLooseCouplingSteps <=? trackScore object
                  then LooselyCoupledMatching
                  else if size <=? toUint64 numberOfEarlySteps
                       then EarlyLooselyCoupledMatching
                       else LooselyCoupledMatching)) as Hprofile.
  { unfold matchingProfile. rewrite Z.geb_leb.
    destruct (_ <=? trackScore object); [done |].
    rewrite Hsize. simpl.
    by destruct (size <=? toUint64 numberOfEarlySteps). }
  split_and!.
  - exact Hprofile.
  - intros Hn. rewrite Hprofile. unfold toUint64, wrap64.
    rewrite Z.mod_small by lia. done.
  - intros Hn Hs Ht. rewrite Hprofile.
    destruct (Z.leb_spec numberOfPreLooseCouplingSteps (trackScore object));
      [lia |].
    unfold toUint64, wrap64.
    replace (numberOfEarlySteps mod 2 ^ 64) with (numberOfEarlySteps + 2 ^ 64).
    + destruct (Z.leb_spec size (numberOfEarlySteps + 2 ^ 64)); [done | lia].
    + apply Z.mod_unique with (q := -1); lia.
  - intros boxes p. by destruct p.
  - intros k inv i a object' s' a' H. unfold associateObject in H.
    destruct (matchingProfile object s) as [p |]; simpl in H; [| done].
    destruct (getDetectionIndexAndError _ (matchingVector p s))
      as [j error] eqn:Ematch.
    exists p, j, error. split; [done |]. split; [done |].
    destruct (getDetectionIndexAndError _ (dataAssociationVector s))
      as [dj derror].
    unfold coupleObject, moveToLooselyCoupled in H.
    destruct (error <? detectionMatchThreshold)%float.
    + destruct (lostCount object >? 0); crunch.
    + crunch; (split; [done |]); first [by left | by right].
Qed.





(** ** The tracks across the tracker functions *)

Lemma tracedFor_refl L (s : mapOptimization) : tracedFor L s s.
Proof. exists []. by rewrite app_nil_r. Qed.

Lemma tracedFor_trans L (s1 s2 s3 : mapOptimization) :
  tracedFor L s1 s2 -> tracedFor L s2 s3 -> tracedFor L s1 s3.
Proof.
  intros (a1 & E1 & F1) (a2 & E2 & F2). exists (a1 ++ a2).
  split; [by rewrite E2, E1, app_assoc | by apply Forall_app].
Qed.

Lemma tracedFor_weaken (L L' : Z -> Prop) (s s' : mapOptimization) :
  (forall z, L z -> L' z) -> tracedFor L s s' -> tracedFor L' s s'.
Proof.
  intros HL (a & E & F). exists a. split; [done |].
  eapply Forall_impl; [exact F |]. intros e. apply HL.
Qed.

Lemma tracedFor_same L (s s' : mapOptimization) :
  factorTrace s' = factorTrace s -> tracedFor L s s'.
Proof. intros E. exists []. by rewrite app_nil_r. Qed.

Lemma tracedFor_one L (s s' : mapOptimization) owner f :
  L owner -> factorTrace s' = factorTrace s ++ [(owner, f)] -> tracedFor L s s'.
Proof. intros HL E. exists [(owner, f)]. split; [done |]. by constructor. Qed.

Lemma tracedFor_two L (s s' : mapOptimization) owner f g :
  L owner ->
  factorTrace s' = (factorTrace s ++ [(owner, f)]) ++ [(owner, g)] ->
  tracedFor L s s'.
Proof.
  intros HL E. exists [(owner, f); (owner, g)].
  split; [by rewrite E, <- app_assoc |]. by repeat constructor.
Qed.

Lemma elem_of_Epoch_assign (p : Z * ObjectState) (k : Z) (o : ObjectState)
    (e : Epoch) :
  p ∈ Epoch_assign k o e -> p = (k, o) \/ p ∈ e.
Proof.
  induction e as [| [k' o'] e IH]; simpl.
  - intros H. apply list_elem_of_singleton in H. by left.
  - destruct (k <? k'); [| destruct (k =? k')].
    + intros H. apply elem_of_cons in H. destruct H; [by left | by right].
    + intros H. apply elem_of_cons in H.
      destruct H; [by left | right; by apply elem_of_cons; right].
    + intros H. apply elem_of_cons in H. destruct H as [-> | H].
      * right. by apply elem_of_cons; left.
      * destruct (IH H); [by left | right; by apply elem_of_cons; right].
Qed.

Lemma associateObject_associated k inv i o s a o' s' a' :
  associateObject k inv i o s a = Some (o', s', a') ->
  associated o o'
  /\ objects s' = objects s /\ sameRegistry s s'
  /\ tracedFor (fun z => z = objectIndex o) s s'.
Proof.
  unfold associateObject, coupleObject, moveToLooselyCoupled, associated,
    matchedScore, sameRegistry.
  intros H.
  crunch; cbn;
    (split_and!; try done;
     [ first [ by left | by right; left | by right; right; left
             | right; right; right; cbn in *; split; [lia | done]
             | idtac ] .. ]).
  all: try (by apply tracedFor_same).
  all: try (by eapply tracedFor_one; [| reflexivity]).
Qed.

Lemma associateObjects_tracks k inv (l : Epoch) :
  forall i (s : mapOptimization) a l' (s' : mapOptimization) a',
    associateObjects k inv i l s a = Some (l', s', a') ->
    tracks associated l l'
    /\ objects s' = objects s /\ sameRegistry s s'
    /\ tracedFor (fun z => exists p, p ∈ l /\ z = objectIndex p.2) s s'.
Proof.
  induction l as [| [key o] l IH]; intros i s a l' s' a' H; simpl in H.
  - simplify_eq. split_and!; try done; [constructor | apply tracedFor_refl].
  - destruct (associateObject _ _ _ _ _ _) as [[[o1 s1] a1] |] eqn:E1;
      simpl in H; [| done].
    destruct (associateObjects _ _ _ _ _ _) as [[[l2 s2] a2] |] eqn:E2;
      simpl in H; [| done].
    simplify_eq.
    apply associateObject_associated in E1.
    destruct E1 as (Ha & Ho & (Hn & Hd & Hv) & Ht).
    apply IH in E2. destruct E2 as (Hl & Ho2 & (Hn2 & Hd2 & Hv2) & Ht2).
    split_and!.
    + by constructor.
    + congruence.
    + unfold sameRegistry. split_and!; congruence.
    + eapply tracedFor_trans.
      * eapply tracedFor_weaken; [| exact Ht]. intros z ->.
        exists (key, o). split; [apply elem_of_cons; by left | done].
      * eapply tracedFor_weaken; [| exact Ht2]. intros z (p & Hp & ->).
        exists p. split; [apply elem_of_cons; by right | done].
Qed.

Lemma loseObjects_tracks (l : Epoch) :
  forall (s : mapOptimization) l' (s' : mapOptimization),
    loseObjects l s = Some (l', s') ->
    tracks (fun o o' => objectIndex o' = objectIndex o
                        /\ trackScore o' = trackScore o
                        /\ lostCount o' = lostCount o + 1) l l'
    /\ objects s' = objects s /\ sameRegistry s s'
    /\ factorTrace s' = factorTrace s.
Proof.
  induction l as [| [key o] l IH]; intros s l' s' H; simpl in H.
  - simplify_eq. split_and!; try done. constructor.
  - destruct (Marker_setScale _ _ _) as [m |]; simpl in H; [| done].
    destruct (loseObjects l _) as [[l2 s2] |] eqn:E; simpl in H; [| done].
    simplify_eq. apply IH in E. destruct E as (Hl & Ho & Hr & Ht).
    split_and!; try done. by constructor.
Qed.

Lemma forEach_cons_Some {A S : Type} (body : A -> S -> option S) x l s s' :
  forEach body (x :: l) s = Some s' ->
  exists s1, body x s = Some s1 /\ forEach body l s1 = Some s'.
Proof.
  cbn [forEach]. intros H. destruct (body x s) as [s1 |]; [| done].
  by exists s1.
Qed.

Lemma propagateObject_spec first second (s : mapOptimization) nextObjects
    (s' : mapOptimization) nextObjects' :
  propagateObject (first, second) (s, nextObjects) = Some (s', nextObjects') ->
  tracker s' = tracker s /\ factorTrace s' = factorTrace s
  /\ forall p' : Z * ObjectState,
      p' ∈ nextObjects' ->
      p' ∈ nextObjects
      \/ (p'.1 = first /\ lostCount second <= trackingStepsForLostObject
          /\ sameTrack second p'.2 /\ isFirst p'.2 = false).
Proof.
  unfold propagateObject. intros H.
  destruct (Z.gtb_spec (lostCount second) trackingStepsForLostObject).
  - simplify_eq. split_and!; try done. by left.
  - destruct (lostCount second =? 0).
    + unfold Values_insert in H. crunch. split_and!; try done.
      intros p' Hp. apply elem_of_Epoch_assign in Hp.
      destruct Hp as [-> | Hp]; [right | by left]. done.
    + simplify_eq. split_and!; try done.
      intros p' Hp. apply elem_of_Epoch_assign in Hp.
      destruct Hp as [-> | Hp]; [right | by left]. done.
Qed.

Lemma propagateObjects_spec (l : Epoch) :
  forall (s : mapOptimization) acc (s' : mapOptimization) acc',
    forEach propagateObject l (s, acc) = Some (s', acc') ->
    tracker s' = tracker s /\ factorTrace s' = factorTrace s
    /\ forall p' : Z * ObjectState,
        p' ∈ acc' ->
        p' ∈ acc
        \/ exists o : ObjectState,
            (p'.1, o) ∈ l /\ lostCount o <= trackingStepsForLostObject
            /\ sameTrack o p'.2 /\ isFirst p'.2 = false.
Proof.
  induction l as [| [first second] l IH]; intros s acc s' acc' H.
  - simpl in H. simplify_eq. split_and!; try done. by left.
  - apply forEach_cons_Some in H. destruct H as ([s1 acc1] & E & H).
    apply propagateObject_spec in E. destruct E as (Ht1 & Hf1 & Hin1).
    apply IH in H. destruct H as (Ht & Hf & Hin).
    split_and!; [congruence | congruence |].
    intros p' Hp. destruct (Hin p' Hp) as [Hacc1 | (o & Ho & ?)].
    + destruct (Hin1 p' Hacc1) as [? | (<- & ? & ? & ?)]; [by left |].
      right. exists second. split; [| done].
      apply elem_of_cons. left. by destruct p'.
    + right. exists o. split; [by apply elem_of_cons; right | done].
Qed.

Lemma propagateObjectPoses_spec (s s' : mapOptimization) :
  propagateObjectPoses s = Some s' ->
  numberOfRegisteredObjects s' = numberOfRegisteredObjects s
  /\ detections s' = detections s
  /\ factorTrace s' = factorTrace s
  /\ exists nextObjects : Epoch,
      objects s' = objects s ++ [nextObjects]
      /\ forall p' : Z * ObjectState,
          p' ∈ nextObjects ->
          exists (lastObjects : Epoch) (o : ObjectState),
            back (objects s) = Some lastObjects
            /\ (p'.1, o) ∈ lastObjects
            /\ lostCount o <= trackingStepsForLostObject
            /\ sameTrack o p'.2 /\ isFirst p'.2 = false.
Proof.
  unfold propagateObjectPoses. intros H.
  destruct (back (objects s)) as [lastObjects |] eqn:Eb.
  - destruct (forEach propagateObject lastObjects (s, [])) as [[s1 e1] |]
      eqn:E; simpl in H; [| done].
    simplify_eq. apply propagateObjects_spec in E.
    destruct E as (Ht & Hf & Hin). cbn.
    split_and!; try (by rewrite ?Ht, ?Hf).
    exists e1. split; [by rewrite Ht |].
    intros p' Hp. destruct (Hin p' Hp) as [Hnil | (o & ?)].
    + by apply elem_of_nil in Hnil.
    + by exists lastObjects, o.
  - simplify_eq. split_and!; try done. exists []. split; [done |].
    intros p' Hp. by apply elem_of_nil in Hp.
Qed.

(** ** Births *)

Lemma registerObject_spec k e a idx (s s' : mapOptimization) :
  registerObject k e a idx s = Some s' ->
  detections s' = detections s /\ detectionVector s' = detectionVector s
  /\ ((objects s' = objects s
       /\ numberOfRegisteredObjects s' = numberOfRegisteredObjects s
       /\ factorTrace s' = factorTrace s)
      \/ exists (current : Epoch) (o : ObjectState) f g,
          back (objects s) = Some current
          /\ objects s'
             = removelast (objects s)
               ++ [Epoch_assign (numberOfRegisteredObjects s) o current]
          /\ objectIndex o = numberOfRegisteredObjects s
          /\ trackScore o = 0 /\ lostCount o = 0
          /\ numberOfRegisteredObjects s'
             = wrap64 (numberOfRegisteredObjects s + 1)
          /\ factorTrace s'
             = (factorTrace s ++ [(numberOfRegisteredObjects s, f)])
               ++ [(numberOfRegisteredObjects s, g)]).
Proof.
  unfold registerObject, newNode. intros H.
  destruct (negb _).
  { simplify_eq. split_and!; try done. by left. }
  crunch; cbn; (split_and!; try done); right;
    eexists _, _, _, _; (split_and!; try done);
    done.
Qed.

Lemma keys_Epoch_assign (k : Z) (o : ObjectState) (e : Epoch) (z : Z) :
  z ∈ keys (Epoch_assign k o e) -> z = k \/ z ∈ keys e.
Proof.
  unfold keys. intros H. apply list_elem_of_fmap in H.
  destruct H as (p & -> & Hp). apply elem_of_Epoch_assign in Hp.
  destruct Hp as [-> | Hp]; [by left | right].
  apply list_elem_of_fmap. by exists p.
Qed.

Lemma Epoch_assign_sorted (k : Z) (o : ObjectState) (e : Epoch) :
  keysSorted e -> keysSorted (Epoch_assign k o e).
Proof.
  unfold keysSorted. induction e as [| [k' o'] e IH]; intros H; simpl.
  - repeat constructor.
  - apply StronglySorted_inv in H. destruct H as [Hs Hf]. cbn in Hf.
    destruct (Z.ltb_spec k k').
    + cbn. constructor; [by constructor |]. constructor; [done |].
      eapply Forall_impl; [exact Hf |]. cbn. intros; lia.
    + destruct (Z.eqb_spec k k') as [-> | Hne]; cbn.
      * by constructor.
      * constructor; [by apply IH |].
        apply Forall_forall. intros z Hz.
        apply keys_Epoch_assign in Hz. destruct Hz as [-> | Hz]; [lia |].
        rewrite Forall_forall in Hf. by apply Hf.
Qed.

Lemma back_snoc {A : Type} (l : list A) (x : A) : back (l ++ [x]) = Some x.
Proof. apply last_snoc. Qed.

Lemma removelast_snoc {A : Type} (l : list A) (x : A) :
  removelast (l ++ [x]) = l.
Proof. apply removelast_last. Qed.

Lemma removelast_back {A : Type} (l : list A) (x : A) :
  back l = Some x -> removelast l ++ [x] = l.
Proof.
  destruct l as [| y l] using rev_ind; [done |].
  rewrite back_snoc, removelast_snoc. intros. by simplify_eq.
Qed.

Lemma wrap64_small (z : Z) : 0 <= z < 2 ^ 64 -> wrap64 z = z.
Proof. unfold wrap64. intros H. by apply Z.mod_small. Qed.

Lemma registerObjects_spec k e a (idxs : list nat) :
  forall (s s' : mapOptimization) (current : Epoch),
    forEach (registerObject k e a) idxs s = Some s' ->
    back (objects s) = Some current ->
    let c := numberOfRegisteredObjects s in
    let room := 0 <= c /\ c + Z.of_nat (length idxs) < 2 ^ 64 in
    detections s' = detections s /\ detectionVector s' = detectionVector s
    /\ (room -> c <= numberOfRegisteredObjects s' <= c + Z.of_nat (length idxs))
    /\ tracedFor (fun z => room -> c <= z < numberOfRegisteredObjects s') s s'
    /\ exists current' : Epoch,
        objects s' = removelast (objects s) ++ [current']
        /\ (keysSorted current -> keysSorted current')
        /\ forall p' : Z * ObjectState,
            p' ∈ current' ->
            p' ∈ current
            \/ (objectIndex p'.2 = p'.1 /\ newborn p'.2
                /\ (room -> c <= p'.1 < numberOfRegisteredObjects s')).
Proof.
  induction idxs as [| idx idxs IH]; intros s s' current H Hb c room.
  - simpl in H. simplify_eq. split_and!; try done.
    + subst c room. cbn. lia.
    + apply tracedFor_refl.
    + exists current. split_and!; [| done | by left].
      symmetry. by apply removelast_back.
  - apply forEach_cons_Some in H. destruct H as (s1 & E & H).
    apply registerObject_spec in E.
    destruct E as (Hd & Hv & [(Ho & Hn & Ht) | E]).
    + rewrite <- Ho in Hb. specialize (IH s1 s' current H Hb).
      cbn zeta in IH. rewrite Hn, Ho in IH.
      destruct IH as (Hd' & Hv' & Hc' & Ht' & cur' & Ho' & Hs' & He').
      assert (room ->
              0 <= numberOfRegisteredObjects s
              /\ numberOfRegisteredObjects s + Z.of_nat (length idxs) < 2 ^ 64)
        as Hroom.
      { subst room c. cbn [length]. lia. }
      split_and!; try congruence.
      * intros Hr. specialize (Hc' (Hroom Hr)). subst c. cbn [length]. lia.
      * eapply tracedFor_trans; [by apply tracedFor_same |].
        eapply tracedFor_weaken; [| exact Ht']. cbn. intros z Hz Hr.
        apply Hz. by apply Hroom.
      * exists cur'. split_and!; [done | done |].
        intros p' Hp. destruct (He' p' Hp) as [? | (? & ? & Hk)]; [by left |].
        right. split_and!; try done. intros Hr. apply Hk. by apply Hroom.
    + destruct E as (cur0 & o & f & g & Hb0 & Ho & Hi & Hts & Hlc & Hn & Ht).
      rewrite Hb in Hb0. simplify_eq.
      assert (back (objects s1)
              = Some (Epoch_assign (numberOfRegisteredObjects s) o cur0))
        as Hb1 by (rewrite Ho; apply back_snoc).
      specialize (IH s1 s' _ H Hb1). cbn zeta in IH.
      destruct IH as (Hd' & Hv' & Hc' & Ht' & cur' & Ho' & Hs' & He').
      rewrite Ho, removelast_snoc in Ho'.
      assert (room ->
              numberOfRegisteredObjects s1 = numberOfRegisteredObjects s + 1
              /\ 0 <= numberOfRegisteredObjects s1
              /\ numberOfRegisteredObjects s1 + Z.of_nat (length idxs) < 2 ^ 64)
        as Hroom.
      { subst room c. cbn [length]. intros Hr. rewrite Hn.
        rewrite wrap64_small by lia. lia. }
      split_and!; try congruence.
      * intros Hr. destruct (Hroom Hr) as (Hn1 & Hr1). specialize (Hc' Hr1).
        subst c. cbn [length]. lia.
      * eapply tracedFor_trans.
        -- eapply tracedFor_two; [| exact Ht]. intros Hr.
           destruct (Hroom Hr) as (Hn1 & Hr1). specialize (Hc' Hr1).
           subst c. lia.
        -- eapply tracedFor_weaken; [| exact Ht']. cbn. intros z Hz Hr.
           destruct (Hroom Hr) as (Hn1 & Hr1). specialize (Hz Hr1).
           subst c. lia.
      * exists cur'. split_and!; [done | |].
        { intros Hs. apply Hs'. by apply Epoch_assign_sorted. }
        intros p' Hp. destruct (He' p' Hp) as [Hin | (? & ? & Hk)].
        -- apply elem_of_Epoch_assign in Hin.
           destruct Hin as [-> | Hin]; [right | by left].
           split_and!; try done. cbn. intros Hr.
           destruct (Hroom Hr) as (Hn1 & Hr1). specialize (Hc' Hr1).
           subst c. lia.
        -- right. split_and!; try done. intros Hr.
           destruct (Hroom Hr) as (Hn1 & Hr1). specialize (Hk Hr1).
           subst c. lia.
Qed.

Lemma tracks_keys R (l l' : Epoch) : tracks R l l' -> keys l' = keys l.
Proof.
  unfold tracks, keys. induction 1 as [| p p' l l' [Hk _] _ IH]; [done |].
  cbn. by rewrite Hk, IH.
Qed.

Lemma tracks_elem_of R (l l' : Epoch) (p' : Z * ObjectState) :
  tracks R l l' -> p' ∈ l' ->
  exists p : Z * ObjectState, p ∈ l /\ p'.1 = p.1 /\ R p.2 p'.2.
Proof.
  unfold tracks. intros H Hp.
  destruct (proj1 (list_elem_of_lookup _ _) Hp) as [i Hi].
  destruct (Forall2_lookup_r _ _ _ _ _ H Hi) as (p & Hl & Hk & HR).
  exists p. split_and!; try done. by eapply list_elem_of_lookup_2.
Qed.

Lemma tracks_weaken (R R' : ObjectState -> ObjectState -> Prop) (l l' : Epoch) :
  (forall o o', R o o' -> R' o o') -> tracks R l l' -> tracks R' l l'.
Proof.
  unfold tracks. intros HR H. eapply Forall2_impl; [exact H |].
  cbn. intros p p' [? ?]. split; [done | by apply HR].
Qed.

Lemma buildDetectionVectors_frame boxes (s : mapOptimization) :
  let s' := buildDetectionVectors boxes s in
  objects s' = objects s
  /\ numberOfRegisteredObjects s' = numberOfRegisteredObjects s
  /\ factorTrace s' = factorTrace s
  /\ length (detectionVector s') = length boxes.
Proof. cbn. split_and!; try done. by rewrite length_map. Qed.

Lemma addDetectionFactor_cases mock (s s' : mapOptimization) :
  addDetectionFactor mock s = Some s' ->
  let s0 := set_anyObjectIsTightlyCoupled false s in
  (detections s = [] /\ objects s = [] /\ s' = s0)
  \/ (detections s = []
      /\ exists (current current' : Epoch) (s1 : mapOptimization),
          back (objects s) = Some current
          /\ loseObjects current s0 = Some (current', s1)
          /\ s' = set_back_objects current' s1)
  \/ (exists (current current1 : Epoch) (s2 : mapOptimization) boxes
             egoPoseKey egoPose a0 a,
          back (objects s) = Some current
          /\ detections s <> []
          /\ length boxes = length (detections s)
          /\ associateObjects egoPoseKey (Pose3_inverse egoPose) 0 current
               (buildDetectionVectors boxes s0) a0
             = Some (current1, s2, a)
          /\ forEach (registerObject egoPoseKey egoPose a)
               (seq 0 (length (detectionVector s2)))
               (set_back_objects current1 s2)
             = Some s').
Proof.
  intros H s0. unfold addDetectionFactor in H. cbn zeta in H.
  fold s0 in H.
  change (detections s0) with (detections s) in H.
  change (objects s0) with (objects s) in H.
  destruct (detections s) as [| d ds] eqn:Ed.
  - destruct (objects s) as [| e es] eqn:Eo.
    + left. by simplify_eq.
    + right; left. split; [done |].
      destruct (back (e :: es)) as [current |] eqn:Eb;
        cbn [mbind option_bind] in H; [| done].
      destruct (loseObjects current _) as [[current' s1] |] eqn:El;
        cbn [mbind option_bind] in H; [| done].
      exists current, current', s1. by simplify_eq.
  - right; right.
    destruct (back (objects s)) as [current |] eqn:Eb;
      cbn [mbind option_bind] in H; [| done].
    destruct (smallEgoMotionOf mock _) as [m |];
      cbn [mbind option_bind] in H; [| done].
    destruct (back (keyPoseIndices _)) as [egoPoseKey |];
      cbn [mbind option_bind] in H; [| done].
    destruct (Values_at egoPoseKey _) as [egoPose |];
      cbn [mbind option_bind] in H; [| done].
    destruct (associateObjects _ _ _ _ _ _) as [[[current1 s2] a] |] eqn:Ea;
      cbn [mbind option_bind] in H; [| done].
    eexists current, current1, s2, _, egoPoseKey, egoPose, _, a.
    split_and!; [done | done | | exact Ea | exact H].
    destruct mock; [apply length_map | done].
Qed.

Lemma addDetectionFactor_spec mock (s s' : mapOptimization) :
  addDetectionFactor mock s = Some s' ->
  let c := numberOfRegisteredObjects s in
  let room := 0 <= c /\ c + Z.of_nat (length (detections s)) < 2 ^ 64 in
  (room -> c <= numberOfRegisteredObjects s'
           <= c + Z.of_nat (length (detections s)))
  /\ ((objects s = [] /\ objects s' = []
       /\ factorTrace s' = factorTrace s)
      \/ exists current current' : Epoch,
          back (objects s) = Some current
          /\ objects s' = removelast (objects s) ++ [current']
          /\ (keysSorted current -> keysSorted current')
          /\ (forall p' : Z * ObjectState,
                p' ∈ current' ->
                (exists p : Z * ObjectState,
                    p ∈ current /\ p'.1 = p.1 /\ associated p.2 p'.2)
                \/ (objectIndex p'.2 = p'.1 /\ newborn p'.2
                    /\ (room -> c <= p'.1 < numberOfRegisteredObjects s')))
          /\ tracedFor
               (fun z => (exists p : Z * ObjectState,
                             p ∈ current /\ z = objectIndex p.2)
                         \/ (room -> c <= z < numberOfRegisteredObjects s'))
               s s').
Proof.
  intros H c room. apply addDetectionFactor_cases in H. cbn zeta in H.
  destruct H as [(Ed & Eo & ->) | [(Ed & H) | H]].
  - split; [cbn; subst c; lia |]. by left.
  - destruct H as (current & current' & s1 & Eb & El & ->).
    apply loseObjects_tracks in El.
    destruct El as (Htr & Ho & (Hn & _) & Ht).
    split.
    { change (numberOfRegisteredObjects (set_back_objects current' s1))
        with (numberOfRegisteredObjects s1).
      rewrite Hn. subst c. cbn. lia. }
    right. exists current, current'.
    split_and!; try done.
    + cbn. by rewrite Ho.
    + unfold keysSorted. by rewrite (tracks_keys _ _ _ Htr).
    + intros p' Hp. left.
      destruct (tracks_elem_of _ _ _ _ Htr Hp) as (p & ? & ? & ? & ? & ?).
      exists p. split_and!; try done. split; [done | by left].
    + by apply tracedFor_same.
  - destruct H as (current & current1 & s2 & boxes & egoPoseKey & egoPose
                   & a0 & a & Eb & _ & Hlen & Ea & H).
    apply associateObjects_tracks in Ea.
    destruct Ea as (Htr & Ho2 & (Hn2 & Hd2 & Hv2) & Ht2).
    pose proof (buildDetectionVectors_frame boxes
                  (set_anyObjectIsTightlyCoupled false s)) as Hbv.
    cbn zeta in Hbv. destruct Hbv as (Ho1 & Hn1 & Ht1 & Hl1).
    remember (buildDetectionVectors boxes
                (set_anyObjectIsTightlyCoupled false s)) as s1 eqn:Es1.
    clear Es1.
    assert (objects s1 = objects s) as Ho1' by exact Ho1.
    assert (numberOfRegisteredObjects s1 = c) as Hn1' by exact Hn1.
    assert (factorTrace s1 = factorTrace s) as Ht1' by exact Ht1.
    clear Ho1 Hn1 Ht1.
    remember (set_back_objects current1 s2) as s3 eqn:Es3.
    assert (back (objects s3) = Some current1) as Hb3
      by (subst s3; apply back_snoc).
    assert (objects s3 = removelast (objects s2) ++ [current1]) as Ho3
      by (by subst s3).
    assert (numberOfRegisteredObjects s3 = numberOfRegisteredObjects s2)
      as Hn3 by (by subst s3).
    assert (factorTrace s3 = factorTrace s2) as Ht3 by (by subst s3).
    clear Es3.
    pose proof (registerObjects_spec _ _ _ _ _ _ _ H Hb3) as Hr.
    cbn zeta in Hr.
    destruct Hr as (_ & _ & Hc & Ht4 & current' & Ho4 & Hs4 & He4).
    rewrite length_seq, Hv2, Hl1, Hlen, Hn3, Hn2, Hn1' in Hc, Ht4, He4.
    rewrite Ho3, removelast_snoc, Ho2, Ho1' in Ho4.
    split; [exact Hc |].
    right. exists current, current'.
    split_and!; try done.
    + intros Hs. apply Hs4. unfold keysSorted.
      by rewrite (tracks_keys _ _ _ Htr).
    + intros p' Hp. destruct (He4 p' Hp) as [Hin | Hborn]; [left | by right].
      by eapply tracks_elem_of.
    + destruct Ht2 as (l2 & E2 & F2). destruct Ht4 as (l3 & E3 & F3).
      exists (l2 ++ l3). split.
      * by rewrite E3, Ht3, E2, Ht1', app_assoc.
      * apply Forall_app. split.
        -- eapply Forall_impl; [exact F2 |]. cbn. intros z Hz. by left.
        -- eapply Forall_impl; [exact F3 |]. cbn. intros z Hz. by right.
Qed.

(** ** The motion factors *)

Lemma forEach_rel_in {A S : Type} (R : S -> S -> Prop)
    (body : A -> S -> option S) (l : list A) :
  (forall s, R s s) ->
  (forall s1 s2 s3, R s1 s2 -> R s2 s3 -> R s1 s3) ->
  (forall x s s', x ∈ l -> body x s = Some s' -> R s s') ->
  forall s s', forEach body l s = Some s' -> R s s'.
Proof.
  intros Hr Ht. induction l as [| x l IH]; intros Hb s s' H.
  - simpl in H. by simplify_eq.
  - apply forEach_cons_Some in H. destruct H as (s1 & E & H).
    eapply Ht.
    + eapply Hb; [| exact E]. apply elem_of_cons. by left.
    + eapply IH; [| exact H]. intros y t t' Hy. apply Hb.
      apply elem_of_cons. by right.
Qed.

Lemma motion_refl L (s : mapOptimization) : motion L s s.
Proof.
  split_and!; try done; [| apply tracedFor_refl].
  intros i e' H. exists e'. split; [done |]. by left.
Qed.

Lemma motion_trans L (s1 s2 s3 : mapOptimization) :
  motion L s1 s2 -> motion L s2 s3 -> motion L s1 s3.
Proof.
  intros (Hn & Hl & Hb & He & Ht) (Hn' & Hl' & Hb' & He' & Ht').
  split_and!; try congruence; [| by eapply tracedFor_trans].
  intros i e3 H3. destruct (He' i e3 H3) as (e2 & H2 & Hin2).
  destruct (He i e2 H2) as (e1 & H1 & Hin1).
  exists e1. split; [done |]. intros p' Hp.
  destruct (Hin2 p' Hp) as [Hp2 | ?]; [| by right]. by apply Hin1.
Qed.

Lemma motion_weaken (L L' : Z -> Prop) (s s' : mapOptimization) :
  (forall z, L z -> L' z) -> motion L s s' -> motion L' s s'.
Proof.
  intros HL (Hn & Hl & Hb & He & Ht).
  split_and!; try done; [| by eapply tracedFor_weaken].
  intros i e' H. destruct (He i e' H) as (e & ? & Hin).
  exists e. split; [done |]. intros p' Hp.
  destruct (Hin p' Hp); [by left | right; by apply HL].
Qed.

Lemma back_insert_before {A : Type} (l : list A) (x : A) :
  (2 <= length l)%nat -> back (<[(length l - 2)%nat := x]> l) = back l.
Proof.
  intros H. unfold back. rewrite !last_lookup, length_insert.
  apply list_lookup_insert_ne. lia.
Qed.

Lemma previousObjectOf_motion k (s : mapOptimization) o (s' : mapOptimization) :
  previousObjectOf k s = Some (o, s') ->
  (2 <= length (objects s))%nat ->
  factorTrace s' = factorTrace s
  /\ objectPaths s' = objectPaths s
  /\ initialEstimateForAnalysis s' = initialEstimateForAnalysis s
  /\ motion (fun z => z = k) s s'.
Proof.
  unfold previousObjectOf. intros H Hlen.
  destruct (objects s !! _) as [e |] eqn:E; simpl in H; [| done].
  unfold Epoch_index in H.
  destruct (Epoch_find k e) eqn:Ef; simplify_eq; cbn.
  - rewrite list_insert_id by done. destruct s as [? ? ? ? ? [] ?]; cbn.
    split_and!; try done. apply motion_refl.
  - split_and!; try done. unfold motion. cbn.
    split_and!; try done.
    + by rewrite length_insert.
    + by apply back_insert_before.
    + intros i e' H.
      destruct (decide (i = (length (objects s) - 2)%nat)) as [-> | Hne].
      * rewrite list_lookup_insert_eq in H
          by (apply lookup_lt_is_Some; by eexists).
        simplify_eq. exists e. split; [done |]. intros p' Hp.
        apply elem_of_Epoch_assign in Hp.
        destruct Hp as [-> | Hp]; [by right | by left].
      * rewrite list_lookup_insert_ne in H by done.
        exists e'. split; [done |]. by left.
    + by apply tracedFor_same.
Qed.

Lemma motion_same_objects L (s s' : mapOptimization) :
  objects s' = objects s ->
  numberOfRegisteredObjects s' = numberOfRegisteredObjects s ->
  tracedFor L s s' -> motion L s s'.
Proof.
  intros Ho Hn Ht. unfold motion. rewrite Ho. split_and!; try done.
  intros i e' H. exists e'. split; [done |]. by left.
Qed.

Lemma addConstantVelocityFactor_object_motion (p : Z * ObjectState)
    (s s' : mapOptimization) :
  addConstantVelocityFactor_object p s = Some s' ->
  (2 <= length (objects s))%nat ->
  motion (fun z => z = objectIndex p.2 /\ lostCount p.2 <= 0) s s'.
Proof.
  unfold addConstantVelocityFactor_object. intros H Hlen.
  destruct (isFirst p.2); [simplify_eq; apply motion_refl |].
  destruct (Z.gtb_spec (lostCount p.2) 0);
    [simplify_eq; apply motion_refl |].
  destruct (previousObjectOf _ s) as [[previousObject s1] |] eqn:Ep;
    cbn [mbind option_bind] in H; [| done].
  apply previousObjectOf_motion in Ep; [| done].
  destruct Ep as (Ht & Hp & _ & Hm).
  eapply motion_trans.
  { eapply motion_weaken; [| exact Hm]. cbn. intros z ->. split; [done | lia]. }
  destruct (isTightlyCoupled p.2).
  - simplify_eq. apply motion_same_objects; try done.
    eapply tracedFor_one; [| reflexivity]. cbn. split; [done | lia].
  - destruct (Marker_pointsSize _ _) as [size |];
      cbn [mbind option_bind] in H; [| done].
    destruct (size <=? toUint64 numberOfEarlySteps); simplify_eq;
      (apply motion_same_objects; try done;
       eapply tracedFor_one; [| reflexivity]; cbn; split; [done | lia]).
Qed.

Lemma addStablePoseFactor_object_motion (p : Z * ObjectState)
    (s s' : mapOptimization) :
  addStablePoseFactor_object p s = Some s' ->
  (2 <= length (objects s))%nat ->
  motion (fun z => z = objectIndex p.2 /\ lostCount p.2 <= 0) s s'.
Proof.
  unfold addStablePoseFactor_object. intros H Hlen.
  destruct (isFirst p.2); [simplify_eq; apply motion_refl |].
  destruct (Z.gtb_spec (lostCount p.2) 0);
    [simplify_eq; apply motion_refl |].
  destruct (previousObjectOf _ s) as [[previousObject s1] |] eqn:Ep;
    cbn [mbind option_bind] in H; [| done].
  apply previousObjectOf_motion in Ep; [| done].
  destruct Ep as (Ht & Hp & _ & Hm).
  eapply motion_trans.
  { eapply motion_weaken; [| exact Hm]. cbn. intros z ->. split; [done | lia]. }
  cbn zeta in H.
  destruct (Values_insert _ _ _) as [ia |]; cbn [mbind option_bind] in H;
    [| done].
  destruct (Values_insert _ _ ia) as [ia' |]; cbn [mbind option_bind] in H;
    [| done].
  simplify_eq. apply motion_same_objects.
  - by destruct (isTightlyCoupled p.2).
  - by destruct (isTightlyCoupled p.2).
  - destruct (isTightlyCoupled p.2);
      (eapply tracedFor_one; [| reflexivity]; cbn; split; [done | lia]).
Qed.

Lemma motion_loop_trans L (s1 s2 s3 : mapOptimization) :
  ((2 <= length (objects s1))%nat -> motion L s1 s2) ->
  ((2 <= length (objects s2))%nat -> motion L s2 s3) ->
  (2 <= length (objects s1))%nat -> motion L s1 s3.
Proof.
  intros H12 H23 Hlen. specialize (H12 Hlen).
  eapply motion_trans; [exact H12 |]. apply H23.
  destruct H12 as (_ & Hl & _). by rewrite Hl.
Qed.

Lemma forEach_motion L (body : Z * ObjectState -> mapOptimization
                               -> option mapOptimization) (l : Epoch) :
  (forall p (a b : mapOptimization),
      p ∈ l -> body p a = Some b -> (2 <= length (objects a))%nat ->
      motion L a b) ->
  forall t s' : mapOptimization,
    forEach body l t = Some s' -> (2 <= length (objects t))%nat ->
    motion L t s'.
Proof.
  intros Hb.
  apply (forEach_rel_in
           (fun a b : mapOptimization =>
              (2 <= length (objects a))%nat -> motion L a b)).
  - intros; apply motion_refl.
  - intros s1 s2 s3. apply motion_loop_trans.
  - exact Hb.
Qed.

Lemma addConstantVelocityFactor_motion (s s' : mapOptimization) :
  addConstantVelocityFactor s = Some s' -> motion (tracked s) s s'.
Proof.
  unfold addConstantVelocityFactor. intros H.
  destruct (Nat.ltb_spec (length (objects s)) 2);
    [simplify_eq; apply motion_refl |].
  destruct (back (objects s)) as [current |] eqn:Eb;
    cbn [mbind option_bind] in H; [| done].
  eapply (forEach_motion (tracked s)); [| exact H | done].
  intros p a b Hp Hbody Hlen.
  eapply motion_weaken; [| by eapply addConstantVelocityFactor_object_motion].
  cbn. intros z (-> & ?). by exists current, p.
Qed.

Lemma addStablePoseFactor_motion (s s' : mapOptimization) :
  addStablePoseFactor s = Some s' -> motion (tracked s) s s'.
Proof.
  unfold addStablePoseFactor. intros H.
  destruct (Nat.ltb_spec (length (objects s)) 2);
    [simplify_eq; apply motion_refl |].
  destruct (back (objects s)) as [current |] eqn:Eb;
    cbn [mbind option_bind] in H; [| done].
  eapply (forEach_motion (tracked s)); [| exact H | done].
  intros p a b Hp Hbody Hlen.
  eapply motion_weaken; [| by eapply addStablePoseFactor_object_motion].
  cbn. intros z (-> & ?). by exists current, p.
Qed.

(** ** The tracks across a sweep *)

Lemma sameTracks_refl (s : mapOptimization) : sameTracks s s.
Proof. done. Qed.

Lemma sameTracks_trans (s1 s2 s3 : mapOptimization) :
  sameTracks s1 s2 -> sameTracks s2 s3 -> sameTracks s1 s3.
Proof. unfold sameTracks. intros (? & ? & ?) (? & ? & ?). split_and!; congruence. Qed.

Lemma sameTracks_of (s s' : mapOptimization) :
  tracker s' = tracker s -> outputs s' = outputs s -> sameTracks s s'.
Proof.
  unfold sameTracks, objects, numberOfRegisteredObjects, factorTrace.
  by intros -> ->.
Qed.

Lemma LMOptimization_tracks (s : mapOptimization) (iterCount : Z) :
  tracker (LMOptimization iterCount s).2 = tracker s
  /\ outputs (LMOptimization iterCount s).2 = outputs s.
Proof.
  unfold LMOptimization. destruct (_ <? 50); [done |].
  destruct (normalEquations _ _ _) as [matAtA matAtB].
  destruct (iterCount =? 0); [| done].
  destruct (cv_eigen matAtA) as [matE matV].
  by destruct (degenerateRows 6 matE matV false).
Qed.

Lemma scan2MapIterations_tracks (n : nat) (iterCount : Z)
    (s : mapOptimization) :
  tracker (scan2MapIterations n iterCount s) = tracker s
  /\ outputs (scan2MapIterations n iterCount s) = outputs s.
Proof.
  revert iterCount s. induction n as [| n IH]; intros iterCount s; [done |].
  simpl. destruct (optimizationCoeffs _ _) as [ori coeff].
  pose proof (LMOptimization_tracks
                (set_coeffSel coeff (set_laserCloudOri ori s)) iterCount) as H.
  destruct (LMOptimization _ _) as [converged s'].
  destruct converged; [done |].
  destruct (IH (iterCount + 1) s') as [-> ->]. done.
Qed.

Lemma scan2MapOptimization_tracks (s : mapOptimization) :
  tracker (scan2MapOptimization s) = tracker s
  /\ factorTrace (scan2MapOptimization s) = factorTrace s.
Proof.
  unfold scan2MapOptimization. destruct (cloudKeyPoses3D s); [done |].
  destruct (_ && _); [| done].
  destruct (scan2MapIterations_tracks 30 0 s) as [Ht Ho].
  split; [exact Ht |]. unfold factorTrace. cbn. unfold factorTrace in *.
  by rewrite <- Ho.
Qed.

Lemma eraseLatestEgoPose_tracks (s s' : mapOptimization) :
  eraseLatestEgoPose s = Some s' ->
  tracker s' = tracker s /\ outputs s' = outputs s.
Proof. unfold eraseLatestEgoPose. intros H. crunch. Qed.

Lemma correctPoses_loop_tracks (indices : list Z) :
  forall (i : nat) (s s' : mapOptimization),
    correctPoses_loop indices i s = Some s' ->
    tracker s' = tracker s /\ outputs s' = outputs s.
Proof.
  induction indices as [| k indices IH]; intros i s s' H; simpl in H.
  - by simplify_eq.
  - destruct (Values_at k _) as [e |]; simpl in H; [| done].
    destruct (cloudKeyPoses3D s !! i) as [p3 |]; simpl in H; [| done].
    destruct (cloudKeyPoses6D s !! i) as [p6 |]; simpl in H; [| done].
    apply IH in H. by destruct H as [-> ->].
Qed.

Lemma correctPoses_tracks (s s' : mapOptimization) :
  correctPoses s = Some s' ->
  tracker s' = tracker s /\ outputs s' = outputs s.
Proof.
  unfold correctPoses. intros H.
  destruct (cloudKeyPoses3D s); [by simplify_eq |].
  destruct (_ || _); [| by simplify_eq].
  destruct (correctPoses_loop _ _ _) as [s1 |] eqn:E; simpl in H; [| done].
  simplify_eq. apply correctPoses_loop_tracks in E.
  destruct E as [E1 E2]. split; [exact E1 | exact E2].
Qed.

Lemma publishOdometry_tracks (s : mapOptimization) :
  tracker (publishOdometry s) = tracker s
  /\ factorTrace (publishOdometry s) = factorTrace s.
Proof.
  unfold publishOdometry. destruct (negb _); [done |].
  destruct (getTranslationAndEulerAngles _) as [[[[[x y] z] roll] pitch] yaw].
  cbn zeta. destruct (cloudInfo s). cbn.
  repeat case_match; done.
Qed.

Lemma publishObject_tracks (p : Z * ObjectState) (s s' : mapOptimization) :
  publishObject p s = Some s' -> sameTracks s s'.
Proof. unfold publishObject. intros H. crunch. Qed.

Lemma hideObject_tracks current (p : Z * ObjectState)
    (s s' : mapOptimization) :
  hideObject current p s = Some s' -> sameTracks s s'.
Proof. unfold hideObject. intros H. crunch. Qed.

Lemma publishFrames_tracks (s s' : mapOptimization) :
  publishFrames s = Some s' -> sameTracks s s'.
Proof.
  unfold publishFrames. intros H.
  destruct (cloudKeyPoses3D s); [by simplify_eq |].
  destruct (detectionIsActive s); [| by simplify_eq].
  destruct (back (objects s)) as [current |]; simpl in H; [| done].
  destruct (forEach publishObject current s) as [s1 |] eqn:E; simpl in H;
    [| done].
  eapply sameTracks_trans.
  - eapply (forEach_rel sameTracks); [apply sameTracks_refl
      | apply sameTracks_trans | apply publishObject_tracks | exact E].
  - eapply (forEach_rel sameTracks); [apply sameTracks_refl
      | apply sameTracks_trans | apply hideObject_tracks | exact H].
Qed.

Lemma readBackObject_sameTrack estimate (p p' : Z * ObjectState) :
  readBackObject estimate p = Some p' -> p'.1 = p.1 /\ sameTrack p.2 p'.2.
Proof.
  unfold readBackObject. destruct p as [k o]. intros H.
  destruct (lostCount o >? 0); [by simplify_eq |].
  destruct (Values_at _ estimate) as [x |]; simpl in H; [| done].
  destruct (Values_at _ estimate) as [v |]; simpl in H; [| done].
  destruct (Pose3_toQuaternion x) as [[[qw qx] qy] qz].
  by simplify_eq.
Qed.

Lemma saveObjects_spec (s s' : mapOptimization) :
  saveObjects s = Some s' ->
  numberOfRegisteredObjects s' = numberOfRegisteredObjects s
  /\ factorTrace s' = factorTrace s
  /\ ((back (objects s) = None /\ objects s' = objects s)
      \/ exists current current' : Epoch,
          back (objects s) = Some current
          /\ objects s' = removelast (objects s) ++ [current']
          /\ tracks sameTrack current current').
Proof.
  unfold saveObjects. intros H.
  destruct (back (objects s)) as [current |] eqn:Eb.
  - destruct (mapM _ current) as [current' |] eqn:Em; simpl in H; [| done].
    simplify_eq. split_and!; try done. right. exists current, current'.
    split_and!; try done.
    apply mapM_Some in Em. unfold tracks.
    eapply Forall2_impl; [exact Em |]. cbn. intros p p'.
    apply readBackObject_sameTrack.
  - simplify_eq. split_and!; try done. by left.
Qed.

Lemma propagateObjects_sorted (l : Epoch) :
  forall (s : mapOptimization) acc (s' : mapOptimization) acc',
    forEach propagateObject l (s, acc) = Some (s', acc') ->
    keysSorted acc -> keysSorted acc'.
Proof.
  induction l as [| [first second] l IH]; intros s acc s' acc' H Hs.
  - simpl in H. by simplify_eq.
  - apply forEach_cons_Some in H. destruct H as ([s1 acc1] & E & H).
    eapply IH; [exact H |]. clear H IH.
    unfold propagateObject in E.
    destruct (lostCount second >? _); [by simplify_eq |].
    destruct (lostCount second =? 0).
    + crunch. by apply Epoch_assign_sorted.
    + simplify_eq. by apply Epoch_assign_sorted.
Qed.

Lemma propagateObjectPoses_sorted (s s' : mapOptimization)
    (nextObjects : Epoch) :
  propagateObjectPoses s = Some s' ->
  back (objects s') = Some nextObjects -> keysSorted nextObjects.
Proof.
  unfold propagateObjectPoses. intros H Hb.
  destruct (back (objects s)) as [lastObjects |] eqn:Eb.
  - destruct (forEach propagateObject lastObjects (s, [])) as [[s1 e1] |]
      eqn:E; simpl in H; [| done].
    simplify_eq. cbn in Hb. rewrite back_snoc in Hb. simplify_eq.
    eapply propagateObjects_sorted; [exact E |]. constructor.
  - simplify_eq. cbn in Hb. rewrite back_snoc in Hb. simplify_eq.
    constructor.
Qed.

Lemma receiveSweep_tracks (msgIn : Sweep) (s : mapOptimization) :
  sameTracks s (receiveSweep msgIn s)
  /\ detections (receiveSweep msgIn s) = detections s.
Proof. done. Qed.

Lemma prepareSweep_tracks (msgIn : Sweep) (s : mapOptimization) :
  sameTracks s (prepareSweep msgIn s)
  /\ detections (prepareSweep msgIn s)
     = detections (getDetections (sw_reply msgIn) s).
Proof. unfold prepareSweep, getDetections. by destruct (sw_reply msgIn). Qed.

Lemma saveKeyFramesAndFactor_tracks (s0 t1 : mapOptimization) :
  saveKeyFramesAndFactor s0 = Some t1 ->
  exists (mock : bool) (s1 s2 s3 s4 s5 s8 : mapOptimization),
    sameTracks s0 s1
    /\ detections s1 = detections s0
    /\ propagateObjectPoses s1 = Some s2
    /\ addDetectionFactor mock s2 = Some s3
    /\ addConstantVelocityFactor s3 = Some s4
    /\ addStablePoseFactor s4 = Some s5
    /\ sameTracks s5 s8
    /\ saveObjects s8 = Some t1.
Proof.
  intros E1.
  unfold saveKeyFramesAndFactor, saveKeyFramesAndFactor_from in E1.
  destruct (saveFrame s0) as [b |]; cbn [mbind option_bind] in E1; [| done].
  destruct (if b then _ else _) as [s1 |] eqn:F1;
    cbn [mbind option_bind] in E1; [| done].
  destruct (propagateObjectPoses s1) as [s2 |] eqn:F2;
    cbn [mbind option_bind] in E1; [| done].
  destruct (addDetectionFactor _ s2) as [s3 |] eqn:F3;
    cbn [mbind option_bind] in E1; [| done].
  destruct (addConstantVelocityFactor s3) as [s4 |] eqn:F4;
    cbn [mbind option_bind] in E1; [| done].
  destruct (addStablePoseFactor s4) as [s5 |] eqn:F5;
    cbn [mbind option_bind] in E1; [| done].
  destruct (if b then Some s5 else _) as [s6 |] eqn:F6;
    cbn [mbind option_bind] in E1; [| done].
  destruct (if b then saveKeyPose _ else _) as [s8 |] eqn:F8;
    cbn [mbind option_bind] in E1; [| done].
  exists (negb b), s1, s2, s3, s4, s5, s8.
  assert (tracker s1 = tracker s0 /\ outputs s1 = outputs s0) as [G1 G1'].
  { destruct b.
    - apply addKeyFrameFactors_frame in F1. by destruct F1 as (_&_&_&_&?&?&_).
    - apply insertLatestEgoPose_untouched in F1. by destruct F1 as (_&?&?). }
  assert (tracker s6 = tracker s5 /\ outputs s6 = outputs s5) as [G6 G6'].
  { destruct b; [by simplify_eq | by apply eraseLatestEgoPose_tracks]. }
  assert (tracker s8 = tracker s6 /\ outputs s8 = outputs s6) as [G8 G8'].
  { destruct (updateISAM_frame s6) as (_ & _ & U1 & U2 & _).
    destruct b.
    - apply saveKeyPose_frame in F8.
      destruct F8 as (p3 & p6 & _ & _ & _ & _ & _ & V1 & V2 & _).
      split; congruence.
    - simplify_eq. by split. }
  split_and!; try done.
  - by apply sameTracks_of.
  - unfold detections at 1. by rewrite G1.
  - apply sameTracks_of; congruence.
Qed.

(** The functions that a processed sweep runs on the tracks, in order. *)
Lemma laserCloudInfoHandler_tracks (msgIn : Sweep) (s s' : mapOptimization) :
  laserCloudInfoHandler msgIn s = Some s' ->
  sameTracks s s'
  \/ exists (mock : bool) (s1 s2 s3 s4 s5 s8 s9 : mapOptimization),
      sameTracks s s1
      /\ detections s1 = detections (getDetections (sw_reply msgIn) s)
      /\ propagateObjectPoses s1 = Some s2
      /\ addDetectionFactor mock s2 = Some s3
      /\ addConstantVelocityFactor s3 = Some s4
      /\ addStablePoseFactor s4 = Some s5
      /\ sameTracks s5 s8
      /\ saveObjects s8 = Some s9
      /\ sameTracks s9 s'.
Proof.
  unfold laserCloudInfoHandler. intros H. cbn zeta in H.
  destruct (receiveSweep_tracks msgIn s) as [Hr Hrd].
  assert (detections (getDetections (sw_reply msgIn) (receiveSweep msgIn s))
          = detections (getDetections (sw_reply msgIn) s)) as Hrg
    by (by destruct (sw_reply msgIn)).
  remember (receiveSweep msgIn s) as sr eqn:Esr. clear Esr.
  destruct (_ <=? _)%float; [| left; by simplify_eq].
  right.
  destruct (prepareSweep_tracks msgIn sr) as [Hp Hpd].
  remember (prepareSweep msgIn sr) as sp eqn:Esp. clear Esp.
  destruct (scan2MapOptimization_tracks sp) as [Ht0 Hf0].
  remember (scan2MapOptimization sp) as s0 eqn:Es0. clear Es0.
  destruct (saveKeyFramesAndFactor s0) as [t1 |] eqn:E1;
    cbn [mbind option_bind] in H; [| done].
  destruct (correctPoses t1) as [t2 |] eqn:E2;
    cbn [mbind option_bind] in H; [| done].
  apply correctPoses_tracks in E2. destruct E2 as [E2t E2o].
  destruct (publishOdometry_tracks t2) as [E3t E3f].
  apply publishFrames_tracks in H.
  apply saveKeyFramesAndFactor_tracks in E1.
  destruct E1 as (mock & s1 & s2 & s3 & s4 & s5 & s8
                  & G1 & Gd & F2 & F3 & F4 & F5 & G8 & F9).
  exists mock, s1, s2, s3, s4, s5, s8, t1.
  assert (sameTracks sp s0) as H0.
  { unfold sameTracks, objects, numberOfRegisteredObjects.
    by rewrite Ht0, Hf0. }
  split_and!; try done.
  - repeat (eapply sameTracks_trans; [eassumption |]). apply sameTracks_refl.
  - rewrite Gd. unfold detections at 1. rewrite Ht0.
    fold (detections sp). congruence.
  - eapply sameTracks_trans; [| exact H].
    unfold sameTracks, objects, numberOfRegisteredObjects.
    rewrite E3t, E3f, E2t. unfold factorTrace. by rewrite E2o.
Qed.

(** ** The bounds of [trackScore] *)

Section Scores.
Hypothesis interSteps :
  0 <= numberOfInterLooseCouplingSteps <= numberOfPreLooseCouplingSteps + 1.

Lemma associated_bounded (o o' : ObjectState) :
  associated o o' ->
  0 <= trackScore o <= numberOfPreLooseCouplingSteps + 1 ->
  0 <= trackScore o' <= numberOfPreLooseCouplingSteps + 1.
Proof using interSteps.
  unfold associated, matchedScore. intros (_ & H) Hb.
  destruct (Z.leb_spec (trackScore o) numberOfPreLooseCouplingSteps);
    destruct H as [-> | [-> | [-> | [? ->]]]]; lia.
Qed.

Lemma scoresBounded_sameTracks (s s' : mapOptimization) :
  sameTracks s s' -> scoresBounded s -> scoresBounded s'.
Proof. unfold scoresBounded. intros (-> & _). done. Qed.

Lemma scoresBounded_back (s' : mapOptimization) (l : list Epoch)
    (current' : Epoch) :
  objects s' = l ++ [current'] ->
  (forall p : Z * ObjectState,
      p ∈ current' ->
      0 <= trackScore p.2 <= numberOfPreLooseCouplingSteps + 1) ->
  scoresBounded s'.
Proof.
  unfold scoresBounded. intros -> H current p Hb Hp.
  rewrite back_snoc in Hb. simplify_eq. by apply H.
Qed.

Lemma propagateObjectPoses_bounded (s s' : mapOptimization) :
  propagateObjectPoses s = Some s' -> scoresBounded s -> scoresBounded s'.
Proof.
  intros H Hs. apply propagateObjectPoses_spec in H.
  destruct H as (_ & _ & _ & next & Ho & Hin).
  eapply scoresBounded_back; [exact Ho |]. intros p Hp.
  destruct (Hin p Hp) as (lastObjects & o & Hb & Ho' & _ & (_ & -> & _) & _).
  apply (Hs lastObjects (p.1, o)); done.
Qed.

Lemma addDetectionFactor_bounded mock (s s' : mapOptimization) :
  addDetectionFactor mock s = Some s' -> scoresBounded s -> scoresBounded s'.
Proof using interSteps.
  intros H Hs. apply addDetectionFactor_spec in H. cbn zeta in H.
  destruct H as (_ & [(_ & Ho & _) | H]).
  - unfold scoresBounded. by rewrite Ho.
  - destruct H as (current & current' & Hb & Ho & _ & Hin & _).
    eapply scoresBounded_back; [exact Ho |]. intros p' Hp.
    destruct (Hin p' Hp) as [(p & Hp0 & _ & Ha) | (_ & (-> & _) & _)].
    + eapply associated_bounded; [exact Ha |]. by eapply Hs.
    + lia.
Qed.

Lemma motion_bounded L (s s' : mapOptimization) :
  motion L s s' -> scoresBounded s -> scoresBounded s'.
Proof. unfold scoresBounded. intros (_ & _ & -> & _). done. Qed.

Lemma saveObjects_bounded (s s' : mapOptimization) :
  saveObjects s = Some s' -> scoresBounded s -> scoresBounded s'.
Proof.
  intros H Hs. apply saveObjects_spec in H.
  destruct H as (_ & _ & [(_ & Ho) | H]).
  - unfold scoresBounded. by rewrite Ho.
  - destruct H as (current & current' & Hb & Ho & Htr).
    eapply scoresBounded_back; [exact Ho |]. intros p' Hp.
    destruct (tracks_elem_of _ _ _ _ Htr Hp) as (p & Hp0 & _ & _ & -> & _).
    by eapply Hs.
Qed.

Lemma laserCloudInfoHandler_bounded (msgIn : Sweep) (s s' : mapOptimization) :
  laserCloudInfoHandler msgIn s = Some s' ->
  scoresBounded s -> scoresBounded s'.
Proof using interSteps.
  intros H Hs. apply laserCloudInfoHandler_tracks in H.
  destruct H as [H | H]; [by eapply scoresBounded_sameTracks |].
  destruct H as (mock & s1 & s2 & s3 & s4 & s5 & s8 & s9
                 & H1 & _ & H2 & H3 & H4 & H5 & H8 & H9 & H').
  eapply scoresBounded_sameTracks; [exact H' |].
  eapply saveObjects_bounded; [exact H9 |].
  eapply scoresBounded_sameTracks; [exact H8 |].
  eapply motion_bounded; [by eapply addStablePoseFactor_motion |].
  eapply motion_bounded; [by eapply addConstantVelocityFactor_motion |].
  eapply addDetectionFactor_bounded; [exact H3 |].
  eapply propagateObjectPoses_bounded; [exact H2 |].
  by eapply scoresBounded_sameTracks.
Qed.

Lemma step_bounded allowed (s s' : mapOptimization) :
  step allowed s s' -> scoresBounded s -> scoresBounded s'.
Proof using interSteps.
  intros H Hs. destruct H as [msgIn s s' _ H | |]; [| done | done].
  by eapply laserCloudInfoHandler_bounded.
Qed.

Lemma reachable_bounded allowed (s : mapOptimization) :
  reachable allowed s -> scoresBounded s.
Proof using interSteps.
  unfold reachable. intros H.
  eapply (rtc_ind_r (fun t => scoresBounded t) initialState); [| | exact H].
  - intros current p Hb. done.
  - intros s1 s2 _ Hstep IH. by eapply step_bounded.
Qed.

End Scores.

(** ** Retired objects *)

Lemma elem_of_drop_app {A : Type} (n : nat) (l k : list A) (x : A) :
  x ∈ drop n (l ++ k) -> x ∈ drop n l \/ x ∈ k.
Proof.
  rewrite drop_app. intros H. apply elem_of_app in H.
  destruct H as [H | H]; [by left | right].
  rewrite <- (take_drop (n - length l) k). apply elem_of_app. by right.
Qed.

Lemma lookup_snoc_cases {A : Type} (l : list A) (x e : A) (i : nat) :
  (l ++ [x]) !! i = Some e -> l !! i = Some e \/ e = x.
Proof.
  intros H. apply lookup_app_Some in H. destruct H as [H | [_ H]]; [by left |].
  right. destruct (i - length l)%nat; cbn in H; by simplify_eq.
Qed.

Lemma lookup_removelast {A : Type} (l : list A) (e : A) (i : nat) :
  removelast l !! i = Some e -> l !! i = Some e.
Proof.
  destruct l as [| x l _] using rev_ind; [done |].
  rewrite removelast_snoc. apply lookup_app_l_Some.
Qed.

Lemma droppedWithin_retiredBetween k n0 m0 (s : mapOptimization) :
  droppedWithin k n0 m0 s -> retiredBetween k n0 m0 s.
Proof.
  intros (Hr & Hk & Hd & Ha). split_and!; try done.
  intros current p Hb Hp Hpk. by destruct (Hd current p Hb Hp).
Qed.

Lemma retiredBetween_sameTracks k n0 m0 (s s' : mapOptimization) :
  sameTracks s s' -> retiredBetween k n0 m0 s -> retiredBetween k n0 m0 s'.
Proof.
  unfold retiredBetween, registered, retired, absentFrom.
  by intros (-> & -> & ->).
Qed.

Lemma droppedWithin_sameTracks k n0 m0 (s s' : mapOptimization) :
  sameTracks s s' -> droppedWithin k n0 m0 s -> droppedWithin k n0 m0 s'.
Proof.
  unfold droppedWithin, registered, dropped, absentFrom.
  by intros (-> & -> & ->).
Qed.

Lemma absentFrom_traced (L : Z -> Prop) k m0 (s s' : mapOptimization) :
  tracedFor L s s' -> (forall z, L z -> z <> k) ->
  (forall p : Z * Factor, p ∈ drop m0 (factorTrace s) -> p.1 <> k) ->
  forall p : Z * Factor, p ∈ drop m0 (factorTrace s') -> p.1 <> k.
Proof.
  intros (added & -> & Hadd) HL Hs p Hp.
  apply elem_of_drop_app in Hp. destruct Hp as [Hp | Hp]; [by apply Hs |].
  rewrite Forall_forall in Hadd. apply HL. by apply Hadd.
Qed.

(** A function that replaces the last epoch. *)
Lemma droppedWithin_back k n0 m0 (s s' : mapOptimization)
    (current current' : Epoch) (L : Z -> Prop) :
  droppedWithin k n0 m0 s ->
  back (objects s) = Some current ->
  objects s' = removelast (objects s) ++ [current'] ->
  numberOfRegisteredObjects s <= numberOfRegisteredObjects s' ->
  keysSorted current' ->
  (forall p : Z * ObjectState,
      p ∈ current' ->
      objectIndex p.2 = p.1 /\ 0 <= p.1 < numberOfRegisteredObjects s'
      /\ p.1 <> k) ->
  tracedFor L s s' -> (forall z, L z -> z <> k) ->
  droppedWithin k n0 m0 s'.
Proof.
  intros ((Hc & Hreg) & Hk & Hd & He & Ht) Hb Ho Hn Hs Hin Htr HL.
  split_and!.
  - split; [lia |]. intros c Hbc. rewrite Ho, back_snoc in Hbc.
    simplify_eq. split; [done |]. intros p Hp.
    destruct (Hin p Hp) as (? & ? & _). done.
  - lia.
  - intros c p Hbc Hp. rewrite Ho, back_snoc in Hbc. simplify_eq.
    by destruct (Hin p Hp) as (_ & _ & ?).
  - split.
    + intros i e p Hi Hl Hp. rewrite Ho in Hl.
      apply lookup_snoc_cases in Hl. destruct Hl as [Hl | ->].
      * apply lookup_removelast in Hl. by eapply He.
      * by destruct (Hin p Hp) as (_ & _ & ?).
    + by eapply absentFrom_traced.
Qed.

Lemma propagateObjectPoses_dropped k n0 m0 (s s' : mapOptimization) :
  propagateObjectPoses s = Some s' ->
  retiredBetween k n0 m0 s -> droppedWithin k n0 m0 s'.
Proof.
  intros H ((Hc & Hreg) & Hk & Hret & He & Ht).
  pose proof (fun n => propagateObjectPoses_sorted _ _ n H) as Hsort.
  apply propagateObjectPoses_spec in H.
  destruct H as (Hn & _ & Htr & next & Ho & Hin).
  assert (forall p : Z * ObjectState,
             p ∈ next ->
             objectIndex p.2 = p.1 /\ 0 <= p.1 < numberOfRegisteredObjects s
             /\ p.1 <> k) as Hnext.
  { intros p Hp.
    destruct (Hin p Hp) as (lastObjects & o & Hb & Ho' & Hl & (Hi & _) & _).
    destruct (Hreg lastObjects Hb) as (_ & Hlast).
    destruct (Hlast _ Ho') as (Hoi & Hrange). cbn in Hoi, Hrange.
    split_and!; [congruence | lia | lia |].
    intros Hpk. specialize (Hret lastObjects _ Hb Ho' Hpk). cbn in Hret.
    lia. }
  split_and!.
  - split; [lia |]. intros c Hbc. rewrite Ho, back_snoc in Hbc. simplify_eq.
    split; [apply Hsort; by rewrite Ho, back_snoc |].
    intros p Hp. destruct (Hnext p Hp) as (? & ? & _). rewrite Hn. done.
  - lia.
  - intros c p Hbc Hp. rewrite Ho, back_snoc in Hbc. simplify_eq.
    by destruct (Hnext p Hp) as (_ & _ & ?).
  - split.
    + intros i e p Hi Hl Hp. rewrite Ho in Hl.
      apply lookup_snoc_cases in Hl. destruct Hl as [Hl | ->].
      * by eapply He.
      * by destruct (Hnext p Hp) as (_ & _ & ?).
    + by rewrite Htr.
Qed.

Lemma addDetectionFactor_dropped mock k n0 m0 (s s' : mapOptimization) :
  addDetectionFactor mock s = Some s' ->
  numberOfRegisteredObjects s + Z.of_nat (length (detections s)) < 2 ^ 64 ->
  droppedWithin k n0 m0 s -> droppedWithin k n0 m0 s'.
Proof.
  intros H Hroom Hs. pose proof Hs as ((Hc & Hreg) & Hk & Hd & He & Ht).
  apply addDetectionFactor_spec in H. cbn zeta in H.
  destruct H as (Hn & [(Ho & Ho' & Htr) | H]).
  - specialize (Hn (conj Hc Hroom)).
    split_and!.
    + split; [lia |]. intros c Hb. by rewrite Ho' in Hb.
    + lia.
    + intros c p Hb. by rewrite Ho' in Hb.
    + split; [| by rewrite Htr].
      intros i e p _ Hl. by rewrite Ho' in Hl.
  - destruct H as (current & current' & Hb & Ho & Hsort & Hin & Htr).
    specialize (Hn (conj Hc Hroom)).
    destruct (Hreg current Hb) as (Hsorted & Hcur).
    eapply (droppedWithin_back k n0 m0 s s' current current'); try done.
    + lia.
    + by apply Hsort.
    + intros p' Hp.
      destruct (Hin p' Hp) as [(p & Hp0 & Hkey & (Hi & _)) | (Hi & _ & Hr)].
      * destruct (Hcur p Hp0) as (Hpi & Hpr).
        split_and!; [congruence | lia | lia |].
        rewrite Hkey. by eapply Hd.
      * specialize (Hr (conj Hc Hroom)). split_and!; [done | lia | lia | lia].
    + cbn. intros z [(p & Hp0 & ->) | Hr].
      * destruct (Hcur p Hp0) as (-> & _). by eapply Hd.
      * specialize (Hr (conj Hc Hroom)). lia.
Qed.

Lemma motion_dropped k n0 m0 (s s' : mapOptimization) :
  motion (tracked s) s s' ->
  droppedWithin k n0 m0 s -> droppedWithin k n0 m0 s'.
Proof.
  intros (Hn & _ & Hb & Hin & Htr) ((Hc & Hreg) & Hk & Hd & He & Ht).
  assert (forall z, tracked s z -> z <> k) as HL.
  { intros z (current & p & Hbc & Hp & -> & _).
    destruct (Hreg current Hbc) as (_ & Hcur).
    destruct (Hcur p Hp) as (-> & _). by eapply Hd. }
  unfold droppedWithin, registered, dropped. rewrite Hn, Hb.
  split_and!; try done. split.
  - intros i e' p Hi Hl Hp. destruct (Hin i e' Hl) as (e & Hle & Hpe).
    destruct (Hpe p Hp) as [Hp0 | Hp0]; [by eapply He | by apply HL].
  - by eapply absentFrom_traced.
Qed.

Lemma saveObjects_dropped k n0 m0 (s s' : mapOptimization) :
  saveObjects s = Some s' ->
  droppedWithin k n0 m0 s -> droppedWithin k n0 m0 s'.
Proof.
  intros H Hs. pose proof Hs as ((Hc & Hreg) & Hk & Hd & He & Ht).
  apply saveObjects_spec in H.
  destruct H as (Hn & Htr & [(_ & Ho) | H]).
  - eapply droppedWithin_sameTracks; [| exact Hs]. done.
  - destruct H as (current & current' & Hb & Ho & Htracks).
    destruct (Hreg current Hb) as (Hsorted & Hcur).
    eapply (droppedWithin_back k n0 m0 s s' current current'
              (fun _ => False)); try done.
    + lia.
    + unfold keysSorted. by rewrite (tracks_keys _ _ _ Htracks).
    + intros p' Hp.
      destruct (tracks_elem_of _ _ _ _ Htracks Hp)
        as (p & Hp0 & Hkey & (Hi & _)).
      destruct (Hcur p Hp0) as (Hpi & Hpr).
      split_and!; [congruence | lia | lia |].
      rewrite Hkey. by eapply Hd.
    + by apply tracedFor_same.
Qed.

Lemma laserCloudInfoHandler_retired (msgIn : Sweep) k n0 m0
    (s s' : mapOptimization) :
  laserCloudInfoHandler msgIn s = Some s' ->
  withoutWrap msgIn s ->
  retiredBetween k n0 m0 s -> retiredBetween k n0 m0 s'.
Proof.
  intros H Hw Hs. apply laserCloudInfoHandler_tracks in H.
  destruct H as [H | H]; [by eapply retiredBetween_sameTracks |].
  destruct H as (mock & s1 & s2 & s3 & s4 & s5 & s8 & s9
                 & H1 & Hd1 & H2 & H3 & H4 & H5 & H8 & H9 & H').
  apply droppedWithin_retiredBetween.
  eapply droppedWithin_sameTracks; [exact H' |].
  eapply saveObjects_dropped; [exact H9 |].
  eapply droppedWithin_sameTracks; [exact H8 |].
  eapply motion_dropped; [by eapply addStablePoseFactor_motion |].
  eapply motion_dropped; [by eapply addConstantVelocityFactor_motion |].
  eapply addDetectionFactor_dropped; [exact H3 | |].
  - pose proof (propagateObjectPoses_spec _ _ H2) as (-> & -> & _).
    destruct H1 as (_ & -> & _). rewrite Hd1. exact Hw.
  - eapply propagateObjectPoses_dropped; [exact H2 |].
    by eapply retiredBetween_sameTracks.
Qed.

Lemma step_retired k n0 m0 (s s' : mapOptimization) :
  step withoutWrap s s' ->
  retiredBetween k n0 m0 s -> retiredBetween k n0 m0 s'.
Proof.
  intros H Hs. destruct H as [msgIn s s' Hw H | |]; [| done | done].
  by eapply laserCloudInfoHandler_retired.
Qed.

Lemma rtc_retired k n0 m0 (s s' : mapOptimization) :
  rtc (step withoutWrap) s s' ->
  retiredBetween k n0 m0 s -> retiredBetween k n0 m0 s'.
Proof.
  intros H Hs.
  eapply (rtc_ind_r (fun t => retiredBetween k n0 m0 t) s); [| | exact H].
  - done.
  - intros s1 s2 _ Hstep IH. by eapply step_retired.
Qed.

(** No object is stored under [-1]: the invariant of the keys holds of
    every state that the node reaches. *)
Lemma reachable_registered (s : mapOptimization) :
  reachable withoutWrap s -> registered s.
Proof.
  intros H. eapply (rtc_retired (-1) 0 0) in H; [by destruct H |].
  split_and!; try done.
  split; [intros i e p _ Hl; by destruct i | intros p Hp].
  by apply elem_of_nil in Hp.
Qed.

Lemma Epoch_find_elem_of (k : Z) (o : ObjectState) (e : Epoch) :
  Epoch_find k e = Some o -> (k, o) ∈ e.
Proof.
  induction e as [| [k' o'] e IH]; [done |]. cbn.
  destruct (Z.eqb_spec k k') as [-> | Hne]; intros H.
  - simplify_eq. apply elem_of_cons. by left.
  - apply elem_of_cons. right. by apply IH.
Qed.

Lemma Epoch_find_sorted (k : Z) (o : ObjectState) (e : Epoch) :
  keysSorted e -> (k, o) ∈ e -> Epoch_find k e = Some o.
Proof.
  unfold keysSorted. induction e as [| [k' o'] e IH]; intros Hs Hin.
  - by apply elem_of_nil in Hin.
  - apply StronglySorted_inv in Hs. destruct Hs as [Hs Hf]. cbn in Hf.
    cbn. apply elem_of_cons in Hin. destruct Hin as [Heq | Hin].
    + simplify_eq. by rewrite Z.eqb_refl.
    + destruct (Z.eqb_spec k k') as [-> | Hne]; [| by apply IH].
      rewrite Forall_forall in Hf. specialize (Hf k').
      assert (k' ∈ keys e) as Hk.
      { unfold keys. apply list_elem_of_fmap. by exists (k', o). }
      specialize (Hf Hk). lia.
Qed.

(** ** Runs *)

Lemma sweeps_anySweep (l : list Sweep) :
  forall s s' : mapOptimization,
    forEach laserCloudInfoHandler l s = Some s' -> rtc (step anySweep) s s'.
Proof.
  induction l as [| msgIn l IH]; intros s s' H.
  - simpl in H. by simplify_eq.
  - apply forEach_cons_Some in H. destruct H as (s1 & E & H).
    eapply rtc_l; [| by apply IH]. by eapply step_sweep.
Qed.

Lemma sweeps_withoutWrap (l : list Sweep) :
  forall s s' : mapOptimization,
    forEach sweepWithoutWrap l s = Some s' -> rtc (step withoutWrap) s s'.
Proof.
  induction l as [| msgIn l IH]; intros s s' H.
  - simpl in H. by simplify_eq.
  - apply forEach_cons_Some in H. destruct H as (s1 & E & H).
    eapply rtc_l; [| by apply IH]. unfold sweepWithoutWrap in E.
    destruct (withoutWrapb msgIn s) eqn:Ew; [| done].
    eapply step_sweep; [| exact E].
    unfold withoutWrap. unfold withoutWrapb in Ew. by apply Z.ltb_lt.
Qed.

(** The score of an object after its turn in data association. *)
Lemma associateObject_score k inv i o (s : mapOptimization) a o'
    (s' : mapOptimization) a' :
  associateObject k inv i o s a = Some (o', s', a') ->
  (trackScore o' = trackScore o /\ lostCount o' = INT_MAX)
  \/ (trackScore o' = 0
      /\ (lostCount o' = lostCount o + 1 \/ lostCount o' = INT_MAX))
  \/ (lostCount o' = 0
      /\ (trackScore o' = matchedScore o
          \/ (numberOfPreLooseCouplingSteps + 1 <= matchedScore o
              /\ trackScore o'
                 = matchedScore o - numberOfInterLooseCouplingSteps))).
Proof.
  unfold associateObject, coupleObject, moveToLooselyCoupled, matchedScore.
  intros H.
  crunch; cbn in *;
    first [ by left
          | by right; left; split; [| left]
          | by right; left; split; [| right]
          | by right; right; split; [| left]
          | right; right; split; [done | right; split; [lia | done]] ].
Qed.

(** C2 (amended). Provided the configuration has
    [0 <= numberOfInterLooseCouplingSteps <= numberOfPreLooseCouplingSteps + 1],
    in every state that the node reaches every object of the current (last)
    epoch has [0 <= trackScore <= numberOfPreLooseCouplingSteps + 1]. In
    data association the score of an object that is matched again after a
    lost step is kept (the object is retired); the score of an object left
    unmatched is reset to 0; the score of an object matched is incremented
    unless it is above [P], which caps it at [P + 1]; and an object that
    reaches [P + 1] and fails a test of tight coupling is demoted by
    [numberOfInterLooseCouplingSteps] from there, without any clamp. *)
Theorem trackScore_bounds :
  0 <= numberOfInterLooseCouplingSteps <= numberOfPreLooseCouplingSteps + 1 ->
  (forall s : mapOptimization, reachable anySweep s -> scoresBounded s)
  /\ (forall k inv i (o : ObjectState) (s : mapOptimization) a
             (o' : ObjectState) (s' : mapOptimization) a',
        associateObject k inv i o s a = Some (o', s', a') ->
        (trackScore o' = trackScore o /\ lostCount o' = INT_MAX)
        \/ (trackScore o' = 0
            /\ (lostCount o' = lostCount o + 1 \/ lostCount o' = INT_MAX))
        \/ (lostCount o' = 0
            /\ (trackScore o' = matchedScore o
                \/ (numberOfPreLooseCouplingSteps + 1 <= matchedScore o
                    /\ trackScore o'
                       = matchedScore o - numberOfInterLooseCouplingSteps))))
  /\ (forall o : ObjectState,
        trackScore o <= numberOfPreLooseCouplingSteps + 1 ->
        trackScore o <= matchedScore o <= numberOfPreLooseCouplingSteps + 1
        /\ (trackScore o <= numberOfPreLooseCouplingSteps ->
            matchedScore o = trackScore o + 1)).
Proof.
  intros Hinter. split; [| split].
  - intros s. by apply reachable_bounded.
  - intros k inv i o s a o' s' a'. apply associateObject_score.
  - intros o Ho. unfold matchedScore.
    destruct (Z.leb_spec (trackScore o) numberOfPreLooseCouplingSteps); lia.
Qed.

(** C5. Let the node be in a state [s] reached between two callbacks, in
    which the object stored under the key (the [objectIndex]) [k] in the
    current epoch has [lostCount > trackingStepsForLostObject], by lost
    steps or by retirement ([lostCount] set to the maximum integer).
    Whatever callbacks follow, as long as the counter of the objects does
    not pass [2^64]: no epoch added after [s] holds an object under [k],
    and no factor added after [s] is for the object [k]. In the sweep of
    the retirement itself, [addConstantVelocityFactor] and
    [addStablePoseFactor] add factors only for objects of the current
    epoch whose [lostCount] is not positive. The index used for the
    tracking path ([objectIndexForTracking]) is another matter: a retired
    object hands it to the object registered in its place. *)
Theorem retired_track_never_returns (s s' : mapOptimization) (k : Z)
    (current : Epoch) (o : ObjectState) :
  reachable withoutWrap s ->
  back (objects s) = Some current ->
  Epoch_find k current = Some o ->
  trackingStepsForLostObject < lostCount o ->
  rtc (step withoutWrap) s s' ->
  absentFrom k (length (objects s)) (length (factorTrace s)) s'
  /\ (forall t t' : mapOptimization,
        addConstantVelocityFactor t = Some t'
        \/ addStablePoseFactor t = Some t' ->
        tracedFor (tracked t) t t').
Proof.
  intros Hreach Hb Hfind Hlost Hrun. split.
  - pose proof (reachable_registered s Hreach) as Hreg.
    destruct Hreg as (Hc & Hcur). destruct (Hcur current Hb) as (Hs & Hin).
    assert (retiredBetween k (length (objects s)) (length (factorTrace s)) s)
      as Hs0.
    { split_and!.
      - by split.
      - apply Epoch_find_elem_of in Hfind.
        destruct (Hin _ Hfind) as (_ & Hr). cbn in Hr. lia.
      - intros c p Hbc Hp Hk. rewrite Hb in Hbc. simplify_eq.
        destruct p as [k' o']. cbn in *.
        apply (Epoch_find_sorted _ _ _ Hs) in Hp. by simplify_eq.
      - split.
        + intros i e p Hi Hl. apply lookup_lt_Some in Hl. lia.
        + intros p Hp. rewrite drop_all in Hp. by apply elem_of_nil in Hp. }
    by destruct (rtc_retired _ _ _ _ _ Hrun Hs0) as (_ & _ & _ & ?).
  - intros t t' [H | H].
    + apply addConstantVelocityFactor_motion in H. by destruct H as (_&_&_&_&?).
    + apply addStablePoseFactor_motion in H. by destruct H as (_&_&_&_&?).
Qed.

(** ** Further properties of the tracker *)

Lemma keys_Epoch_assign_here (k : Z) (o : ObjectState) (e : Epoch) :
  k ∈ keys (Epoch_assign k o e).
Proof.
  induction e as [| [k' o'] e IH]; cbn.
  - apply list_elem_of_here.
  - destruct (k <? k'); [apply list_elem_of_here |].
    destruct (k =? k'); [apply list_elem_of_here |].
    cbn. apply list_elem_of_further, IH.
Qed.

Lemma keys_Epoch_assign_mono (k z : Z) (o : ObjectState) (e : Epoch) :
  z ∈ keys e -> z ∈ keys (Epoch_assign k o e).
Proof.
  induction e as [| [k' o'] e IH]; cbn; intros H.
  - by apply elem_of_nil in H.
  - destruct (Z.ltb_spec k k'); [by apply list_elem_of_further |].
    destruct (Z.eqb_spec k k') as [-> | Hne].
    + cbn. apply elem_of_cons in H. destruct H as [-> | H];
        [apply list_elem_of_here | by apply list_elem_of_further].
    + cbn. apply elem_of_cons in H. destruct H as [-> | H];
        [apply list_elem_of_here | apply list_elem_of_further; by apply IH].
Qed.

Lemma propagateObject_keys first second (s : mapOptimization) acc
    (s' : mapOptimization) acc' :
  propagateObject (first, second) (s, acc) = Some (s', acc') ->
  (forall z, z ∈ keys acc -> z ∈ keys acc')
  /\ (lostCount second <= trackingStepsForLostObject -> first ∈ keys acc').
Proof.
  unfold propagateObject. intros H.
  destruct (Z.gtb_spec (lostCount second) trackingStepsForLostObject).
  - simplify_eq. split; [done | lia].
  - destruct (lostCount second =? 0).
    + crunch. split; [intros z; apply keys_Epoch_assign_mono |].
      intros _. apply keys_Epoch_assign_here.
    + simplify_eq. split; [intros z; apply keys_Epoch_assign_mono |].
      intros _. apply keys_Epoch_assign_here.
Qed.

Lemma propagateObjects_keys (l : Epoch) :
  forall (s : mapOptimization) acc (s' : mapOptimization) acc',
    forEach propagateObject l (s, acc) = Some (s', acc') ->
    (forall z, z ∈ keys acc -> z ∈ keys acc')
    /\ forall p : Z * ObjectState,
        p ∈ l -> lostCount p.2 <= trackingStepsForLostObject ->
        p.1 ∈ keys acc'.
Proof.
  induction l as [| [first second] l IH]; intros s acc s' acc' H.
  - simpl in H. simplify_eq. split; [done |]. intros p Hp.
    by apply elem_of_nil in Hp.
  - apply forEach_cons_Some in H. destruct H as ([s1 acc1] & E & H).
    apply propagateObject_keys in E. destruct E as (Hm1 & Hk1).
    apply IH in H. destruct H as (Hm & Hk).
    split; [intros z Hz; by apply Hm, Hm1 |].
    intros p Hp Hl. apply elem_of_cons in Hp. destruct Hp as [-> | Hp].
    + apply Hm. by apply Hk1.
    + by apply Hk.
Qed.

(** X1. [propagateObjectPoses] appends one epoch to [objects] and leaves
    the epochs before it as they were. The new epoch holds, under the same
    key, a copy of every object of the last epoch whose [lostCount] is at
    most [trackingStepsForLostObject], and nothing else: each copy has the
    [objectIndex], [trackScore] and [lostCount] of its original and is not
    [isFirst]. *)
Theorem propagation_appends_one_epoch (s s' : mapOptimization) :
  propagateObjectPoses s = Some s' ->
  exists nextObjects : Epoch,
    objects s' = objects s ++ [nextObjects]
    /\ keysSorted nextObjects
    /\ (forall (k : Z) (o' : ObjectState),
          (k, o') ∈ nextObjects ->
          exists (lastObjects : Epoch) (o : ObjectState),
            back (objects s) = Some lastObjects
            /\ (k, o) ∈ lastObjects
            /\ lostCount o <= trackingStepsForLostObject
            /\ objectIndex o' = objectIndex o
            /\ trackScore o' = trackScore o
            /\ lostCount o' = lostCount o
            /\ isFirst o' = false)
    /\ (forall (lastObjects : Epoch) (k : Z) (o : ObjectState),
          back (objects s) = Some lastObjects ->
          (k, o) ∈ lastObjects ->
          lostCount o <= trackingStepsForLostObject ->
          k ∈ keys nextObjects).
Proof.
  intros H. pose proof (propagateObjectPoses_spec _ _ H)
    as (_ & _ & _ & next & Ho & Hin).
  exists next. split_and!; [done | | |].
  - eapply propagateObjectPoses_sorted; [exact H |].
    rewrite Ho. apply back_snoc.
  - intros k o' Hk.
    destruct (Hin _ Hk) as (lastObjects & o & Hb & Hl & Hlost & Hsame & Hf).
    destruct Hsame as (? & ? & ?). by exists lastObjects, o.
  - intros lastObjects k o Hb Hk Hl.
    unfold propagateObjectPoses in H. rewrite Hb in H.
    destruct (forEach propagateObject lastObjects (s, [])) as [[s1 e1] |]
      eqn:E; cbn [mbind option_bind] in H; [| done].
    simplify_eq. cbn in Ho. apply app_inj_tail in Ho.
    destruct Ho as [_ <-].
    apply propagateObjects_keys in E. destruct E as (_ & E).
    by apply (E (k, o)).
Qed.

(** X2. When [numberOfRegisteredObjects] has room for one more object per
    detection below [2^64], [addDetectionFactor] never decreases it and
    raises it by at most the number of detections; every object of the
    last epoch afterwards either stands under the key of an object that
    was there before, with the same [objectIndex], or is a new object: its
    key is its [objectIndex], it lies between the old and the new value of
    the counter, and its [trackScore] and [lostCount] are 0. *)
Theorem registration_takes_fresh_keys (mock : bool)
    (s s' : mapOptimization) :
  0 <= numberOfRegisteredObjects s ->
  numberOfRegisteredObjects s + Z.of_nat (length (detections s)) < 2 ^ 64 ->
  addDetectionFactor mock s = Some s' ->
  numberOfRegisteredObjects s <= numberOfRegisteredObjects s'
  <= numberOfRegisteredObjects s + Z.of_nat (length (detections s))
  /\ forall (current' : Epoch) (k : Z) (o' : ObjectState),
      back (objects s') = Some current' -> (k, o') ∈ current' ->
      (exists (current : Epoch) (o : ObjectState),
          back (objects s) = Some current /\ (k, o) ∈ current
          /\ objectIndex o' = objectIndex o)
      \/ (numberOfRegisteredObjects s <= k < numberOfRegisteredObjects s'
          /\ objectIndex o' = k /\ trackScore o' = 0 /\ lostCount o' = 0).
Proof.
  intros Hc Hroom H. apply addDetectionFactor_spec in H. cbn zeta in H.
  destruct H as (Hn & H). specialize (Hn (conj Hc Hroom)).
  split; [exact Hn |]. intros current' k o' Hb Hk.
  destruct H as [(_ & Ho & _) | H]; [by rewrite Ho in Hb |].
  destruct H as (current & c' & Hbs & Ho & _ & Hin & _).
  rewrite Ho, back_snoc in Hb. simplify_eq.
  destruct (Hin _ Hk) as [(p & Hp & Hkey & (Hi & _)) | (Hi & (? & ?) & Hr)].
  - left. exists current, p.2. cbn in Hkey. subst k.
    split_and!; try done. by destruct p.
  - right. specialize (Hr (conj Hc Hroom)). cbn in *. done.
Qed.

(** X3. In every state that the node reaches, as long as
    [numberOfRegisteredObjects] does not pass [2^64], the keys of the last
    epoch are in increasing order, every object of it is stored under its
    own [objectIndex], which is below [numberOfRegisteredObjects], and
    looking its key up gives that object. *)
Theorem epoch_keys_are_object_indices (s : mapOptimization)
    (current : Epoch) :
  reachable withoutWrap s ->
  back (objects s) = Some current ->
  keysSorted current
  /\ forall (k : Z) (o : ObjectState),
      (k, o) ∈ current ->
      objectIndex o = k /\ 0 <= k < numberOfRegisteredObjects s
      /\ Epoch_find k current = Some o.
Proof.
  intros Hr Hb. destruct (reachable_registered s Hr) as (_ & H).
  destruct (H current Hb) as (Hs & Hin). split; [done |].
  intros k o Hk. destruct (Hin _ Hk) as (? & ?).
  split; [done |]. split; [done |]. by apply Epoch_find_sorted.
Qed.

(** ** The key-frame stores and the buffers of the solver *)

Lemma correctPoses_keyFrames (s s' : mapOptimization) :
  correctPoses s = Some s' ->
  length (cloudKeyPoses3D s') = length (cloudKeyPoses3D s)
  /\ length (cloudKeyPoses6D s') = length (cloudKeyPoses6D s)
  /\ keyPoseIndices s' = keyPoseIndices s.
Proof.
  intros H. unfold correctPoses in H.
  remember (cloudKeyPoses3D s) as l3 eqn:E3 in H.
  destruct l3; [by simplify_eq |].
  destruct (_ || _); [| by simplify_eq].
  destruct (correctPoses_loop _ _ _) as [s1 |] eqn:E; simpl in H; [| done].
  simplify_eq. apply correctPoses_loop_spec in E.
  destruct E as (H3 & H6 & _ & _ & _ & _ & Hk & _). done.
Qed.

Lemma publishOdometry_keyFrames (s : mapOptimization) :
  keyFrames (publishOdometry s) = keyFrames s
  /\ estimator (publishOdometry s) = estimator s.
Proof.
  unfold publishOdometry. destruct (negb _); [done |].
  destruct (getTranslationAndEulerAngles _) as [[[[[x y] z] roll] pitch] yaw].
  cbn zeta. destruct (cloudInfo s). cbn.
  repeat case_match; done.
Qed.

Lemma publishObject_keyFrames (p : Z * ObjectState) (s s' : mapOptimization) :
  publishObject p s = Some s' ->
  keyFrames s' = keyFrames s /\ estimator s' = estimator s.
Proof. unfold publishObject. intros H. crunch. Qed.

Lemma hideObject_keyFrames current (p : Z * ObjectState)
    (s s' : mapOptimization) :
  hideObject current p s = Some s' ->
  keyFrames s' = keyFrames s /\ estimator s' = estimator s.
Proof. unfold hideObject. intros H. crunch. Qed.

Lemma publishFrames_keyFrames (s s' : mapOptimization) :
  publishFrames s = Some s' ->
  keyFrames s' = keyFrames s /\ estimator s' = estimator s.
Proof.
  unfold publishFrames. intros H.
  destruct (cloudKeyPoses3D s); [by simplify_eq |].
  destruct (detectionIsActive s); [| by simplify_eq].
  destruct (back (objects s)) as [current |]; simpl in H; [| done].
  destruct (forEach publishObject current s) as [s1 |] eqn:E; simpl in H;
    [| done].
  pose (R := fun a b : mapOptimization =>
               keyFrames b = keyFrames a /\ estimator b = estimator a).
  assert (forall a, R a a) as Rr by done.
  assert (forall a b c, R a b -> R b c -> R a c) as Rt.
  { intros a b c [? ?] [? ?]. split; congruence. }
  apply (Rt s s1 s').
  - eapply (forEach_rel R); [done | done | apply publishObject_keyFrames
      | exact E].
  - eapply (forEach_rel R); [done | done | apply hideObject_keyFrames
      | exact H].
Qed.

Lemma scan2MapIterations_keyFrames (n : nat) (iterCount : Z)
    (s : mapOptimization) :
  keyFrames (scan2MapIterations n iterCount s) = keyFrames s
  /\ estimator (scan2MapIterations n iterCount s) = estimator s.
Proof.
  revert iterCount s. induction n as [| n IH]; intros iterCount s; [done |].
  simpl. destruct (optimizationCoeffs _ _) as [ori coeff].
  assert (keyFrames (LMOptimization iterCount
                       (set_coeffSel coeff (set_laserCloudOri ori s))).2
          = keyFrames s
          /\ estimator (LMOptimization iterCount
                          (set_coeffSel coeff (set_laserCloudOri ori s))).2
             = estimator s) as H.
  { unfold LMOptimization. destruct (_ <? 50); [done |].
    destruct (normalEquations _ _ _) as [matAtA matAtB].
    destruct (iterCount =? 0); [| done].
    destruct (cv_eigen matAtA) as [matE matV].
    by destruct (degenerateRows 6 matE matV false). }
  destruct (LMOptimization _ _) as [converged s'].
  destruct converged; [done |].
  destruct (IH (iterCount + 1) s') as [-> ->]. done.
Qed.

Lemma scan2MapOptimization_keyFrames (s : mapOptimization) :
  keyFrames (scan2MapOptimization s) = keyFrames s
  /\ estimator (scan2MapOptimization s) = estimator s.
Proof.
  unfold scan2MapOptimization. destruct (cloudKeyPoses3D s); [done |].
  destruct (_ && _); [| done].
  destruct (scan2MapIterations_keyFrames 30 0 s) as [Hk He]. done.
Qed.

Lemma prepareSweep_keyFrames (msgIn : Sweep) (s : mapOptimization) :
  cloudKeyPoses3D (prepareSweep msgIn s) = cloudKeyPoses3D s
  /\ cloudKeyPoses6D (prepareSweep msgIn s) = cloudKeyPoses6D s
  /\ keyPoseIndices (prepareSweep msgIn s) = keyPoseIndices s
  /\ estimator (prepareSweep msgIn s) = estimator s.
Proof. unfold prepareSweep, getDetections. by destruct (sw_reply msgIn). Qed.

Lemma laserCloudInfoHandler_aligned (msgIn : Sweep) (s s' : mapOptimization) :
  laserCloudInfoHandler msgIn s = Some s' ->
  alignedKeyFrames s -> alignedKeyFrames s'.
Proof.
  unfold laserCloudInfoHandler. intros H Ha. cbn zeta in H.
  assert (alignedKeyFrames (receiveSweep msgIn s)) as Hr by exact Ha.
  remember (receiveSweep msgIn s) as sr eqn:Esr. clear Esr Ha.
  destruct (_ <=? _)%float; [| by simplify_eq].
  destruct (prepareSweep_keyFrames msgIn sr) as (P3 & P6 & Pk & _).
  remember (prepareSweep msgIn sr) as sp eqn:Esp. clear Esp.
  destruct (scan2MapOptimization_keyFrames sp) as [Hk0 _].
  remember (scan2MapOptimization sp) as s0 eqn:Es0. clear Es0.
  destruct (saveKeyFramesAndFactor s0) as [t1 |] eqn:E1;
    cbn [mbind option_bind] in H; [| done].
  destruct (correctPoses t1) as [t2 |] eqn:E2;
    cbn [mbind option_bind] in H; [| done].
  apply correctPoses_keyFrames in E2. destruct E2 as (C3 & C6 & Ck).
  destruct (publishOdometry_keyFrames t2) as [O1 _].
  apply publishFrames_keyFrames in H. destruct H as [F1 _].
  assert (exists b, saveFrame s0 = Some b) as [b Hb].
  { unfold saveKeyFramesAndFactor in E1.
    destruct (saveFrame s0) as [b |]; [by exists b | done]. }
  destruct (saveKeyFramesAndFactor_keyframes _ _ _ Hb E1) as (K3 & K6 & Kk).
  unfold alignedKeyFrames, cloudKeyPoses3D, cloudKeyPoses6D, keyPoseIndices
    in *.
  rewrite F1, O1. rewrite Hk0 in K3, K6, Kk.
  destruct Hr as [Hr1 Hr2]. split; congruence.
Qed.

Lemma saveKeyPose_buffers (s s' : mapOptimization) :
  saveKeyPose s = Some s' -> buffersEmpty s -> buffersEmpty s'.
Proof.
  unfold saveKeyPose. intros H.
  destruct (back (keyPoseIndices s)) as [k |]; simpl in H; [| done].
  destruct (Values_at k _) as [e |]; simpl in H; [| done].
  by simplify_eq.
Qed.

Lemma updateISAM_buffers (s : mapOptimization) : buffersEmpty (updateISAM s).
Proof.
  unfold updateISAM, buffersEmpty.
  destruct (aLoopIsClosed s) eqn:E; cbn; rewrite ?E; cbn;
    by destruct (gtSAMgraphForLooselyCoupledObjects s).
Qed.

Lemma buffersEmpty_estimator (s s' : mapOptimization) :
  estimator s' = estimator s -> buffersEmpty s -> buffersEmpty s'.
Proof.
  unfold buffersEmpty, gtSAMgraph, gtSAMgraphForLooselyCoupledObjects,
    initialEstimate, initialEstimateForLooselyCoupledObjects,
    initialEstimateForAnalysis.
  by intros ->.
Qed.

Lemma correctPoses_loop_estimator (indices : list Z) :
  forall (i : nat) (s s' : mapOptimization),
    correctPoses_loop indices i s = Some s' -> estimator s' = estimator s.
Proof.
  induction indices as [| k indices IH]; intros i s s' H; simpl in H.
  - by simplify_eq.
  - destruct (Values_at k _) as [e |]; simpl in H; [| done].
    destruct (cloudKeyPoses3D s !! i) as [p3 |]; simpl in H; [| done].
    destruct (cloudKeyPoses6D s !! i) as [p6 |]; simpl in H; [| done].
    apply IH in H. by rewrite H.
Qed.

Lemma correctPoses_estimator (s s' : mapOptimization) :
  correctPoses s = Some s' -> estimator s' = estimator s.
Proof.
  unfold correctPoses. intros H.
  destruct (cloudKeyPoses3D s); [by simplify_eq |].
  destruct (_ || _); [| by simplify_eq].
  destruct (correctPoses_loop _ _ _) as [s1 |] eqn:E; simpl in H; [| done].
  simplify_eq. apply correctPoses_loop_estimator in E. exact E.
Qed.

Lemma laserCloudInfoHandler_buffers (msgIn : Sweep) (s s' : mapOptimization) :
  laserCloudInfoHandler msgIn s = Some s' ->
  buffersEmpty s -> buffersEmpty s'.
Proof.
  unfold laserCloudInfoHandler. intros H Ha. cbn zeta in H.
  assert (buffersEmpty (receiveSweep msgIn s)) as Hr by exact Ha.
  remember (receiveSweep msgIn s) as sr eqn:Esr. clear Esr Ha.
  destruct (_ <=? _)%float; [| by simplify_eq].
  remember (scan2MapOptimization (prepareSweep msgIn sr)) as s0 eqn:Es0.
  clear Es0.
  destruct (saveKeyFramesAndFactor s0) as [t1 |] eqn:E1;
    cbn [mbind option_bind] in H; [| done].
  destruct (correctPoses t1) as [t2 |] eqn:E2;
    cbn [mbind option_bind] in H; [| done].
  apply correctPoses_estimator in E2.
  destruct (publishOdometry_keyFrames t2) as [_ O1].
  apply publishFrames_keyFrames in H. destruct H as [_ F1].
  apply saveKeyFramesAndFactor_steps in E1.
  destruct E1 as (b & s1 & s6 & s8 & _ & _ & _ & H8 & H9).
  apply saveObjects_untouched in H9. destruct H9 as (_ & H9 & _).
  apply (buffersEmpty_estimator s8 s'); [congruence |].
  destruct b.
  - eapply saveKeyPose_buffers; [exact H8 |]. apply updateISAM_buffers.
  - simplify_eq. apply updateISAM_buffers.
Qed.

(** X4. In every state that the node reaches, the list of the node
    indices of the key frames and the two lists of their stored poses
    ([cloudKeyPoses3D], [cloudKeyPoses6D]) have the same length: a sweep
    adds one entry to each of the three or to none, and [correctPoses]
    rewrites the poses in place. *)
Theorem key_frame_stores_aligned (s : mapOptimization) :
  reachable anySweep s -> alignedKeyFrames s.
Proof.
  unfold reachable. intros H.
  eapply (rtc_ind_r (fun t => alignedKeyFrames t) initialState);
    [| | exact H].
  - done.
  - intros s1 s2 _ Hstep IH.
    destruct Hstep as [msgIn t t' _ Hh | |]; [| done | done].
    by eapply laserCloudInfoHandler_aligned.
Qed.

(** X5. In every state that the node reaches, the two factor graphs and
    the three buffers of initial values are empty: what a sweep adds to
    them is given to the solver and cleared before the sweep ends, so that
    no factor and no initial value is given to the solver twice. *)
Theorem buffers_empty_between_callbacks (s : mapOptimization) :
  reachable anySweep s -> buffersEmpty s.
Proof.
  unfold reachable. intros H.
  eapply (rtc_ind_r (fun t => buffersEmpty t) initialState); [| | exact H].
  - done.
  - intros s1 s2 _ Hstep IH.
    destruct Hstep as [msgIn t t' _ Hh | |]; [| done | done].
    by eapply laserCloudInfoHandler_buffers.
Qed.

(** ** Loop and GPS factors *)

Lemma addLoopFactor_loop_spec (qs : list (Z * Z)) :
  forall (ps : list Pose3) (ns : list Noise) (g g' : NonlinearFactorGraph),
    addLoopFactor_loop qs ps ns g = Some g' ->
    (length qs <= length ps)%nat /\ (length qs <= length ns)%nat
    /\ take (length g) g' = g
    /\ length g' = (length g + length qs)%nat
    /\ forall (i : nat) (indexFrom indexTo : Z),
        qs !! i = Some (indexFrom, indexTo) ->
        exists (poseBetween : Pose3) (noiseBetween : Noise),
          ps !! i = Some poseBetween /\ ns !! i = Some noiseBetween
          /\ g' !! (length g + i)%nat
            = Some (BetweenFactor indexFrom indexTo poseBetween noiseBetween).
Proof.
  induction qs as [| [indexFrom indexTo] qs IH]; intros ps ns g g' H.
  - cbn in H. simplify_eq. split_and!; cbn; try lia.
    + by rewrite firstn_all.
    + intros i a b Hi. by rewrite lookup_nil in Hi.
  - destruct ps as [| p ps]; [done |]. destruct ns as [| n ns]; [done |].
    cbn in H. apply IH in H. destruct H as (Hp & Hn & Ht & Hl & Hi).
    rewrite length_app in Ht, Hl, Hi. cbn in Ht, Hl, Hi.
    split_and!; cbn; try lia.
    + rewrite <- (take_app_length g [BetweenFactor indexFrom indexTo p n])
        at 2.
      rewrite <- Ht, take_take. by rewrite Nat.min_l by lia.
    + intros i a b Hq. destruct i as [| i]; cbn in Hq.
      * simplify_eq. exists p, n. split_and!; try done.
        rewrite Nat.add_0_r.
        rewrite <- (lookup_take_lt g' (length g + 1)) by lia.
        rewrite Ht. apply list_lookup_middle. done.
      * destruct (Hi i a b Hq) as (pb & nb & ? & ? & Hg).
        exists pb, nb. split_and!; try done.
        by replace (length g + S i)%nat with (length g + 1 + i)%nat by lia.
Qed.

(** X6. [addLoopFactor] does nothing when [loopIndexQueue] is empty.
    Otherwise it fails unless the queues of the poses and of the noises
    are at least as long as [loopIndexQueue]; it keeps the factors that
    the graph holds, appends one [BetweenFactor] for every pair of
    [loopIndexQueue], in the order of the queue and with the pose and the
    noise at the same position, empties the three queues and sets
    [aLoopIsClosed]. *)
Theorem loop_factors_drain_the_queues (s s' : mapOptimization) :
  addLoopFactor s = Some s' ->
  (loopIndexQueue s = [] -> s' = s)
  /\ (loopIndexQueue s <> [] ->
      (length (loopIndexQueue s) <= length (loopPoseQueue s))%nat
      /\ (length (loopIndexQueue s) <= length (loopNoiseQueue s))%nat
      /\ loopIndexQueue s' = [] /\ loopPoseQueue s' = []
      /\ loopNoiseQueue s' = [] /\ aLoopIsClosed s' = true
      /\ take (length (gtSAMgraph s)) (gtSAMgraph s') = gtSAMgraph s
      /\ length (gtSAMgraph s')
         = (length (gtSAMgraph s) + length (loopIndexQueue s))%nat
      /\ forall (i : nat) (indexFrom indexTo : Z),
          loopIndexQueue s !! i = Some (indexFrom, indexTo) ->
          exists (poseBetween : Pose3) (noiseBetween : Noise),
            loopPoseQueue s !! i = Some poseBetween
            /\ loopNoiseQueue s !! i = Some noiseBetween
            /\ gtSAMgraph s' !! (length (gtSAMgraph s) + i)%nat
              = Some (BetweenFactor indexFrom indexTo poseBetween
                                    noiseBetween)).
Proof.
  intros H. unfold addLoopFactor in H.
  remember (loopIndexQueue s) as qs eqn:Eq in H.
  destruct qs as [| q qs].
  - simplify_eq. split; [done |]. by rewrite <- Eq.
  - split; [by rewrite <- Eq |]. intros _.
    destruct (addLoopFactor_loop _ _ _ _) as [g |] eqn:E; simpl in H;
      [| done].
    simplify_eq. apply addLoopFactor_loop_spec in E.
    destruct E as (Hp & Hn & Ht & Hl & Hi). cbn. rewrite <- Eq.
    split_and!; done.
Qed.

Lemma addGPSFactor_loop_spec (q : list Odometry) :
  forall s : mapOptimization,
    let s' := addGPSFactor_loop q s in
    (gtSAMgraph s' = gtSAMgraph s
     /\ aLoopIsClosed s' = aLoopIsClosed s
     /\ lastGPSPoint s' = lastGPSPoint s
     /\ exists n : nat, gpsQueue s' = drop n q)
    \/ exists (n : nat) (thisGPS : Odometry) (z : float) (noise : Noise),
        q !! n = Some thisGPS
        /\ gpsQueue s' = drop (S n) q
        /\ acceptedGPS thisGPS s
        /\ gtSAMgraph s'
          = gtSAMgraph s
            ++ [GPSFactor (Z.of_nat (length (cloudKeyPoses3D s)))
                          (Float32.of_double (od_x thisGPS))
                          (Float32.of_double (od_y thisGPS)) z noise]
        /\ lastGPSPoint s'
           = mkPointType (Float32.of_double (od_x thisGPS))
                         (Float32.of_double (od_y thisGPS)) z 0
        /\ aLoopIsClosed s' = true.
Proof.
  induction q as [| thisGPS q IH]; intros s; cbn zeta.
  - left. split; [done |]. split; [done |]. split; [done |].
    by exists 0%nat.
  - assert (forall t : mapOptimization,
               t = addGPSFactor_loop q s ->
               (gtSAMgraph t = gtSAMgraph s
                /\ aLoopIsClosed t = aLoopIsClosed s
                /\ lastGPSPoint t = lastGPSPoint s
                /\ exists n : nat, gpsQueue t = drop n (thisGPS :: q))
               \/ exists (n : nat) (g : Odometry) (z : float) (noise : Noise),
                   (thisGPS :: q) !! n = Some g
                   /\ gpsQueue t = drop (S n) (thisGPS :: q)
                   /\ acceptedGPS g s
                   /\ gtSAMgraph t
                     = gtSAMgraph s
                       ++ [GPSFactor (Z.of_nat (length (cloudKeyPoses3D s)))
                                     (Float32.of_double (od_x g))
                                     (Float32.of_double (od_y g)) z noise]
                   /\ lastGPSPoint t
                      = mkPointType (Float32.of_double (od_x g))
                                    (Float32.of_double (od_y g)) z 0
                   /\ aLoopIsClosed t = true) as Hskip.
    { intros t ->. destruct (IH s) as [(? & ? & ? & n & ?) | H].
      - left. split; [done |]. split; [done |]. split; [done |].
        by exists (S n).
      - right. destruct H as (n & g & z & noise & ? & ? & ?).
        by exists (S n), g, z, noise. }
    cbn [addGPSFactor_loop]. cbv zeta.
    destruct (toSec (od_stamp thisGPS) <? timeLaserInfoCur s - 0.2)%float
      eqn:Eold; [by apply Hskip |].
    destruct (timeLaserInfoCur s + 0.2 <? toSec (od_stamp thisGPS))%float
      eqn:Enew.
    { left. split; [done |]. split; [done |]. split; [done |].
      by exists 0%nat. }
    destruct (gpsCovThreshold
              <? Float32.of_double (nth 0 (od_covariance thisGPS) 0))%float
      eqn:Ex; [by apply Hskip |].
    destruct (gpsCovThreshold
              <? Float32.of_double (nth 7 (od_covariance thisGPS) 0))%float
      eqn:Ey; [by apply Hskip |].
    cbn [orb].
    destruct ((fabs _ <? _)%float && _); [by apply Hskip |].
    destruct (pointDistance _ _ <? 5)%float; [by apply Hskip |].
    right. eexists 0%nat, thisGPS, _, _. unfold acceptedGPS.
    split_and!; done.
Qed.

(** X7. [addGPSFactor] adds at most one factor in a call. Either the
    graph, [aLoopIsClosed] and the last GPS point are as before and the
    queue has lost some of its first messages; or one [GPSFactor] is
    appended, for a message of the queue that passes the tests of the
    stamp (neither older than [timeLaserInfoCur - 0.2] nor newer than
    [timeLaserInfoCur + 0.2]) and of the covariance (neither
    [covariance[0]] nor [covariance[7]], converted to [float], is above
    [gpsCovThreshold]): the factor is on the key [cloudKeyPoses3D.size()]
    at the x and y of the message converted to [float], the queue is what
    followed that message, and [aLoopIsClosed] is set. *)
Theorem gps_adds_at_most_one_factor (s s' : mapOptimization) :
  addGPSFactor s = Some s' ->
  (gtSAMgraph s' = gtSAMgraph s
   /\ aLoopIsClosed s' = aLoopIsClosed s
   /\ lastGPSPoint s' = lastGPSPoint s
   /\ exists n : nat, gpsQueue s' = drop n (gpsQueue s))
  \/ exists (n : nat) (thisGPS : Odometry) (z : float) (noise : Noise),
      gpsQueue s !! n = Some thisGPS
      /\ gpsQueue s' = drop (S n) (gpsQueue s)
      /\ (toSec (od_stamp thisGPS) <? timeLaserInfoCur s - 0.2)%float = false
      /\ (timeLaserInfoCur s + 0.2 <? toSec (od_stamp thisGPS))%float = false
      /\ (gpsCovThreshold
          <? Float32.of_double (nth 0 (od_covariance thisGPS) 0))%float
         = false
      /\ (gpsCovThreshold
          <? Float32.of_double (nth 7 (od_covariance thisGPS) 0))%float
         = false
      /\ gtSAMgraph s'
        = gtSAMgraph s
          ++ [GPSFactor (Z.of_nat (length (cloudKeyPoses3D s)))
                        (Float32.of_double (od_x thisGPS))
                        (Float32.of_double (od_y thisGPS)) z noise]
      /\ aLoopIsClosed s' = true.
Proof.
  intros H.
  assert (s' = s \/ s' = addGPSFactor_loop (gpsQueue s) s) as [-> | ->].
  { unfold addGPSFactor in H.
    destruct (gpsQueue s) as [| g q] eqn:Eq; [left; by simplify_eq |].
    destruct (cloudKeyPoses3D s) as [| front l]; [left; by simplify_eq |].
    destruct (back (front :: l)) as [last3D |]; simpl in H; [| done].
    destruct (_ <? _)%float; [left; by simplify_eq |].
    destruct (diagonalEntry _ 3) as [cxx |]; simpl in H; [| done].
    destruct (diagonalEntry _ 4) as [cyy |]; simpl in H; [| done].
    destruct (_ && _); [left; by simplify_eq |].
    right. by simplify_eq. }
  - left. split; [done |]. split; [done |]. split; [done |].
    by exists 0%nat.
  - destruct (addGPSFactor_loop_spec (gpsQueue s) s)
      as [? | (n & g & z & noise & Hn & Hq & Ha & Hg & _ & Hl)];
      [by left | right].
    destruct Ha as (? & ? & ? & ?).
    exists n, g, z, noise. split_and!; done.
Qed.

(** ** The read-back of the objects *)

(** X8. [saveKeyFramesAndFactor] reads the estimates back into the
    objects of the last epoch ([saveObjects]): the keys stay, an object
    with [lostCount > 0] is left exactly as it is, and every other object
    takes the pose and the velocity that the estimate holds for its two
    nodes and keeps its [objectIndex], [trackScore] and [lostCount]; the
    read-back fails when the estimate lacks one of these nodes. *)
Theorem read_back_keeps_lost_objects (s s' : mapOptimization)
    (current : Epoch) :
  saveObjects s = Some s' ->
  back (objects s) = Some current ->
  exists current' : Epoch,
    objects s' = removelast (objects s) ++ [current']
    /\ Forall2
        (fun p p' : Z * ObjectState =>
           p'.1 = p.1
           /\ objectIndex p'.2 = objectIndex p.2
           /\ trackScore p'.2 = trackScore p.2
           /\ lostCount p'.2 = lostCount p.2
           /\ (0 < lostCount p.2 -> p' = p)
           /\ (lostCount p.2 <= 0 ->
               isamCurrentEstimate s !! poseNodeIndex p.2 = Some (pose p'.2)
               /\ isamCurrentEstimate s !! velocityNodeIndex p.2
                  = Some (velocity p'.2)))
        current current'.
Proof.
  unfold saveObjects. intros H Hb. rewrite Hb in H.
  destruct (mapM _ current) as [current' |] eqn:Em; simpl in H; [| done].
  simplify_eq. exists current'. split; [done |].
  apply mapM_Some in Em. eapply Forall2_impl; [exact Em |].
  cbn. intros [k o] [k' o'] Hr. unfold readBackObject in Hr.
  destruct (Z.gtb_spec (lostCount o) 0).
  - simplify_eq. cbn. split_and!; try done. lia.
  - unfold Values_at in Hr.
    destruct (isamCurrentEstimate s !! poseNodeIndex o) as [x |] eqn:Ex;
      simpl in Hr; [| done].
    destruct (isamCurrentEstimate s !! velocityNodeIndex o) as [v |] eqn:Ev;
      simpl in Hr; [| done].
    destruct (Pose3_toQuaternion x) as [[[qw qx] qy] qz].
    simplify_eq. cbn. split_and!; try done. lia.
Qed.

(** ** The order of the floats *)

Lemma ltb_irrefl (x : float) : (x <? x)%float = false.
Proof.
  rewrite ltb_spec. unfold SFltb, SFcompare.
  destruct (Prim2SF x) as [[] | [] | | [] m e]; try done;
    by rewrite Z.compare_refl, Pos.compare_cont_refl.
Qed.

Lemma SFcompare_antisym (a b : spec_float) :
  SFcompare b a = CompOpp <$> SFcompare a b.
Proof.
  destruct a as [[] | [] | | [] ma ea], b as [[] | [] | | [] mb eb];
    try reflexivity; cbn;
    rewrite (Z.compare_antisym ea eb);
    destruct (ea ?= eb); cbn; try reflexivity;
    change (Pos.compare_cont Eq mb ma) with (mb ?= ma)%positive;
    change (Pos.compare_cont Eq ma mb) with (ma ?= mb)%positive;
    rewrite (Pos.compare_antisym ma mb); by destruct (ma ?= mb)%positive.
Qed.

Lemma is_nan_spec (x : float) :
  PrimFloat.is_nan x = false <-> Prim2SF x <> S754_nan.
Proof.
  unfold PrimFloat.is_nan. rewrite FloatAxioms.eqb_spec. unfold SFeqb, SFcompare.
  destruct (Prim2SF x) as [[] | [] | | [] m e]; cbn; try done;
    rewrite ?Z.compare_refl, ?Pos.compare_cont_refl; cbn; done.
Qed.

Lemma leb_of_not_ltb (x y : float) :
  PrimFloat.is_nan x = false -> PrimFloat.is_nan y = false ->
  (x <? y)%float = false -> (y <=? x)%float = true.
Proof.
  rewrite !is_nan_spec, FloatAxioms.ltb_spec, FloatAxioms.leb_spec. unfold SFltb, SFleb.
  rewrite (SFcompare_antisym (Prim2SF x) (Prim2SF y)).
  intros Hx Hy.
  destruct (Prim2SF x) as [[] | [] | | [] mx ex] eqn:Ex; try done;
    destruct (Prim2SF y) as [[] | [] | | [] my ey] eqn:Ey; try done;
    cbn; try done;
    destruct (ex ?= ey); cbn; try done;
    destruct (Pos.compare_cont Eq mx my); cbn; done.
Qed.

Lemma leb_refl (x : float) :
  PrimFloat.is_nan x = false -> (x <=? x)%float = true.
Proof.
  intros H. apply leb_of_not_ltb; [done | done | apply ltb_irrefl].
Qed.

Lemma leb_not_nan (x y : float) :
  (x <=? y)%float = true ->
  PrimFloat.is_nan x = false /\ PrimFloat.is_nan y = false.
Proof.
  rewrite !is_nan_spec, FloatAxioms.leb_spec. unfold SFleb, SFcompare.
  destruct (Prim2SF x) as [[] | [] | | [] mx ex];
    destruct (Prim2SF y) as [[] | [] | | [] my ey]; done.
Qed.

Lemma opp_not_nan (x : float) :
  PrimFloat.is_nan x = false -> PrimFloat.is_nan (- x) = false.
Proof.
  rewrite !is_nan_spec, FloatAxioms.opp_spec.
  by destruct (Prim2SF x) as [[] | [] | | [] mx ex].
Qed.

Lemma opp_leb_of_nonneg (x : float) :
  (0 <=? x)%float = true ->
  (- x <=? x)%float = true /\ (x <? - x)%float = false.
Proof.
  rewrite !FloatAxioms.leb_spec, FloatAxioms.ltb_spec, FloatAxioms.opp_spec. unfold SFleb, SFltb.
  change (Prim2SF 0) with (S754_zero false).
  destruct (Prim2SF x) as [[] | [] | | [] mx ex]; cbn; try done.
Qed.

(** ** Loop closure detection *)

Lemma popFrontOver5_spec (v : list (list float)) :
  popFrontOver5 v = drop (length v - 5) v.
Proof.
  induction v as [| x v IH]; [done |]. cbn [popFrontOver5].
  destruct (Nat.ltb_spec 5 (length (x :: v))) as [H | H]; cbn [length] in *.
  - rewrite IH. replace (S (length v) - 5)%nat with (S (length v - 5))%nat
      by lia. done.
  - replace (S (length v) - 5)%nat with 0%nat by lia. done.
Qed.

(** X9. [loopInfoHandler] ignores a message whose [data] has not exactly
    two entries. Otherwise the queue afterwards is the old queue followed
    by the message, cut to its last five entries: it never holds more than
    five messages, whatever it held before, and if every message queued
    had two entries this still holds. *)
Theorem loop_info_queue_bounded (data : list float)
    (loopInfoVec : list (list float)) :
  (length data <> 2%nat -> loopInfoHandler data loopInfoVec = loopInfoVec)
  /\ (length data = 2%nat ->
      loopInfoHandler data loopInfoVec
      = drop (length loopInfoVec + 1 - 5) (loopInfoVec ++ [data])
      /\ (length (loopInfoHandler data loopInfoVec) <= 5)%nat
      /\ last (loopInfoHandler data loopInfoVec) = Some data)
  /\ (Forall (fun d => length d = 2%nat) loopInfoVec ->
      Forall (fun d => length d = 2%nat) (loopInfoHandler data loopInfoVec)).
Proof.
  unfold loopInfoHandler.
  destruct (Nat.eqb_spec (length data) 2) as [E | E]; cbn [negb].
  - rewrite popFrontOver5_spec, length_app. cbn [length].
    split; [done |]. split.
    + intros _. split; [done |]. split.
      * rewrite length_drop, length_app. cbn [length]. lia.
      * rewrite drop_app_le by lia. apply last_snoc.
    + intros H. apply Forall_drop. apply Forall_app. split; [done |].
      by constructor.
  - split; [done |]. split; [done |]. done.
Qed.

Lemma firstOldKeyFrame_spec (timeDiff timeCur : float)
    (poses : list PointTypePose) (found : list Z) (loopKeyPre : Z) :
  firstOldKeyFrame timeDiff timeCur poses found = Some loopKeyPre ->
  loopKeyPre <> -1 ->
  exists (n : nat) (p : PointTypePose),
    found !! n = Some loopKeyPre
    /\ 0 <= loopKeyPre
    /\ poses !! Z.to_nat loopKeyPre = Some p
    /\ (timeDiff <? fabs (pp_time p - timeCur))%float = true
    /\ forall (m : nat) (id : Z),
        (m < n)%nat -> found !! m = Some id ->
        exists q : PointTypePose,
          poses !! Z.to_nat id = Some q
          /\ (timeDiff <? fabs (pp_time q - timeCur))%float = false.
Proof.
  induction found as [| id found IH]; cbn [firstOldKeyFrame]; intros H Hne;
    [by simplify_eq |].
  destruct (Z.ltb_spec id 0); [done |].
  destruct (poses !! Z.to_nat id) as [p |] eqn:Ep;
    cbn [mbind option_bind] in H; [| done].
  destruct (timeDiff <? fabs (pp_time p - timeCur))%float eqn:Et.
  - simplify_eq. exists 0%nat, p. split_and!; try done; intros; lia.
  - destruct (IH H Hne) as (n & q & Hn & Hpos & Hq & Ht & Hbefore).
    exists (S n), q. split_and!; try done.
    intros m i Hm Hi. destruct m as [| m]; cbn in Hi.
    + simplify_eq. by exists p.
    + apply (Hbefore m i); [lia | done].
Qed.

(** X10. When [detectLoopClosureDistance] proposes a loop, the current key
    is the last key frame of the copy and has no loop recorded in
    [loopIndexContainer]; the previous key is another key frame, it is the
    first index returned by the radius search whose key frame is more than
    [historyKeyframeSearchTimeDiff] away in time from the current sweep,
    and every index returned before it is within that time. *)
Theorem distance_loop_is_old_and_new (timeDiff : float) (found : list Z)
    (copy3D : list PointType) (copy6D : list PointTypePose)
    (loopIndexContainer : gmap Z Z) (timeCur : float)
    (loopKeyCur loopKeyPre : Z) :
  detectLoopClosureDistance timeDiff found copy3D copy6D loopIndexContainer
                            timeCur
  = Some (Some (loopKeyCur, loopKeyPre)) ->
  loopKeyCur = toInt (Z.of_nat (length copy3D) - 1)
  /\ loopIndexContainer !! loopKeyCur = None
  /\ loopKeyPre <> loopKeyCur
  /\ exists (n : nat) (p : PointTypePose),
      found !! n = Some loopKeyPre
      /\ 0 <= loopKeyPre
      /\ copy6D !! Z.to_nat loopKeyPre = Some p
      /\ (timeDiff <? fabs (pp_time p - timeCur))%float = true
      /\ forall (m : nat) (id : Z),
          (m < n)%nat -> found !! m = Some id ->
          exists q : PointTypePose,
            copy6D !! Z.to_nat id = Some q
            /\ (timeDiff <? fabs (pp_time q - timeCur))%float = false.
Proof.
  unfold detectLoopClosureDistance. intros H.
  destruct (loopIndexContainer !! _) eqn:Ec; [done |].
  destruct (firstOldKeyFrame _ _ _ _) as [pre |] eqn:Ef;
    cbn [mbind option_bind] in H; [| done].
  destruct (Z.eqb_spec pre (-1)); [done |].
  destruct (Z.eqb_spec (toInt (Z.of_nat (length copy3D) - 1)) pre);
    [done |].
  cbn in H. simplify_eq.
  split; [done |]. split; [done |]. split; [congruence |].
  by eapply firstOldKeyFrame_spec.
Qed.

Lemma fabs_is_nan (x : float) :
  PrimFloat.is_nan (fabs x) = PrimFloat.is_nan x.
Proof.
  destruct (PrimFloat.is_nan x) eqn:E.
  - apply not_false_iff_true. intros H. apply is_nan_spec in H.
    apply not_false_iff_true in E. apply E. apply is_nan_spec.
    intros Ex. apply H. unfold fabs. by rewrite FloatAxioms.abs_spec, Ex.
  - apply is_nan_spec. apply is_nan_spec in E. unfold fabs.
    rewrite FloatAxioms.abs_spec.
    by destruct (Prim2SF x) as [[] | [] | | [] m e].
Qed.

(** X11. [detectLoopClosureExternal] leaves an empty queue empty and
    otherwise removes exactly the first message, whether it finds a loop
    or not. When it proposes a loop, the copy holds at least two key
    frames, the two keys differ, the current key has no loop recorded in
    [loopIndexContainer], and the test
    [abs(loopTimeCur - loopTimePre) < historyKeyframeSearchTimeDiff] has
    failed for the two times of that message: they are at least
    [historyKeyframeSearchTimeDiff] apart, unless their difference or the
    threshold is NaN, which fails the test as well. *)
Theorem external_loop_consumes_one_message (roundToInt : float -> Z)
    (timeDiff : float) (loopInfoVec loopInfoVec' : list (list float))
    (copy6D : list PointTypePose) (loopIndexContainer : gmap Z Z)
    (result : option (Z * Z)) :
  detectLoopClosureExternal roundToInt timeDiff loopInfoVec copy6D
                            loopIndexContainer
  = Some (loopInfoVec', result) ->
  loopInfoVec' = tail loopInfoVec
  /\ forall loopKeyCur loopKeyPre : Z,
      result = Some (loopKeyCur, loopKeyPre) ->
      loopKeyCur <> loopKeyPre
      /\ loopIndexContainer !! loopKeyCur = None
      /\ (2 <= length copy6D)%nat
      /\ exists (front : list float) (loopTimeCur loopTimePre : float),
          head loopInfoVec = Some front
          /\ front !! 0%nat = Some loopTimeCur
          /\ front !! 1%nat = Some loopTimePre
          /\ (fabs (loopTimeCur - loopTimePre) <? timeDiff)%float = false
          /\ (PrimFloat.is_nan (loopTimeCur - loopTimePre) = false ->
              PrimFloat.is_nan timeDiff = false ->
              (timeDiff <=? fabs (loopTimeCur - loopTimePre))%float = true).
Proof.
  unfold detectLoopClosureExternal. intros H.
  destruct loopInfoVec as [| front rest]; [by simplify_eq |].
  destruct (front !! 0%nat) as [t0 |] eqn:E0; cbn [mbind option_bind] in H;
    [| done].
  destruct (front !! 1%nat) as [t1 |] eqn:E1; cbn [mbind option_bind] in H;
    [| done].
  destruct (fabs (t0 - t1) <? timeDiff)%float eqn:Et; [by simplify_eq |].
  destruct (Z.ltb_spec INT_MAX (Z.of_nat (length copy6D))); [done |].
  destruct (Z.ltb_spec (Z.of_nat (length copy6D)) 2); [by simplify_eq |].
  match type of H with
  | (if ?a =? ?b then _ else _) = _ =>
      destruct (Z.eqb_spec a b) as [| Hne]; [by simplify_eq |]
  end.
  destruct (loopIndexContainer !! _) eqn:Ec; [by simplify_eq |].
  simplify_eq. split; [done |]. intros cur pre Hr. simplify_eq.
  split_and!; try done; [lia |]. exists front, t0, t1.
  split_and!; try done.
  intros Hn Hd. apply leb_of_not_ltb; [by rewrite fabs_is_nan | done | done].
Qed.

(** ** The limits of [transformUpdate] *)

(** [constraintTransformation] returns a NaN as it is and brings every other
    value between the two limits. *)
Lemma constraintTransformation_spec (value limit : float) :
  (0 <=? limit)%float = true ->
  (PrimFloat.is_nan (constraintTransformation value limit)
   = PrimFloat.is_nan value)
  /\ (PrimFloat.is_nan value = false ->
      (- limit <=? constraintTransformation value limit)%float = true
      /\ (constraintTransformation value limit <=? limit)%float = true).
Proof.
  intros Hl.
  destruct (leb_not_nan _ _ Hl) as [_ Hn].
  pose proof (opp_not_nan _ Hn) as Hno.
  destruct (opp_leb_of_nonneg _ Hl) as [Hle Hlt].
  unfold constraintTransformation.
  destruct (value <? - limit)%float eqn:E1.
  - rewrite Hlt.
    assert (PrimFloat.is_nan value = false) as Hv.
    { apply is_nan_spec. intros Ev. rewrite FloatAxioms.ltb_spec, Ev in E1. done. }
    rewrite Hno, Hv. split; [done |]. intros _.
    split; [by apply leb_refl | done].
  - destruct (limit <? value)%float eqn:E2.
    + assert (PrimFloat.is_nan value = false) as Hv.
      { apply is_nan_spec. intros Ev. rewrite FloatAxioms.ltb_spec, Ev in E2.
        unfold SFltb, SFcompare in E2.
        by destruct (Prim2SF limit) as [[] | [] | | [] ? ?]. }
      rewrite Hn, Hv. split; [done |]. intros _.
      split; [done | by apply leb_refl].
    + split; [done |]. intros Hv.
      split; by apply leb_of_not_ltb.
Qed.

(** X12. After [transformUpdate], the roll and the pitch of
    [transformTobeMapped] are NaN or lie between [- rotation_tollerance]
    and [rotation_tollerance], and its z is NaN or lies between
    [- z_tollerance] and [z_tollerance], provided each tolerance is at least
    0 (which a NaN is not). A NaN is not clamped: z is NaN afterwards
    exactly when it was before, and so are the roll and the pitch when the
    IMU is not available. The yaw, x and y are as scan matching left
    them. *)
Theorem transform_update_clamps (s : mapOptimization) :
  (0 <=? rotation_tollerance)%float = true ->
  (0 <=? z_tollerance)%float = true ->
  let t := transformTobeMapped (transformUpdate s) in
  (PrimFloat.is_nan (v6_0 t) = false ->
   (- rotation_tollerance <=? v6_0 t)%float = true
   /\ (v6_0 t <=? rotation_tollerance)%float = true)
  /\ (PrimFloat.is_nan (v6_1 t) = false ->
      (- rotation_tollerance <=? v6_1 t)%float = true
      /\ (v6_1 t <=? rotation_tollerance)%float = true)
  /\ (PrimFloat.is_nan (v6_5 t) = false ->
      (- z_tollerance <=? v6_5 t)%float = true
      /\ (v6_5 t <=? z_tollerance)%float = true)
  /\ PrimFloat.is_nan (v6_5 t)
     = PrimFloat.is_nan (v6_5 (transformTobeMapped s))
  /\ (imuAvailable (cloudInfo s) = false ->
      PrimFloat.is_nan (v6_0 t)
      = PrimFloat.is_nan (v6_0 (transformTobeMapped s))
      /\ PrimFloat.is_nan (v6_1 t)
         = PrimFloat.is_nan (v6_1 (transformTobeMapped s)))
  /\ v6_2 t = v6_2 (transformTobeMapped s)
  /\ v6_3 t = v6_3 (transformTobeMapped s)
  /\ v6_4 t = v6_4 (transformTobeMapped s).
Proof.
  intros Hr Hz. cbn zeta.
  assert (forall value limit : float,
             (0 <=? limit)%float = true ->
             PrimFloat.is_nan (constraintTransformation value limit) = false ->
             (- limit <=? constraintTransformation value limit)%float = true
             /\ (constraintTransformation value limit <=? limit)%float = true)
    as Hin.
  { intros value limit Hl Hn.
    destruct (constraintTransformation_spec value limit Hl) as [E H].
    apply H. by rewrite <- E. }
  unfold transformUpdate.
  destruct (imuAvailable (cloudInfo s)) eqn:Ei; cbn [andb].
  - destruct (_ <? _)%float.
    + destruct (slerpRPY _ _ _) as [[rollMid ?] ?].
      cbn [v6_set v6_0 v6_1 Nat.eqb].
      destruct (slerpRPY _ _ _) as [[? pitchMid] ?]. cbn.
      split_and!; try done; try (by apply Hin).
      by destruct (constraintTransformation_spec
                     (v6_5 (transformTobeMapped s)) z_tollerance Hz).
    + cbn. split_and!; try done; try (by apply Hin).
      by destruct (constraintTransformation_spec
                     (v6_5 (transformTobeMapped s)) z_tollerance Hz).
  - cbn. split_and!; try done; try (by apply Hin).
    + by destruct (constraintTransformation_spec
                     (v6_5 (transformTobeMapped s)) z_tollerance Hz).
    + intros _.
      destruct (constraintTransformation_spec
                  (v6_0 (transformTobeMapped s)) rotation_tollerance Hr).
      destruct (constraintTransformation_spec
                  (v6_1 (transformTobeMapped s)) rotation_tollerance Hr).
      by split.
Qed.

(** ** The path markers of the objects *)

Lemma pathsKept_refl (s : mapOptimization) : pathsKept s s.
Proof. done. Qed.

Lemma pathsKept_trans (s1 s2 s3 : mapOptimization) :
  pathsKept s1 s2 -> pathsKept s2 s3 -> pathsKept s1 s3.
Proof. intros [? ?] [? ?]. split; congruence. Qed.

Lemma pathsKept_of (s s' : mapOptimization) :
  tracker s' = tracker s -> pathsKept s s'.
Proof.
  unfold pathsKept, objectPaths, numberOfRegisteredObjects. by intros ->.
Qed.

Lemma pathsKept_counted (s s' : mapOptimization) :
  pathsKept s s' -> pathsCounted s -> pathsCounted s'.
Proof. unfold pathsCounted. intros [-> ->]. done. Qed.

Lemma Marker_setScale_length (index : Z) (x : float) (m m' : list Marker) :
  Marker_setScale index x m = Some m' -> length m' = length m.
Proof.
  unfold Marker_setScale. intros H. destruct (index <? 0); [done |].
  destruct (m !! Z.to_nat index); simpl in H; [| done].
  simplify_eq. apply length_insert.
Qed.

Lemma Marker_pushPoint_length (index : Z) (pt : float * float * float)
    (m m' : list Marker) :
  Marker_pushPoint index pt m = Some m' -> length m' = length m.
Proof.
  unfold Marker_pushPoint. intros H. destruct (index <? 0); [done |].
  destruct (m !! Z.to_nat index); simpl in H; [| done].
  simplify_eq. apply length_insert.
Qed.

Ltac lengths :=
  repeat match goal with
         | H : Marker_setScale _ _ _ = Some _ |- _ =>
             apply Marker_setScale_length in H
         | H : Marker_pushPoint _ _ _ = Some _ |- _ =>
             apply Marker_pushPoint_length in H
         end.

Lemma associateObject_paths k inv i o (s : mapOptimization) a o'
    (s' : mapOptimization) a' :
  associateObject k inv i o s a = Some (o', s', a') -> pathsKept s s'.
Proof.
  unfold associateObject, coupleObject, moveToLooselyCoupled, matchingProfile,
    pathsKept.
  intros H. crunch; lengths; cbn in *; split; congruence.
Qed.

Lemma associateObjects_paths k inv (l : Epoch) :
  forall i (s : mapOptimization) a l' (s' : mapOptimization) a',
    associateObjects k inv i l s a = Some (l', s', a') -> pathsKept s s'.
Proof.
  induction l as [| [key o] l IH]; intros i s a l' s' a' H; simpl in H.
  - by simplify_eq.
  - destruct (associateObject _ _ _ _ _ _) as [[[o1 s1] a1] |] eqn:E1;
      simpl in H; [| done].
    destruct (associateObjects _ _ _ _ _ _) as [[[l2 s2] a2] |] eqn:E2;
      simpl in H; [| done].
    simplify_eq. eapply pathsKept_trans.
    + by eapply associateObject_paths.
    + by eapply IH.
Qed.

Lemma loseObjects_paths (l : Epoch) :
  forall (s : mapOptimization) l' (s' : mapOptimization),
    loseObjects l s = Some (l', s') -> pathsKept s s'.
Proof.
  induction l as [| [key o] l IH]; intros s l' s' H; simpl in H.
  - by simplify_eq.
  - destruct (Marker_setScale _ _ _) as [m |] eqn:Em; simpl in H; [| done].
    destruct (loseObjects l _) as [[l2 s2] |] eqn:E; simpl in H; [| done].
    simplify_eq. apply IH in E. apply Marker_setScale_length in Em.
    destruct E as [E1 E2]. cbn in *. split; congruence.
Qed.

Lemma registerObject_counted k e a idx (s s' : mapOptimization) :
  registerObject k e a idx s = Some s' ->
  pathsCounted s ->
  numberOfRegisteredObjects s + 1 < 2 ^ 64 ->
  pathsCounted s'
  /\ numberOfRegisteredObjects s <= numberOfRegisteredObjects s'
     <= numberOfRegisteredObjects s + 1.
Proof.
  unfold registerObject, newNode, pathsCounted. intros H Hc Hroom.
  assert (0 <= numberOfRegisteredObjects s) as H0 by lia.
  destruct (negb _); [simplify_eq; split; [done | lia] |].
  crunch; lengths; cbn in *; rewrite ?length_app; cbn;
    rewrite wrap64_small by lia; split; lia.
Qed.

Lemma registerObjects_counted k e a (idxs : list nat) :
  forall s s' : mapOptimization,
    forEach (registerObject k e a) idxs s = Some s' ->
    pathsCounted s ->
    numberOfRegisteredObjects s + Z.of_nat (length idxs) < 2 ^ 64 ->
    pathsCounted s'.
Proof.
  induction idxs as [| idx idxs IH]; intros s s' H Hc Hroom.
  - simpl in H. by simplify_eq.
  - apply forEach_cons_Some in H. destruct H as (s1 & E & H).
    cbn [length] in Hroom.
    apply registerObject_counted in E; [| done | lia].
    destruct E as (Hc1 & Hn). eapply IH; [exact H | done | lia].
Qed.

Lemma addDetectionFactor_counted mock (s s' : mapOptimization) :
  addDetectionFactor mock s = Some s' ->
  pathsCounted s ->
  numberOfRegisteredObjects s + Z.of_nat (length (detections s)) < 2 ^ 64 ->
  pathsCounted s'.
Proof.
  intros H Hc Hroom. apply addDetectionFactor_cases in H. cbn zeta in H.
  destruct H as [(_ & _ & ->) | [(_ & H) | H]].
  - done.
  - destruct H as (current & current' & s1 & _ & El & ->).
    apply loseObjects_paths in El.
    eapply pathsKept_counted; [| exact Hc].
    destruct El as [E1 E2]. split; [exact E1 | exact E2].
  - destruct H as (current & current1 & s2 & boxes & k & e & a0 & a
                   & _ & _ & Hlen & Ea & H).
    pose proof (associateObjects_paths _ _ _ _ _ _ _ _ _ Ea) as [P1 P2].
    pose proof (associateObjects_tracks _ _ _ _ _ _ _ _ _ Ea)
      as (_ & _ & (_ & _ & Hv) & _).
    eapply registerObjects_counted; [exact H | |].
    + unfold pathsCounted in *. cbn in *. rewrite P1, P2. exact Hc.
    + rewrite length_seq, Hv. cbn. rewrite length_map, Hlen. cbn in P2.
      rewrite P2. exact Hroom.
Qed.

Lemma propagateObjectPoses_paths (s s' : mapOptimization) :
  propagateObjectPoses s = Some s' -> pathsKept s s'.
Proof.
  unfold propagateObjectPoses. intros H.
  destruct (back (objects s)) as [lastObjects |].
  - destruct (forEach propagateObject lastObjects (s, [])) as [[s1 e1] |]
      eqn:E; simpl in H; [| done].
    simplify_eq. apply propagateObjects_spec in E. destruct E as (Ht & _).
    unfold pathsKept, objectPaths, numberOfRegisteredObjects. cbn.
    by rewrite Ht.
  - by simplify_eq.
Qed.

Lemma previousObjectOf_paths k (s : mapOptimization) o
    (s' : mapOptimization) :
  previousObjectOf k s = Some (o, s') -> pathsKept s s'.
Proof.
  unfold previousObjectOf. intros H.
  destruct (objects s !! _) as [e |]; simpl in H; [| done].
  destruct (Epoch_index k e). by simplify_eq.
Qed.

Lemma addConstantVelocityFactor_paths (s s' : mapOptimization) :
  addConstantVelocityFactor s = Some s' -> pathsKept s s'.
Proof.
  unfold addConstantVelocityFactor. intros H.
  destruct (_ <? 2)%nat; [by simplify_eq |].
  destruct (back (objects s)) as [current |]; simpl in H; [| done].
  eapply (forEach_rel pathsKept); [apply pathsKept_refl
    | apply pathsKept_trans | | exact H].
  intros p a b Hb. unfold addConstantVelocityFactor_object in Hb.
  destruct (isFirst p.2); [by simplify_eq |].
  destruct (lostCount p.2 >? 0); [by simplify_eq |].
  destruct (previousObjectOf _ a) as [[previousObject a1] |] eqn:Ep;
    cbn [mbind option_bind] in Hb; [| done].
  apply previousObjectOf_paths in Ep.
  eapply pathsKept_trans; [exact Ep |].
  destruct (isTightlyCoupled p.2); [by simplify_eq |].
  destruct (Marker_pointsSize _ _) as [size |]; cbn [mbind option_bind] in Hb;
    [| done].
  destruct (size <=? toUint64 numberOfEarlySteps); by simplify_eq.
Qed.

Lemma addStablePoseFactor_paths (s s' : mapOptimization) :
  addStablePoseFactor s = Some s' -> pathsKept s s'.
Proof.
  unfold addStablePoseFactor. intros H.
  destruct (_ <? 2)%nat; [by simplify_eq |].
  destruct (back (objects s)) as [current |]; simpl in H; [| done].
  eapply (forEach_rel pathsKept); [apply pathsKept_refl
    | apply pathsKept_trans | | exact H].
  intros p a b Hb. unfold addStablePoseFactor_object in Hb.
  destruct (isFirst p.2); [by simplify_eq |].
  destruct (lostCount p.2 >? 0); [by simplify_eq |].
  destruct (previousObjectOf _ a) as [[previousObject a1] |] eqn:Ep;
    cbn [mbind option_bind] in Hb; [| done].
  apply previousObjectOf_paths in Ep.
  eapply pathsKept_trans; [exact Ep |].
  cbn zeta in Hb.
  destruct (Values_insert _ _ _) as [ia |]; cbn [mbind option_bind] in Hb;
    [| done].
  destruct (Values_insert _ _ ia) as [ia' |]; cbn [mbind option_bind] in Hb;
    [| done].
  simplify_eq. by destruct (isTightlyCoupled p.2).
Qed.

Lemma saveObjects_paths (s s' : mapOptimization) :
  saveObjects s = Some s' -> pathsKept s s'.
Proof.
  unfold saveObjects. intros H.
  destruct (back (objects s)) as [current |]; [| by simplify_eq].
  destruct (mapM _ current) as [current' |]; simpl in H; [| done].
  by simplify_eq.
Qed.

Lemma publishFrames_paths (s s' : mapOptimization) :
  publishFrames s = Some s' -> pathsKept s s'.
Proof.
  unfold publishFrames. intros H.
  destruct (cloudKeyPoses3D s) as [| kp kps]; [by simplify_eq |].
  destruct (detectionIsActive s); [| by simplify_eq].
  destruct (back (objects s)) as [current |]; simpl in H; [| done].
  destruct (forEach publishObject current s) as [s1 |] eqn:E; simpl in H;
    [| done].
  eapply pathsKept_trans.
  - eapply (forEach_rel pathsKept); [apply pathsKept_refl
      | apply pathsKept_trans | | exact E].
    intros p a b Hb. unfold publishObject, pathsKept in *.
    crunch; lengths; cbn in *; split; congruence.
  - eapply (forEach_rel pathsKept); [apply pathsKept_refl
      | apply pathsKept_trans | | exact H].
    intros p a b Hb. unfold hideObject, pathsKept in *. crunch.
Qed.

Lemma saveKeyFramesAndFactor_counted (s0 t1 : mapOptimization) :
  saveKeyFramesAndFactor s0 = Some t1 ->
  pathsCounted s0 ->
  numberOfRegisteredObjects s0 + Z.of_nat (length (detections s0)) < 2 ^ 64 ->
  pathsCounted t1.
Proof.
  intros E1 Hc Hroom.
  unfold saveKeyFramesAndFactor, saveKeyFramesAndFactor_from in E1.
  destruct (saveFrame s0) as [b |]; cbn [mbind option_bind] in E1; [| done].
  destruct (if b then _ else _) as [s1 |] eqn:F1;
    cbn [mbind option_bind] in E1; [| done].
  destruct (propagateObjectPoses s1) as [s2 |] eqn:F2;
    cbn [mbind option_bind] in E1; [| done].
  destruct (addDetectionFactor _ s2) as [s3 |] eqn:F3;
    cbn [mbind option_bind] in E1; [| done].
  destruct (addConstantVelocityFactor s3) as [s4 |] eqn:F4;
    cbn [mbind option_bind] in E1; [| done].
  destruct (addStablePoseFactor s4) as [s5 |] eqn:F5;
    cbn [mbind option_bind] in E1; [| done].
  destruct (if b then Some s5 else _) as [s6 |] eqn:F6;
    cbn [mbind option_bind] in E1; [| done].
  destruct (if b then saveKeyPose _ else _) as [s8 |] eqn:F8;
    cbn [mbind option_bind] in E1; [| done].
  assert (tracker s1 = tracker s0) as G1.
  { destruct b.
    - apply addKeyFrameFactors_frame in F1. by destruct F1 as (_&_&_&_&?&_).
    - apply insertLatestEgoPose_untouched in F1. by destruct F1 as (_&?&_). }
  assert (tracker s6 = tracker s5) as G6.
  { destruct b; [by simplify_eq |].
    apply eraseLatestEgoPose_tracks in F6. by destruct F6. }
  assert (tracker s8 = tracker s6) as G8.
  { destruct (updateISAM_frame s6) as (_ & _ & U1 & _).
    destruct b.
    - apply saveKeyPose_frame in F8.
      destruct F8 as (p3 & p6 & _ & _ & _ & _ & _ & V1 & _). congruence.
    - by simplify_eq. }
  pose proof (propagateObjectPoses_spec _ _ F2) as (Hn2 & Hd2 & _).
  eapply pathsKept_counted; [by eapply saveObjects_paths |].
  eapply (pathsKept_counted s5); [apply pathsKept_of; congruence |].
  eapply pathsKept_counted; [by eapply addStablePoseFactor_paths |].
  eapply pathsKept_counted; [by eapply addConstantVelocityFactor_paths |].
  eapply addDetectionFactor_counted; [exact F3 | |].
  - eapply pathsKept_counted; [by eapply propagateObjectPoses_paths |].
    eapply (pathsKept_counted s0); [by apply pathsKept_of |]. done.
  - rewrite Hn2, Hd2. unfold numberOfRegisteredObjects, detections.
    rewrite G1. exact Hroom.
Qed.

Lemma laserCloudInfoHandler_counted (msgIn : Sweep)
    (s s' : mapOptimization) :
  laserCloudInfoHandler msgIn s = Some s' ->
  withoutWrap msgIn s ->
  pathsCounted s -> pathsCounted s'.
Proof.
  unfold laserCloudInfoHandler, withoutWrap. intros H Hw Hc. cbn zeta in H.
  assert (pathsCounted (receiveSweep msgIn s)) as Hr by exact Hc.
  assert (numberOfRegisteredObjects (receiveSweep msgIn s)
          + Z.of_nat (length (detections
                                (getDetections (sw_reply msgIn)
                                               (receiveSweep msgIn s))))
          < 2 ^ 64) as Hw'.
  { unfold getDetections in *. destruct (sw_reply msgIn); exact Hw. }
  remember (receiveSweep msgIn s) as sr eqn:Esr. clear Esr Hc Hw.
  destruct (_ <=? _)%float; [| by simplify_eq].
  assert (pathsCounted (prepareSweep msgIn sr)
          /\ numberOfRegisteredObjects (prepareSweep msgIn sr)
             + Z.of_nat (length (detections (prepareSweep msgIn sr)))
             < 2 ^ 64) as [Hp Hwp].
  { unfold prepareSweep, getDetections in *.
    destruct (sw_reply msgIn); split; done. }
  remember (prepareSweep msgIn sr) as sp eqn:Esp. clear Esp Hr Hw'.
  destruct (scan2MapOptimization_tracks sp) as [Ht0 _].
  remember (scan2MapOptimization sp) as s0 eqn:Es0. clear Es0.
  destruct (saveKeyFramesAndFactor s0) as [t1 |] eqn:E1;
    cbn [mbind option_bind] in H; [| done].
  destruct (correctPoses t1) as [t2 |] eqn:E2;
    cbn [mbind option_bind] in H; [| done].
  apply correctPoses_tracks in E2. destruct E2 as [E2t _].
  destruct (publishOdometry_tracks t2) as [E3t _].
  apply publishFrames_paths in H.
  eapply pathsKept_counted; [exact H |].
  eapply (pathsKept_counted t1); [apply pathsKept_of; congruence |].
  eapply saveKeyFramesAndFactor_counted; [exact E1 | |].
  - eapply (pathsKept_counted sp); [by apply pathsKept_of |]. done.
  - unfold numberOfRegisteredObjects, detections in *. by rewrite Ht0.
Qed.

(** X13. In every state that the node reaches, as long as
    [numberOfRegisteredObjects] does not pass [2^64], [objectPaths] holds
    exactly one marker for every object registered; so the marker
    [objectPaths.markers[object.objectIndex]] of every object of the last
    epoch exists. *)
Theorem every_object_has_its_path_marker (s : mapOptimization)
    (current : Epoch) (k : Z) (o : ObjectState) :
  reachable withoutWrap s ->
  back (objects s) = Some current -> (k, o) ∈ current ->
  pathsCounted s
  /\ exists size : Z,
      Marker_pointsSize (objectIndex o) (objectPaths s) = Some size.
Proof.
  intros Hr Hb Hk.
  assert (pathsCounted s) as Hc.
  { unfold reachable in Hr.
    eapply (rtc_ind_r (fun t => pathsCounted t) initialState);
      [| | exact Hr]; [done |].
    intros s1 s2 _ Hstep IH.
    destruct Hstep as [msgIn t t' Hw Hh | |]; [| done | done].
    by eapply laserCloudInfoHandler_counted. }
  split; [exact Hc |].
  destruct (reachable_registered s Hr) as (_ & H).
  destruct (H current Hb) as (_ & Hin). destruct (Hin _ Hk) as (Hi & Hrange).
  cbn in Hi, Hrange. unfold pathsCounted in Hc. unfold Marker_pointsSize.
  destruct (Z.ltb_spec (objectIndex o) 0); [lia |].
  destruct (objectPaths s !! Z.to_nat (objectIndex o)) as [m |] eqn:Em.
  - by eexists.
  - apply lookup_ge_None in Em. lia.
Qed.

End Properties.

(** * The properties on runs of the flat world *)

Import Flat.
#[local] Existing Instances geometry collaborators config.

Lemma forEach_default {A S : Type} (body : A -> S -> option S) (l : list A)
    (s d : S) :
  match forEach body l s with Some _ => True | None => False end ->
  forEach body l s = Some (default d (forEach body l s)).
Proof. by destruct (forEach body l s). Qed.

Lemma reachable_afterWith (c : ParamServer) (l : list Sweep) :
  match runWith c l with Some _ => True | None => False end ->
  reachable anySweep (afterWith c l).
Proof.
  intros H. apply (sweeps_anySweep l). unfold afterWith, runWith in *.
  by apply forEach_default.
Qed.

(** C7, on a run: a sweep with enough features in which 10
    correspondences are selected, after a first key frame. *)
Lemma too_few_correspondences_witness :
  cloudKeyPoses3D beforeMatching <> []
  /\ Z.of_nat
       (length (optimizationCoeffs (scan beforeMatching)
                                   (transformTobeMapped beforeMatching)).1)
     < 50
  /\ rosWarnings (scan2MapOptimization beforeMatching)
     = rosWarnings beforeMatching
  /\ transformTobeMapped (scan2MapOptimization beforeMatching)
     = transformTobeMapped (transformUpdate beforeMatching).
Proof.
  assert (cloudKeyPoses3D beforeMatching <> []) as Hk.
  { intros E. apply (f_equal length) in E. vm_compute in E. discriminate E. }
  assert (edgeFeatureMinValidNum < laserCloudCornerLastDSNum beforeMatching)
    as Hc by (vm_compute; reflexivity).
  assert (surfFeatureMinValidNum < laserCloudSurfLastDSNum beforeMatching)
    as Hs by (vm_compute; reflexivity).
  assert (Z.of_nat
            (length (optimizationCoeffs (scan beforeMatching)
                       (transformTobeMapped beforeMatching)).1) < 50) as Hf
    by (vm_compute; reflexivity).
  split; [exact Hk |]. split; [exact Hf |].
  destruct (too_few_correspondences (cfg := config) beforeMatching Hk)
    as (_ & H & _).
  destruct (H Hc Hs) as (_ & Hw & Hp).
  split; [exact Hw |]. exact (proj2 (proj2 (Hp Hf))).
Defined.

(** C7 as stated fails: with 10 correspondences in every iteration, no
    warning is emitted and the pose that [scan2MapOptimization] leaves is
    not the one it was given. *)
Lemma few_correspondences_no_warning :
  length (optimizationCoeffs (scan beforeMatching)
                             (transformTobeMapped beforeMatching)).1 = 10%nat
  /\ laserCloudOri (scan2MapIterations 30 0 beforeMatching)
     = (optimizationCoeffs (scan beforeMatching)
                           (transformTobeMapped beforeMatching)).1
  /\ rosWarnings (scan2MapOptimization beforeMatching)
     = rosWarnings beforeMatching
  /\ v6_5 (transformTobeMapped beforeMatching) = 2000%float
  /\ v6_5 (transformTobeMapped (scan2MapOptimization beforeMatching))
     = 1000%float.
Proof. split_and!; vm_compute; reflexivity. Qed.

(** C8, on a run: the second message of [corridor]. *)
Lemma covariance_reports_isDegenerate_witness :
  length (od_covariance (laserOdomIncremental (after [unseen 1]))) = 36%nat
  /\ exists msg : Odometry,
      pubLaserOdometryIncremental (publishOdometry (after [unseen 1]))
      = pubLaserOdometryIncremental (after [unseen 1]) ++ [msg]
      /\ (lastIncreOdomPubFlag (after [unseen 1]) = true ->
          od_covariance msg !! 0%nat
          = Some (if isDegenerate (after [unseen 1]) then 1%float
                  else 0%float)).
Proof.
  assert (length (od_covariance (laserOdomIncremental (after [unseen 1])))
          = 36%nat) as H by (vm_compute; reflexivity).
  split; [exact H |].
  destruct (covariance_reports_isDegenerate (after [unseen 1]) H)
    as ((msg & Hm & _ & Hc) & _).
  by exists msg.
Defined.

(** C8 as stated fails: in the last sweep of [corridor] scan matching is
    not run, for want of corner features, and the message has
    [covariance[0] = 1]: the flag of the sweep before. *)
Lemma covariance_of_a_sweep_without_matching :
  (laserCloudCornerLastDSNum poorSweep >? edgeFeatureMinValidNum) = false
  /\ scan2MapOptimization poorSweep
     = set_rosWarnings (rosWarnings poorSweep ++ [(5, 1000)]) poorSweep
  /\ map (fun msg => od_covariance msg !! 0%nat)
         (pubLaserOdometryIncremental (after corridor))
     = [Some 0%float; Some 1%float; Some 1%float].
Proof. split_and!; vm_compute; reflexivity. Qed.

(** C9 as stated fails: at a distance of 1 from the last key frame, which
    is the threshold, and without any rotation, the sweep becomes a key
    frame. *)
Lemma key_frame_at_the_threshold :
  transBetween atThreshold
  = Some (1%float, 0%float, 0%float, 0%float, 0%float, 0%float)
  /\ surroundingkeyframeAddingDistThreshold = 1%float
  /\ cloudKeyPoses3D atThreshold <> []
  /\ saveFrame atThreshold = Some true.
Proof.
  split_and!; try (vm_compute; reflexivity).
  intros H. apply (f_equal length) in H. vm_compute in H. discriminate H.
Qed.

(** The translation is computed as [float] computes it: at
    x = 0.88408649 and y = 0.46732327 the sum of the squares is below 1 in
    [double] and is 1 in [float], so that the sweep becomes a key
    frame. *)
Lemma key_frame_by_float_rounding :
  transBetween nearThreshold
  = Some (0.8840864896774292%float, 0.46732327342033386%float, 0%float,
          0%float, 0%float, 0%float)
  /\ (fsqrt (0.8840864896774292 * 0.8840864896774292
             + 0.46732327342033386 * 0.46732327342033386 + 0 * 0)
      <? surroundingkeyframeAddingDistThreshold)%float = true
  /\ translationNorm 0.8840864896774292 0.46732327342033386 0 = 1%float
  /\ saveFrame nearThreshold = Some true.
Proof. split_and!; vm_compute; reflexivity. Qed.

(** C10, on a run: the object seen twice is propagated with one more
    entry in its history. *)
Lemma velocity_history_grows_witness :
  lostCount (firstObject seenTwice).2 <= trackingStepsForLostObject
  /\ propagateObject (0, (firstObject seenTwice).2) (seenTwice, [])
     = Some (propagatedTwice.1, propagatedTwice.2)
  /\ previousVelocityNodeIndices (firstObject seenTwice).2 = [2]
  /\ exists nextObject : ObjectState,
      Epoch_find 0 propagatedTwice.2 = Some nextObject
      /\ previousVelocityNodeIndices nextObject = [2; 4].
Proof.
  assert (lostCount (firstObject seenTwice).2 <= trackingStepsForLostObject)
    as Hl by (vm_compute; discriminate).
  assert (propagateObject (0, (firstObject seenTwice).2) (seenTwice, [])
          = Some (propagatedTwice.1, propagatedTwice.2)) as H
    by (vm_compute; reflexivity).
  split; [exact Hl |]. split; [exact H |].
  split; [vm_compute; reflexivity |].
  destruct (velocity_history_grows 0 (firstObject seenTwice).2 seenTwice
              propagatedTwice.1 [] propagatedTwice.2 Hl H)
    as ((nextObject & Hf & Hh) & _).
  exists nextObject. split; [exact Hf |].
  rewrite Hh. vm_compute. reflexivity.
Defined.

(** C10 as stated fails: after four sweeps of a box, with
    [numberOfVelocityConsistencySteps = 2], the history of its object holds
    three entries. *)
Lemma velocity_history_exceeds_K :
  reachable anySweep (after (approach 4))
  /\ numberOfVelocityConsistencySteps = 2
  /\ (map (fun p : Z * ObjectState => previousVelocityNodeIndices p.2)
       <$> back (objects (after (approach 4))))
     = Some [[2; 4; 6]].
Proof.
  split_and!; try (vm_compute; reflexivity).
  apply reachable_afterWith. vm_compute. exact I.
Qed.

(** C4, on a run: the object of a box seen once. *)
Lemma matching_profile_selection_witness :
  Marker_pointsSize (objectIndex (firstObject (after (approach 1))).2)
                    (objectPaths (after (approach 1))) = Some 1
  /\ matchingProfile (firstObject (after (approach 1))).2
                     (after (approach 1))
     = Some EarlyLooselyCoupledMatching.
Proof.
  assert (Marker_pointsSize
            (objectIndex (firstObject (after (approach 1))).2)
            (objectPaths (after (approach 1))) = Some 1) as H
    by (vm_compute; reflexivity).
  split; [exact H |].
  destruct (matching_profile_selection _ _ _ H) as (Hm & _).
  rewrite Hm. vm_compute. reflexivity.
Defined.

(** C4 as stated fails: with [numberOfEarlySteps = 5], the object of a box
    seen three times has [trackScore = 2], which is not [P + 1 = 3], and a
    path of 3 points, yet it is matched against the loose profile. *)
Lemma loose_profile_below_P_plus_1 :
  let c := configWith 1 5 in
  let s := afterWith c (approach 3) in
  let o := (firstObject s).2 in
  trackScore o = 2
  /\ @numberOfPreLooseCouplingSteps c + 1 = 3
  /\ Marker_pointsSize (objectIndex o) (objectPaths s) = Some 3
  /\ @numberOfEarlySteps c = 5
  /\ @matchingProfile c geometry collaborators o s
     = Some LooselyCoupledMatching.
Proof. split_and!; vm_compute; reflexivity. Qed.



(** C2, on a run: a box seen four times. *)
Lemma trackScore_bounds_witness :
  0 <= numberOfInterLooseCouplingSteps <= numberOfPreLooseCouplingSteps + 1
  /\ scoresBounded (after (approach 4)).
Proof.
  assert (0 <= numberOfInterLooseCouplingSteps
          <= numberOfPreLooseCouplingSteps + 1) as H
    by (vm_compute; split; discriminate).
  split; [exact H |].
  apply (proj1 (trackScore_bounds H)).
  apply (reachable_afterWith config (approach 4)). vm_compute. exact I.
Defined.

(** C2 as stated fails: with [numberOfInterLooseCouplingSteps = 5] and
    [P = 2], a box seen three times at 10 and then at 11.5 is matched, fails
    the test of the detection error, and is demoted to the score -2. *)
Lemma trackScore_below_zero :
  let c := configWith 5 1 in
  reachable (cfg := c) anySweep (afterWith c demoted)
  /\ tracksOf (afterWith c demoted)
     = [[(0, 0, 0)]; [(0, 0, 1)]; [(0, 0, 2)]; [(0, 0, -2)]]
  /\ ~ scoresBounded (cfg := c) (afterWith c demoted).
Proof.
  cbv zeta. split_and!.
  - apply (reachable_afterWith (configWith 5 1) demoted). vm_compute. exact I.
  - vm_compute. reflexivity.
  - intros H.
    assert (back (objects (afterWith (configWith 5 1) demoted))
            = Some [firstObject (afterWith (configWith 5 1) demoted)]) as Hb
      by (vm_compute; reflexivity).
    specialize (H _ _ Hb (list_elem_of_here _ _)).
    destruct H as [H _]. vm_compute in H. by apply H.
Qed.

(** C5, on a run: a box seen four times and then not seen three times has
    [lostCount = 3 > 2]; two sweeps later its key is in no new epoch and
    owns no new factor. *)
Lemma retired_track_never_returns_witness :
  back (objects (after lostApproach)) = Some [firstObject (after lostApproach)]
  /\ Epoch_find 0 [firstObject (after lostApproach)]
     = Some (firstObject (after lostApproach)).2
  /\ trackingStepsForLostObject < lostCount (firstObject (after lostApproach)).2
  /\ absentFrom 0 (length (objects (after lostApproach)))
                (length (factorTrace (after lostApproach)))
                (after (lostApproach ++ later)).
Proof.
  assert (reachable withoutWrap (after lostApproach)) as Hr.
  { apply (sweeps_withoutWrap lostApproach). vm_compute. reflexivity. }
  assert (back (objects (after lostApproach))
          = Some [firstObject (after lostApproach)]) as Hb
    by (vm_compute; reflexivity).
  assert (Epoch_find 0 [firstObject (after lostApproach)]
          = Some (firstObject (after lostApproach)).2) as Hf
    by (vm_compute; reflexivity).
  assert (trackingStepsForLostObject
          < lostCount (firstObject (after lostApproach)).2) as Hl
    by (vm_compute; reflexivity).
  assert (rtc (step withoutWrap) (after lostApproach)
              (after (lostApproach ++ later))) as Hrun.
  { apply (sweeps_withoutWrap later). vm_compute. reflexivity. }
  split_and!; try assumption.
  exact (proj1 (retired_track_never_returns
                  (after lostApproach) (after (lostApproach ++ later)) 0
                  [firstObject (after lostApproach)]
                  (firstObject (after lostApproach)).2 Hr Hb Hf Hl Hrun)).
Defined.

(** C3: the code does not do what the claim says. When
    [detectionClient.call] fails, [getDetections] clears
    [detectionIsActive] and leaves [detections] as the last reply made
    them, and [addDetectionFactor] reads [detections] without looking at
    [detectionIsActive]. On a run: after a sweep in which a box is seen at
    10, a sweep that the detector does not answer matches the object
    against that box again ([lostCount] stays 0 and [trackScore] goes from 0
    to 1), whereas a sweep answered without any box makes it lost
    ([lostCount = 1]). *)
Theorem unanswered_sweep_reuses_detections :
  (forall s : mapOptimization,
      detections (getDetections None s) = detections s
      /\ detectionIsActive (getDetections None s) = false)
  /\ detections (after [seen 1 10; unanswered 2]) = [boxAt 10]
  /\ detectionIsActive (after [seen 1 10; unanswered 2]) = false
  /\ tracksOf (after [seen 1 10; unanswered 2])
     = [[(0, 0, 0)]; [(0, 0, 1)]]
  /\ tracksOf (after [seen 1 10; unseen 2]) = [[(0, 0, 0)]; [(0, 1, 0)]].
Proof. split_and!; try (vm_compute; reflexivity). done. Qed.

(** ** The functions one by one, on runs of the flat world *)

(** X1, on a run: the object seen twice is copied into a new epoch. *)
Lemma propagation_appends_one_epoch_witness :
  propagateObjectPoses seenTwice = Some propagatedEpoch
  /\ exists nextObjects : Epoch,
      objects propagatedEpoch = objects seenTwice ++ [nextObjects]
      /\ keysSorted nextObjects.
Proof.
  assert (propagateObjectPoses seenTwice = Some propagatedEpoch) as H
    by (vm_compute; reflexivity).
  split; [exact H |].
  destruct (propagation_appends_one_epoch (cfg := config) seenTwice
              propagatedEpoch H) as (nextObjects & Ho & Hs & _).
  exists nextObjects. split; [exact Ho | exact Hs].
Defined.

(** X2, on a run: the first box seen takes the key 0. *)
Lemma registration_takes_fresh_keys_witness :
  0 <= numberOfRegisteredObjects firstSight.2
  /\ numberOfRegisteredObjects firstSight.2
     + Z.of_nat (length (detections firstSight.2)) < 2 ^ 64
  /\ addDetectionFactor firstSight.1 firstSight.2 = Some firstRegistered
  /\ numberOfRegisteredObjects firstSight.2
     <= numberOfRegisteredObjects firstRegistered
     <= numberOfRegisteredObjects firstSight.2
        + Z.of_nat (length (detections firstSight.2)).
Proof.
  assert (0 <= numberOfRegisteredObjects firstSight.2) as H0
    by (vm_compute; discriminate).
  assert (numberOfRegisteredObjects firstSight.2
          + Z.of_nat (length (detections firstSight.2)) < 2 ^ 64) as H1
    by (vm_compute; reflexivity).
  assert (addDetectionFactor firstSight.1 firstSight.2
          = Some firstRegistered) as H2 by (vm_compute; reflexivity).
  split; [exact H0 |]. split; [exact H1 |]. split; [exact H2 |].
  exact (proj1 (registration_takes_fresh_keys (cfg := config) firstSight.1
                  firstSight.2 firstRegistered H0 H1 H2)).
Defined.

(** X3, on a run: a box seen twice. *)
Lemma epoch_keys_are_object_indices_witness :
  reachable withoutWrap seenTwice
  /\ back (objects seenTwice) = Some [firstObject seenTwice]
  /\ keysSorted [firstObject seenTwice].
Proof.
  assert (reachable withoutWrap seenTwice) as Hr.
  { apply (sweeps_withoutWrap (approach 2)). vm_compute. reflexivity. }
  assert (back (objects seenTwice) = Some [firstObject seenTwice]) as Hb
    by (vm_compute; reflexivity).
  split; [exact Hr |]. split; [exact Hb |].
  exact (proj1 (epoch_keys_are_object_indices (cfg := config) seenTwice
                  [firstObject seenTwice] Hr Hb)).
Defined.

(** X4, on a run: four sweeps of a sensor at rest. *)
Lemma key_frame_stores_aligned_witness :
  reachable anySweep (after (approach 4))
  /\ alignedKeyFrames (after (approach 4)).
Proof.
  assert (reachable anySweep (after (approach 4))) as Hr.
  { apply (reachable_afterWith config (approach 4)). vm_compute. exact I. }
  split; [exact Hr |].
  exact (key_frame_stores_aligned (cfg := config) (after (approach 4)) Hr).
Defined.

(** X5, on a run: a box seen, lost and dropped. *)
Lemma buffers_empty_between_callbacks_witness :
  reachable anySweep (after lostApproach)
  /\ buffersEmpty (after lostApproach).
Proof.
  assert (reachable anySweep (after lostApproach)) as Hr.
  { apply (reachable_afterWith config lostApproach). vm_compute. exact I. }
  split; [exact Hr |].
  exact (buffers_empty_between_callbacks (cfg := config)
           (after lostApproach) Hr).
Defined.

(** X6, on a run: one loop closure in the queues. *)
Lemma loop_factors_drain_the_queues_witness :
  addLoopFactor loopQueued = Some loopAdded
  /\ loopIndexQueue loopQueued <> []
  /\ loopIndexQueue loopAdded = []
  /\ length (gtSAMgraph loopAdded)
     = (length (gtSAMgraph loopQueued) + length (loopIndexQueue loopQueued))%nat.
Proof.
  assert (addLoopFactor loopQueued = Some loopAdded) as H
    by (vm_compute; reflexivity).
  assert (loopIndexQueue loopQueued <> []) as Hq.
  { intros E. apply (f_equal length) in E. vm_compute in E. discriminate E. }
  split; [exact H |]. split; [exact Hq |].
  destruct (proj2 (loop_factors_drain_the_queues loopQueued loopAdded H) Hq)
    as (_ & _ & Hi & _ & _ & _ & _ & Hl & _).
  split; [exact Hi | exact Hl].
Defined.

(** X7, on a run: the old fix is dropped and the fix of the time of the
    sweep gives the factor; its variance 2.00000001 is 2 as a [float],
    which is not above [gpsCovThreshold = 2], and its x is 331234.5625 as a
    [float]. *)
Lemma gps_adds_at_most_one_factor_witness :
  addGPSFactor gpsWaiting = Some gpsAdded
  /\ gpsQueue gpsWaiting = [gpsFix 1 10; gpsFix 6 331234.567]
  /\ gtSAMgraph gpsAdded
     = gtSAMgraph gpsWaiting
       ++ [GPSFactor 2 331234.5625 0 0 [2%float; 2%float; 1%float]]
  /\ (gtSAMgraph gpsAdded <> gtSAMgraph gpsWaiting ->
      exists (n : nat) (thisGPS : Odometry),
        gpsQueue gpsWaiting !! n = Some thisGPS
        /\ gpsQueue gpsAdded = drop (S n) (gpsQueue gpsWaiting)).
Proof.
  assert (addGPSFactor gpsWaiting = Some gpsAdded) as H
    by (vm_compute; reflexivity).
  split; [exact H |]. split; [vm_compute; reflexivity |].
  split; [vm_compute; reflexivity |].
  intros Hg.
  destruct (gps_adds_at_most_one_factor (cfg := config) gpsWaiting gpsAdded
              H)
    as [(E & _) | (n & thisGPS & z & noise & Hn & Hq & _)].
  - destruct (Hg E).
  - exists n, thisGPS. split; [exact Hn | exact Hq].
Defined.

(** X8, on a run: the object seen twice is read back. *)
Lemma read_back_keeps_lost_objects_witness :
  saveObjects seenTwice = Some readBack
  /\ back (objects seenTwice) = Some [firstObject seenTwice]
  /\ exists current' : Epoch,
      objects readBack = removelast (objects seenTwice) ++ [current']
      /\ length current' = 1%nat.
Proof.
  assert (saveObjects seenTwice = Some readBack) as H
    by (vm_compute; reflexivity).
  assert (back (objects seenTwice) = Some [firstObject seenTwice]) as Hb
    by (vm_compute; reflexivity).
  split; [exact H |]. split; [exact Hb |].
  destruct (read_back_keeps_lost_objects seenTwice readBack
              [firstObject seenTwice] H Hb) as (current' & Ho & Hf).
  exists current'. split; [exact Ho |].
  apply Forall2_length in Hf. by rewrite <- Hf.
Defined.

(** X10, on three key frames: the search returns the last key frame, which
    is of the time of the sweep, and then the one taken 40 before. *)
Lemma distance_loop_is_old_and_new_witness :
  detectLoopClosureDistance 30 [2; 1; 0] copy3D copy6D ∅ 50
  = Some (Some (2, 1))
  /\ (∅ : gmap Z Z) !! 2 = None /\ 1 <> 2.
Proof.
  assert (detectLoopClosureDistance 30 [2; 1; 0] copy3D copy6D ∅ 50
          = Some (Some (2, 1))) as H by (vm_compute; reflexivity).
  split; [exact H |].
  destruct (distance_loop_is_old_and_new 30 [2; 1; 0] copy3D copy6D ∅ 50
              2 1 H) as (_ & Hc & Hn & _).
  split; [exact Hc | exact Hn].
Defined.

(** X11, on three key frames: a message with the times 50 and 0. *)
Lemma external_loop_consumes_one_message_witness :
  detectLoopClosureExternal roundBelow10 30 [[50; 0]; [10; 0]]%float copy6D ∅
  = Some ([[10; 0]]%float, Some (2, 0))
  /\ [[10; 0]]%float = tail [[50; 0]; [10; 0]]%float.
Proof.
  assert (detectLoopClosureExternal roundBelow10 30
            [[50; 0]; [10; 0]]%float copy6D ∅
          = Some ([[10; 0]]%float, Some (2, 0))) as H
    by (vm_compute; reflexivity).
  split; [exact H |].
  exact (proj1 (external_loop_consumes_one_message roundBelow10 30
                  [[50; 0]; [10; 0]]%float [[10; 0]]%float copy6D ∅
                  (Some (2, 0)) H)).
Defined.

(** X12, on a run: the initial guess at the height 2000 is brought back
    to 1000. *)
Lemma transform_update_clamps_witness :
  (0 <=? rotation_tollerance)%float = true
  /\ (0 <=? z_tollerance)%float = true
  /\ v6_5 (transformTobeMapped beforeMatching) = 2000%float
  /\ PrimFloat.is_nan
       (v6_5 (transformTobeMapped (transformUpdate beforeMatching))) = false
  /\ (v6_5 (transformTobeMapped (transformUpdate beforeMatching))
      <=? z_tollerance)%float = true.
Proof.
  assert ((0 <=? rotation_tollerance)%float = true) as Hr
    by (vm_compute; reflexivity).
  assert ((0 <=? z_tollerance)%float = true) as Hz
    by (vm_compute; reflexivity).
  assert (PrimFloat.is_nan
            (v6_5 (transformTobeMapped (transformUpdate beforeMatching)))
          = false) as Hn by (vm_compute; reflexivity).
  split; [exact Hr |]. split; [exact Hz |].
  split; [vm_compute; reflexivity |]. split; [exact Hn |].
  pose proof (transform_update_clamps (cfg := config) beforeMatching Hr Hz)
    as H.
  cbv zeta in H. destruct H as (_ & _ & H & _).
  exact (proj2 (H Hn)).
Defined.

(** X13, on a run: the marker of the box seen twice. *)
Lemma every_object_has_its_path_marker_witness :
  reachable withoutWrap seenTwice
  /\ back (objects seenTwice) = Some [(0, (firstObject seenTwice).2)]
  /\ pathsCounted seenTwice.
Proof.
  assert (reachable withoutWrap seenTwice) as Hr.
  { apply (sweeps_withoutWrap (approach 2)). vm_compute. reflexivity. }
  assert (back (objects seenTwice) = Some [(0, (firstObject seenTwice).2)])
    as Hb by (vm_compute; reflexivity).
  split; [exact Hr |]. split; [exact Hb |].
  exact (proj1 (every_object_has_its_path_marker (cfg := config) seenTwice
                  [(0, (firstObject seenTwice).2)] 0
                  (firstObject seenTwice).2 Hr Hb
                  (list_elem_of_here (0, (firstObject seenTwice).2) []))).
Defined.
